(** * RelayServer: a shallow embedding of the relay server's reconciliation
      loop and admission pipeline, with the properties of its specification.

    The server is a JavaScript class whose methods read and write the
    fields of [this], await calls on its collaborators (the contract
    interactor, the transaction manager, the transaction store, the
    registration manager) and throw [Error]s.  The embedding keeps that
    shape: the fields are a record, a method is a function from the record
    to a tree of awaited calls, and a run of a method against a model of
    the collaborators yields the final fields, the result or the thrown
    message, and the trace of calls made. *)

From Stdlib Require Import ZArith QArith Qround Lia List Bool Ascii String.
From stdpp Require Import base option strings pretty gmap.
Import ListNotations.
Local Close Scope Q_scope.
Local Open Scope Z_scope.

(** ** JavaScript values and built-ins used by the server *)

Module JS.

(** A JavaScript number that holds an integer, or [NaN].  The server's
    numbers are block numbers, counters, nonces and gas amounts. *)
Definition number := option Z.
Definition NaN : number := None.

(** Relational operators: every comparison with [NaN] is false. *)
Definition gt (a b : number) : bool :=
  match a, b with Some x, Some y => y <? x | _, _ => false end.
Definition lt (a b : number) : bool := gt b a.

Definition MAX_SAFE_INTEGER : Z := 2 ^ 53 - 1.

(** [x++] on a counter: doubles represent every integer up to [2^53];
    one more than [2^53] rounds back to [2^53]. *)
Definition incr (x : Z) : Z := if x <? 2 ^ 53 then x + 1 else x.

(** [Math.floor(n * f)] for an integer-valued [n] and a factor [f]. *)
Definition floor_mul (n : number) (f : Q) : number :=
  x ← n; Some (Qfloor (inject_Z x * f)%Q).

Definition code (c : ascii) : Z := Z.of_nat (nat_of_ascii c).

Definition isUpper (c : ascii) : bool := (65 <=? code c) && (code c <=? 90).
Definition isLower (c : ascii) : bool := (97 <=? code c) && (code c <=? 122).

Definition lower_ascii (c : ascii) : ascii :=
  if isUpper c then ascii_of_nat (nat_of_ascii c + 32) else c.

(** [String.prototype.toLowerCase] on ASCII text (addresses are
    hexadecimal strings). *)
Fixpoint toLowerCase (s : string) : string :=
  match s with
  | EmptyString => EmptyString
  | String c r => String (lower_ascii c) (toLowerCase r)
  end.

Definition toLocaleLowerCase : string → string := toLowerCase.

Definition isWhiteSpace (c : ascii) : bool :=
  ((9 <=? code c) && (code c <=? 13)) || (code c =? 32).

Fixpoint trimStart (s : string) : string :=
  match s with
  | String c r => if isWhiteSpace c then trimStart r else s
  | EmptyString => s
  end.

Definition digitValue (c : ascii) : option Z :=
  let n := code c in
  if (48 <=? n) && (n <=? 57) then Some (n - 48)
  else if isLower c then Some (n - 87)
  else if isUpper c then Some (n - 55)
  else None.

(** The value of the longest prefix of [s] made of digits of [radix];
    [acc] is [None] until a digit has been read. *)
Fixpoint digits (radix : Z) (s : string) (acc : option Z) : option Z :=
  match s with
  | String c r =>
      match digitValue c with
      | Some d =>
          if d <? radix then digits radix r (Some (radix * default 0 acc + d))
          else acc
      | None => acc
      end
  | EmptyString => acc
  end.

Definition stripSign (s : string) : Z * string :=
  match s with
  | String "-" r => (-1, r)
  | String "+" r => (1, r)
  | _ => (1, s)
  end.

Definition stripHexPrefix (s : string) : bool * string :=
  match s with
  | String "0" (String "x" r) => (true, r)
  | String "0" (String "X" r) => (true, r)
  | _ => (false, s)
  end.

(** [parseInt(s)] without a radix: leading white space, an optional
    sign, an optional [0x], then the longest run of digits; [NaN] when
    there is none. *)
Definition parseInt (s : string) : number :=
  let '(sign, s1) := stripSign (trimStart s) in
  let '(hex, s2) := stripHexPrefix s1 in
  z ← digits (if hex then 16 else 10) s2 None; Some (sign * z).

Fixpoint allDigits (radix : Z) (s : string) : bool :=
  match s with
  | EmptyString => true
  | String c r =>
      match digitValue c with
      | Some d => (d <? radix) && allDigits radix r
      | None => false
      end
  end.

(** [String.prototype.includes]. *)
Fixpoint includes (s sub : string) : bool :=
  String.prefix sub s
  || match s with
     | EmptyString => false
     | String _ r => includes r sub
     end.

End JS.

Arguments JS.gt : simpl never.
Arguments JS.lt : simpl never.
Arguments JS.parseInt : simpl never.



(** ** Data model *)

Abbreviation address := string (only parsing).
Abbreviation PrefixedHexString := string (only parsing).
Abbreviation IntString := string (only parsing).

(** Modelled from the spec: the enumeration [ServerAction] of
    StoredTransaction, whose file is not part of the server module. *)
Inductive ServerAction :=
| REGISTER_SERVER | ADD_WORKER | AUTHORIZE_HUB | STAKE | UNSTAKE
| RELAY_CALL | VALUE_TRANSFER | DEPOSIT_WITHDRAWAL | SET_OWNER.

Module RelayData.
Record t := mk {
  gasPrice : IntString;
  pctRelayFee : IntString;
  baseRelayFee : IntString;
  relayWorker : address;
  paymaster : address;
  paymasterData : PrefixedHexString;
  clientId : IntString;
  forwarder : address
}.
End RelayData.

Module ForwardRequest.
Record t := mk {
  from_ : address;
  to_ : address;
  data : PrefixedHexString;
  value : IntString;
  nonce : IntString;
  gas : IntString;
  validUntil : IntString
}.
End ForwardRequest.

Module RelayRequest.
Record t := mk {
  request : ForwardRequest.t;
  relayData : RelayData.t
}.
End RelayRequest.

Module RelayMetadata.
Record t := mk {
  approvalData : PrefixedHexString;
  relayHubAddress : address;
  relayMaxNonce : Z;
  signature : PrefixedHexString
}.
End RelayMetadata.

Record RelayTransactionRequest := {
  relayRequest : RelayRequest.t;
  metadata : RelayMetadata.t
}.

Record PaymasterGasLimits := {
  acceptanceBudget : IntString;
  preRelayedCallGasLimit : IntString;
  postRelayedCallGasLimit : IntString
}.

Record EventData := {
  event : string;
  blockNumber : Z;
  transactionHash : PrefixedHexString
}.

(** The event name exported by the contract interactor. *)
Definition TransactionRejectedByPaymaster : string :=
  "TransactionRejectedByPaymaster".

Record Block := { number : Z; timestamp : Z }.

(** A contract method object, as built by
    [relayHubContract.contract.methods]. *)
Inductive Method :=
| relayCall (acceptanceBudget : JS.number) (req : RelayRequest.t)
    (signature approvalData : PrefixedHexString) (maxPossibleGas : Z)
| withdraw (amount : Z) (dest : address).

Module SendTransactionDetails.
Record t := mk {
  signer : address;
  serverAction : ServerAction;
  method : option Method;
  destination : address;
  value : option Z;
  gasLimit : Z;
  gasPrice : option IntString;
  creationBlockNumber : Z
}.
End SendTransactionDetails.

Record SignedTransactionDetails := {
  transactionHash_ : PrefixedHexString;
  signedTx : PrefixedHexString
}.

Record ViewRelayCallRet := {
  paymasterAccepted : bool;
  returnValue : string
}.

Record ServerConfigParams := {
  baseRelayFee : IntString;
  pctRelayFee : Z;
  gasPriceFactor : Q;
  registrationBlockRate : Z;
  workerMinBalance : Z;
  workerTargetBalance : Z;
  managerMinBalance : Z;
  managerTargetBalance : Z;
  minHubWithdrawalBalance : Z;
  checkInterval : Z;
  readyTimeout : Z;
  devMode : bool;
  maxAcceptanceBudget : Z;
  alertedBlockDelay : Z;
  minAlertedDelayMS : Z;
  maxAlertedDelayMS : Z;
  trustedPaymasters : list address;
  successfulRoundsForReady : Z;
  refreshStateTimeoutBlocks : Z
}.

(** Modelled from the spec: the class AmountRequired (section 4.7), whose
    file is not part of the server module: a required amount, the current
    one, and [isSatisfied := current >= required]. *)
Module AmountRequired.
Record t := mk {
  description : string;
  requiredValue : Z;
  currentValue : Z
}.
Definition isSatisfied (a : t) : bool := requiredValue a <=? currentValue a.
Definition set_currentValue (a : t) (v : Z) : t :=
  mk (description a) (requiredValue a) v.
End AmountRequired.

(** The fields of the class [RelayServer].  [relayHubContract], [chainId]
    and [networkId] are undefined until [init] assigns them;
    [registrationManager] records whether the manager object has been
    created. *)
Record RelayServer := {
  lastScannedBlock : Z;
  lastRefreshBlock : Z;
  ready : bool;
  lastSuccessfulRounds : Z;
  managerAddress : PrefixedHexString;
  workerAddress : PrefixedHexString;
  gasPrice : JS.number;
  _workerSemaphoreOn : bool;
  alerted : bool;
  alertedBlock : Z;
  initialized : bool;
  workerTask : bool;
  config : ServerConfigParams;
  lastMinedActiveTransaction : option EventData;
  registrationManager : bool;
  chainId : option Z;
  networkId : option Z;
  relayHubContract : option address;
  trustedPaymastersGasLimits : gmap string PaymasterGasLimits;
  workerBalanceRequired : AmountRequired.t
}.

(** Field assignments [this.f = v]: every other field is kept. *)
Definition set_lastScannedBlock (v : Z) (s : RelayServer) :
  RelayServer :=
  {| lastScannedBlock := v; lastRefreshBlock := lastRefreshBlock s;
     ready := ready s; lastSuccessfulRounds := lastSuccessfulRounds s;
     managerAddress := managerAddress s; workerAddress := workerAddress
     s; gasPrice := gasPrice s; _workerSemaphoreOn := _workerSemaphoreOn
     s; alerted := alerted s; alertedBlock := alertedBlock s;
     initialized := initialized s; workerTask := workerTask s; config :=
     config s; lastMinedActiveTransaction := lastMinedActiveTransaction
     s; registrationManager := registrationManager s; chainId := chainId
     s; networkId := networkId s; relayHubContract := relayHubContract
     s; trustedPaymastersGasLimits := trustedPaymastersGasLimits s;
     workerBalanceRequired := workerBalanceRequired s |}.
Definition set_lastRefreshBlock (v : Z) (s : RelayServer) :
  RelayServer :=
  {| lastScannedBlock := lastScannedBlock s; lastRefreshBlock := v;
     ready := ready s; lastSuccessfulRounds := lastSuccessfulRounds s;
     managerAddress := managerAddress s; workerAddress := workerAddress
     s; gasPrice := gasPrice s; _workerSemaphoreOn := _workerSemaphoreOn
     s; alerted := alerted s; alertedBlock := alertedBlock s;
     initialized := initialized s; workerTask := workerTask s; config :=
     config s; lastMinedActiveTransaction := lastMinedActiveTransaction
     s; registrationManager := registrationManager s; chainId := chainId
     s; networkId := networkId s; relayHubContract := relayHubContract
     s; trustedPaymastersGasLimits := trustedPaymastersGasLimits s;
     workerBalanceRequired := workerBalanceRequired s |}.
Definition set_ready (v : bool) (s : RelayServer) :
  RelayServer :=
  {| lastScannedBlock := lastScannedBlock s; lastRefreshBlock :=
     lastRefreshBlock s; ready := v; lastSuccessfulRounds :=
     lastSuccessfulRounds s; managerAddress := managerAddress s;
     workerAddress := workerAddress s; gasPrice := gasPrice s;
     _workerSemaphoreOn := _workerSemaphoreOn s; alerted := alerted s;
     alertedBlock := alertedBlock s; initialized := initialized s;
     workerTask := workerTask s; config := config s;
     lastMinedActiveTransaction := lastMinedActiveTransaction s;
     registrationManager := registrationManager s; chainId := chainId s;
     networkId := networkId s; relayHubContract := relayHubContract s;
     trustedPaymastersGasLimits := trustedPaymastersGasLimits s;
     workerBalanceRequired := workerBalanceRequired s |}.
Definition set_lastSuccessfulRounds (v : Z) (s : RelayServer) :
  RelayServer :=
  {| lastScannedBlock := lastScannedBlock s; lastRefreshBlock :=
     lastRefreshBlock s; ready := ready s; lastSuccessfulRounds := v;
     managerAddress := managerAddress s; workerAddress := workerAddress
     s; gasPrice := gasPrice s; _workerSemaphoreOn := _workerSemaphoreOn
     s; alerted := alerted s; alertedBlock := alertedBlock s;
     initialized := initialized s; workerTask := workerTask s; config :=
     config s; lastMinedActiveTransaction := lastMinedActiveTransaction
     s; registrationManager := registrationManager s; chainId := chainId
     s; networkId := networkId s; relayHubContract := relayHubContract
     s; trustedPaymastersGasLimits := trustedPaymastersGasLimits s;
     workerBalanceRequired := workerBalanceRequired s |}.
Definition set_gasPrice (v : JS.number) (s : RelayServer) :
  RelayServer :=
  {| lastScannedBlock := lastScannedBlock s; lastRefreshBlock :=
     lastRefreshBlock s; ready := ready s; lastSuccessfulRounds :=
     lastSuccessfulRounds s; managerAddress := managerAddress s;
     workerAddress := workerAddress s; gasPrice := v; _workerSemaphoreOn
     := _workerSemaphoreOn s; alerted := alerted s; alertedBlock :=
     alertedBlock s; initialized := initialized s; workerTask :=
     workerTask s; config := config s; lastMinedActiveTransaction :=
     lastMinedActiveTransaction s; registrationManager :=
     registrationManager s; chainId := chainId s; networkId := networkId
     s; relayHubContract := relayHubContract s;
     trustedPaymastersGasLimits := trustedPaymastersGasLimits s;
     workerBalanceRequired := workerBalanceRequired s |}.
Definition set__workerSemaphoreOn (v : bool) (s : RelayServer) :
  RelayServer :=
  {| lastScannedBlock := lastScannedBlock s; lastRefreshBlock :=
     lastRefreshBlock s; ready := ready s; lastSuccessfulRounds :=
     lastSuccessfulRounds s; managerAddress := managerAddress s;
     workerAddress := workerAddress s; gasPrice := gasPrice s;
     _workerSemaphoreOn := v; alerted := alerted s; alertedBlock :=
     alertedBlock s; initialized := initialized s; workerTask :=
     workerTask s; config := config s; lastMinedActiveTransaction :=
     lastMinedActiveTransaction s; registrationManager :=
     registrationManager s; chainId := chainId s; networkId := networkId
     s; relayHubContract := relayHubContract s;
     trustedPaymastersGasLimits := trustedPaymastersGasLimits s;
     workerBalanceRequired := workerBalanceRequired s |}.
Definition set_alerted (v : bool) (s : RelayServer) :
  RelayServer :=
  {| lastScannedBlock := lastScannedBlock s; lastRefreshBlock :=
     lastRefreshBlock s; ready := ready s; lastSuccessfulRounds :=
     lastSuccessfulRounds s; managerAddress := managerAddress s;
     workerAddress := workerAddress s; gasPrice := gasPrice s;
     _workerSemaphoreOn := _workerSemaphoreOn s; alerted := v;
     alertedBlock := alertedBlock s; initialized := initialized s;
     workerTask := workerTask s; config := config s;
     lastMinedActiveTransaction := lastMinedActiveTransaction s;
     registrationManager := registrationManager s; chainId := chainId s;
     networkId := networkId s; relayHubContract := relayHubContract s;
     trustedPaymastersGasLimits := trustedPaymastersGasLimits s;
     workerBalanceRequired := workerBalanceRequired s |}.
Definition set_alertedBlock (v : Z) (s : RelayServer) :
  RelayServer :=
  {| lastScannedBlock := lastScannedBlock s; lastRefreshBlock :=
     lastRefreshBlock s; ready := ready s; lastSuccessfulRounds :=
     lastSuccessfulRounds s; managerAddress := managerAddress s;
     workerAddress := workerAddress s; gasPrice := gasPrice s;
     _workerSemaphoreOn := _workerSemaphoreOn s; alerted := alerted s;
     alertedBlock := v; initialized := initialized s; workerTask :=
     workerTask s; config := config s; lastMinedActiveTransaction :=
     lastMinedActiveTransaction s; registrationManager :=
     registrationManager s; chainId := chainId s; networkId := networkId
     s; relayHubContract := relayHubContract s;
     trustedPaymastersGasLimits := trustedPaymastersGasLimits s;
     workerBalanceRequired := workerBalanceRequired s |}.
Definition set_initialized (v : bool) (s : RelayServer) :
  RelayServer :=
  {| lastScannedBlock := lastScannedBlock s; lastRefreshBlock :=
     lastRefreshBlock s; ready := ready s; lastSuccessfulRounds :=
     lastSuccessfulRounds s; managerAddress := managerAddress s;
     workerAddress := workerAddress s; gasPrice := gasPrice s;
     _workerSemaphoreOn := _workerSemaphoreOn s; alerted := alerted s;
     alertedBlock := alertedBlock s; initialized := v; workerTask :=
     workerTask s; config := config s; lastMinedActiveTransaction :=
     lastMinedActiveTransaction s; registrationManager :=
     registrationManager s; chainId := chainId s; networkId := networkId
     s; relayHubContract := relayHubContract s;
     trustedPaymastersGasLimits := trustedPaymastersGasLimits s;
     workerBalanceRequired := workerBalanceRequired s |}.
Definition set_workerTask (v : bool) (s : RelayServer) :
  RelayServer :=
  {| lastScannedBlock := lastScannedBlock s; lastRefreshBlock :=
     lastRefreshBlock s; ready := ready s; lastSuccessfulRounds :=
     lastSuccessfulRounds s; managerAddress := managerAddress s;
     workerAddress := workerAddress s; gasPrice := gasPrice s;
     _workerSemaphoreOn := _workerSemaphoreOn s; alerted := alerted s;
     alertedBlock := alertedBlock s; initialized := initialized s; workerTask :=
     v; config := config s; lastMinedActiveTransaction :=
     lastMinedActiveTransaction s; registrationManager :=
     registrationManager s; chainId := chainId s; networkId := networkId
     s; relayHubContract := relayHubContract s;
     trustedPaymastersGasLimits := trustedPaymastersGasLimits s;
     workerBalanceRequired := workerBalanceRequired s |}.
Definition set_lastMinedActiveTransaction (v : option EventData) (s : RelayServer) :
  RelayServer :=
  {| lastScannedBlock := lastScannedBlock s; lastRefreshBlock :=
     lastRefreshBlock s; ready := ready s; lastSuccessfulRounds :=
     lastSuccessfulRounds s; managerAddress := managerAddress s;
     workerAddress := workerAddress s; gasPrice := gasPrice s;
     _workerSemaphoreOn := _workerSemaphoreOn s; alerted := alerted s;
     alertedBlock := alertedBlock s; initialized := initialized s;
     workerTask := workerTask s; config := config s;
     lastMinedActiveTransaction := v; registrationManager :=
     registrationManager s; chainId := chainId s; networkId := networkId
     s; relayHubContract := relayHubContract s;
     trustedPaymastersGasLimits := trustedPaymastersGasLimits s;
     workerBalanceRequired := workerBalanceRequired s |}.
Definition set_registrationManager (v : bool) (s : RelayServer) :
  RelayServer :=
  {| lastScannedBlock := lastScannedBlock s; lastRefreshBlock :=
     lastRefreshBlock s; ready := ready s; lastSuccessfulRounds :=
     lastSuccessfulRounds s; managerAddress := managerAddress s;
     workerAddress := workerAddress s; gasPrice := gasPrice s;
     _workerSemaphoreOn := _workerSemaphoreOn s; alerted := alerted s;
     alertedBlock := alertedBlock s; initialized := initialized s;
     workerTask := workerTask s; config := config s;
     lastMinedActiveTransaction := lastMinedActiveTransaction s;
     registrationManager := v; chainId := chainId s; networkId :=
     networkId s; relayHubContract := relayHubContract s;
     trustedPaymastersGasLimits := trustedPaymastersGasLimits s;
     workerBalanceRequired := workerBalanceRequired s |}.
Definition set_chainId (v : option Z) (s : RelayServer) :
  RelayServer :=
  {| lastScannedBlock := lastScannedBlock s; lastRefreshBlock :=
     lastRefreshBlock s; ready := ready s; lastSuccessfulRounds :=
     lastSuccessfulRounds s; managerAddress := managerAddress s;
     workerAddress := workerAddress s; gasPrice := gasPrice s;
     _workerSemaphoreOn := _workerSemaphoreOn s; alerted := alerted s;
     alertedBlock := alertedBlock s; initialized := initialized s;
     workerTask := workerTask s; config := config s;
     lastMinedActiveTransaction := lastMinedActiveTransaction s;
     registrationManager := registrationManager s; chainId := v;
     networkId := networkId s; relayHubContract := relayHubContract s;
     trustedPaymastersGasLimits := trustedPaymastersGasLimits s;
     workerBalanceRequired := workerBalanceRequired s |}.
Definition set_networkId (v : option Z) (s : RelayServer) :
  RelayServer :=
  {| lastScannedBlock := lastScannedBlock s; lastRefreshBlock :=
     lastRefreshBlock s; ready := ready s; lastSuccessfulRounds :=
     lastSuccessfulRounds s; managerAddress := managerAddress s;
     workerAddress := workerAddress s; gasPrice := gasPrice s;
     _workerSemaphoreOn := _workerSemaphoreOn s; alerted := alerted s;
     alertedBlock := alertedBlock s; initialized := initialized s;
     workerTask := workerTask s; config := config s;
     lastMinedActiveTransaction := lastMinedActiveTransaction s;
     registrationManager := registrationManager s; chainId := chainId s;
     networkId := v; relayHubContract := relayHubContract s;
     trustedPaymastersGasLimits := trustedPaymastersGasLimits s;
     workerBalanceRequired := workerBalanceRequired s |}.
Definition set_relayHubContract (v : option address) (s : RelayServer) :
  RelayServer :=
  {| lastScannedBlock := lastScannedBlock s; lastRefreshBlock :=
     lastRefreshBlock s; ready := ready s; lastSuccessfulRounds :=
     lastSuccessfulRounds s; managerAddress := managerAddress s;
     workerAddress := workerAddress s; gasPrice := gasPrice s;
     _workerSemaphoreOn := _workerSemaphoreOn s; alerted := alerted s;
     alertedBlock := alertedBlock s; initialized := initialized s;
     workerTask := workerTask s; config := config s;
     lastMinedActiveTransaction := lastMinedActiveTransaction s;
     registrationManager := registrationManager s; chainId := chainId s;
     networkId := networkId s; relayHubContract := v;
     trustedPaymastersGasLimits := trustedPaymastersGasLimits s;
     workerBalanceRequired := workerBalanceRequired s |}.
Definition set_trustedPaymastersGasLimits (v : gmap string PaymasterGasLimits) (s : RelayServer) :
  RelayServer :=
  {| lastScannedBlock := lastScannedBlock s; lastRefreshBlock :=
     lastRefreshBlock s; ready := ready s; lastSuccessfulRounds :=
     lastSuccessfulRounds s; managerAddress := managerAddress s;
     workerAddress := workerAddress s; gasPrice := gasPrice s;
     _workerSemaphoreOn := _workerSemaphoreOn s; alerted := alerted s;
     alertedBlock := alertedBlock s; initialized := initialized s;
     workerTask := workerTask s; config := config s;
     lastMinedActiveTransaction := lastMinedActiveTransaction s;
     registrationManager := registrationManager s; chainId := chainId s;
     networkId := networkId s; relayHubContract := relayHubContract s;
     trustedPaymastersGasLimits := v; workerBalanceRequired :=
     workerBalanceRequired s |}.
Definition set_workerBalanceRequired (v : AmountRequired.t) (s : RelayServer) :
  RelayServer :=
  {| lastScannedBlock := lastScannedBlock s; lastRefreshBlock :=
     lastRefreshBlock s; ready := ready s; lastSuccessfulRounds :=
     lastSuccessfulRounds s; managerAddress := managerAddress s;
     workerAddress := workerAddress s; gasPrice := gasPrice s;
     _workerSemaphoreOn := _workerSemaphoreOn s; alerted := alerted s;
     alertedBlock := alertedBlock s; initialized := initialized s;
     workerTask := workerTask s; config := config s;
     lastMinedActiveTransaction := lastMinedActiveTransaction s;
     registrationManager := registrationManager s; chainId := chainId s;
     networkId := networkId s; relayHubContract := relayHubContract s;
     trustedPaymastersGasLimits := trustedPaymastersGasLimits s;
     workerBalanceRequired := v |}.

(** ** Effects

    What a method does besides reading and writing the fields: it writes
    to the logger, emits events and sets timers (synchronous outputs), and
    it awaits calls on its collaborators, which suspend it until the call
    resolves or rejects. *)

Inductive LogLevel := debug | info | warn | error.

(** A timer callback: a synchronous closure over [this]. *)
Definition Callback := RelayServer → list (LogLevel * string) * RelayServer.

Inductive output :=
| log (level : LogLevel) (message : string)
| emit (eventName : string) (arg : string)
| setTimeout (callback : Callback) (delay : Z)
| clearTimeout
| setInterval (delay : Z)
| clearInterval.

(** The awaited calls, by collaborator, indexed by the type of the value
    they resolve to. *)
Inductive extcall : Type → Type :=
(* contractInteractor *)
| getBlock_latest : extcall Block
| getBlockNumber : extcall Z
| getBalance (a : address) : extcall Z
| getGasPrice : extcall string
| getCode (a : address) : extcall string
| getChainId : extcall Z
| getNetworkId : extcall Z
| getPastEventsForHub (topics : list string) (fromBlock : Z)
    (toBlock : option string) : extcall (list EventData)
| relayHubInstance : extcall address
| _createPaymaster (a : address) : extcall unit
| paymaster_getGasLimits (a : address) : extcall PaymasterGasLimits
(* relayHubContract *)
| hub_gasOverhead : extcall Z
| hub_calculateCharge (gas : Z) (rd : RelayData.t) : extcall Z
| hub_balanceOf (a : address) : extcall Z
| method_call (m : Method) (from_ : address) (gasPrice : IntString)
    (gasLimit : Z) : extcall ViewRelayCallRet
(* transactionManager *)
| transactionManager_init : extcall unit
| pollNonce (signer : address) : extcall Z
| sendTransaction (details : SendTransactionDetails.t)
  : extcall SignedTransactionDetails
| attemptEstimateGas (name : string) (m : Method) (from_ : address)
  : extcall Z
| removeConfirmedTransactions (blockNumber : Z) : extcall unit
| boostOldestPendingTransactionForSigner (signer : address)
    (blockNumber : Z) : extcall (option PrefixedHexString)
(* txStoreManager *)
| isActionPending (action : ServerAction) (destination : option address)
  : extcall bool
(* registrationManager; [refreshBalance] answers the
   [balanceRequired.isSatisfied] its caller reads next *)
| registrationManager_init : extcall unit
| refreshBalance : extcall bool
| handlePastEvents (events : list EventData) (lastScannedBlock : Z)
    (currentBlock : Z) (forceRegistration : bool)
  : extcall (list PrefixedHexString)
| isRegistered : extcall bool
(* [sleep(randomInRange(min, max))] *)
| sleep_randomInRange (min max : Z) : extcall unit.

Inductive reply (X : Type) :=
| Resolved (x : X)
| Rejected (message : string).
Arguments Resolved {X} x.
Arguments Rejected {X} message.

(** How a call of a method ends: it returns, it throws [new Error(message)],
    or the process exits. *)
Inductive result (A : Type) :=
| Ok (a : A)
| Throw (message : string)
| Exit (code : Z).
Arguments Ok {A} a.
Arguments Throw {A} message.
Arguments Exit {A} code.

(** A method call in progress.  At [Await] the method is suspended with
    the fields as they are; it resumes with the reply and with the fields
    as they are then (a timer callback may have run meanwhile). *)
Inductive Prog (A : Type) : Type :=
| Ret (s : RelayServer) (r : result A)
| Out (o : output) (p : Prog A)
| Await {X : Type} (s : RelayServer) (c : extcall X)
    (k : reply X → RelayServer → Prog A).
Arguments Ret {A} s r.
Arguments Out {A} o p.
Arguments Await {A X} s c k.

Definition M (A : Type) : Type := RelayServer → Prog A.

Fixpoint bindP {A B : Type} (p : Prog A) (f : A → M B) : Prog B :=
  match p with
  | Ret s (Ok a) => f a s
  | Ret s (Throw m) => Ret s (Throw m)
  | Ret s (Exit c) => Ret s (Exit c)
  | Out o p' => Out o (bindP p' f)
  | Await s c k => Await s c (λ r s', bindP (k r s') f)
  end.

(** [try { p } catch (e) { h(e.message) }] *)
Fixpoint catchP {A : Type} (p : Prog A) (h : string → M A) : Prog A :=
  match p with
  | Ret s (Throw m) => h m s
  | Ret s r => Ret s r
  | Out o p' => Out o (catchP p' h)
  | Await s c k => Await s c (λ r s', catchP (k r s') h)
  end.

(** [p.finally(f)]: [f] runs however [p] settles; the outcome is that of
    [p] unless [f] itself throws. *)
Fixpoint finallyP {A : Type} (p : Prog A) (f : M unit) : Prog A :=
  match p with
  | Ret s (Exit c) => Ret s (Exit c)
  | Ret s r => bindP (f s) (λ _ s', Ret s' r)
  | Out o p' => Out o (finallyP p' f)
  | Await s c k => Await s c (λ r s', finallyP (k r s') f)
  end.

#[export] Instance M_ret : MRet M := λ A a s, Ret s (Ok a).
#[export] Instance M_bind : MBind M := λ A B f m s, bindP (m s) f.

Definition throw {A : Type} (message : string) : M A :=
  λ s, Ret s (Throw message).
Definition exit {A : Type} (code : Z) : M A := λ s, Ret s (Exit code).
Definition try_catch {A : Type} (m : M A) (h : string → M A) : M A :=
  λ s, catchP (m s) h.
Definition finally {A : Type} (m : M A) (f : M unit) : M A :=
  λ s, finallyP (m s) f.

(** [this.f] and [this.f = v]. *)
Definition read {A : Type} (f : RelayServer → A) : M A := λ s, Ret s (Ok (f s)).
Definition assign (f : RelayServer → RelayServer) : M unit :=
  λ s, Ret (f s) (Ok tt).

Definition out (o : output) : M unit := λ s, Out o (Ret s (Ok tt)).
Definition await {X : Type} (c : extcall X) : M X :=
  λ s, Await s c (λ r s',
    match r with
    | Resolved x => Ret s' (Ok x)
    | Rejected m => Ret s' (Throw m)
    end).

Definition when (b : bool) (m : M unit) : M unit := if b then m else mret tt.

(** ** Runs

    The collaborators and the clock are a state machine [W]: it replies to
    each awaited call, and tells after each call whether the delay of the
    pending timer has elapsed. *)

Class Collaborators (W : Type) := {
  respond : ∀ X : Type, extcall X → W → reply X * W;
  timedOut : W → bool
}.
Arguments respond {W _ X} c w.

Inductive step :=
| Called {X : Type} (c : extcall X) (r : reply X)
| Output (o : output)
| TimerFired (s : RelayServer).

Record Outcome (W A : Type) := {
  trace : list step;
  final : RelayServer;
  outcome : result A;
  world : W;
  timer : option Callback
}.
Arguments trace {W A} o.
Arguments final {W A} o.
Arguments outcome {W A} o.
Arguments world {W A} o.
Arguments timer {W A} o.

Definition before {W A : Type} (l : list step) (o : Outcome W A) :
  Outcome W A :=
  {| trace := l ++ trace o; final := final o; outcome := outcome o;
     world := world o; timer := timer o |}.

Definition timer_after (o : output) (t : option Callback) : option Callback :=
  match o with
  | setTimeout cb _ => Some cb
  | clearTimeout => None
  | _ => t
  end.

(** One run of a method: outputs are recorded; an awaited call is put to
    the collaborators, and if the pending timer has expired by the time
    the call settles its callback runs on the fields before the method
    resumes ([TimerFired] records the fields it leaves). *)
Fixpoint run `{Collaborators W} {A : Type} (p : Prog A) (w : W)
    (t : option Callback) : Outcome W A :=
  match p with
  | Ret s r =>
      {| trace := []; final := s; outcome := r; world := w; timer := t |}
  | Out o p' => before [Output o] (run p' w (timer_after o t))
  | Await s c k =>
      let '(r, w') := respond c w in
      match t with
      | Some cb =>
          if timedOut w'
          then before (Called c r :: TimerFired (cb s).2
                         :: map (λ l, Output (log l.1 l.2)) (cb s).1)
                      (run (k r (cb s).2) w' None)
          else before [Called c r] (run (k r s) w' t)
      | None => before [Called c r] (run (k r s) w' None)
      end
  end.

(** ** The server *)

(** Helpers the server imports from modules that are not part of it
    ([toBN] of web3-utils, which reads a string as a big number or throws,
    here [None]; common/Utils; the request shape checked with [ow];
    [JSON.stringify]; [defaultEnvironment.mintxgascost]): the server's code
    is independent of what they compute. *)
Class Utils := {
  toBN : string → option Z;
  address2topic : address → string;
  calculateTransactionMaxPossibleGas :
    PaymasterGasLimits → Z → IntString → Z;
  decodeRevertReason : string → string;
  getLatestEventData : list EventData → option EventData;
  matchesShape : RelayTransactionRequest → bool;
  JSON_stringify : ∀ A : Type, A → string;
  mintxgascost : Z
}.
Arguments JSON_stringify {_ A} a.

Definition GAS_RESERVE : Z := 100000.

Definition nl : string := String (ascii_of_nat 10) EmptyString.

Definition show (n : JS.number) : string :=
  match n with Some z => pretty z | None => "NaN" end.

Fixpoint for_each {A : Type} (l : list A) (body : A → M unit) : M unit :=
  match l with
  | [] => mret tt
  | x :: l' => body x;; for_each l' body
  end.

(** The fields after the constructor has run, for a resolved
    configuration and the two addresses taken from the key managers. *)
Definition RelayServer_new (cfg : ServerConfigParams)
    (manager worker : PrefixedHexString) : RelayServer :=
  {| lastScannedBlock := 0;
     lastRefreshBlock := 0;
     ready := false;
     lastSuccessfulRounds := JS.MAX_SAFE_INTEGER;
     managerAddress := manager;
     workerAddress := worker;
     gasPrice := Some 0;
     _workerSemaphoreOn := false;
     alerted := false;
     alertedBlock := 0;
     initialized := false;
     workerTask := false;
     config := cfg;
     lastMinedActiveTransaction := None;
     registrationManager := false;
     chainId := None;
     networkId := None;
     relayHubContract := None;
     trustedPaymastersGasLimits := ∅;
     workerBalanceRequired :=
       AmountRequired.mk "Worker Balance" (workerMinBalance cfg) 0 |}.

Definition isReady (this : RelayServer) : bool :=
  if lastSuccessfulRounds this <? successfulRoundsForReady (config this)
  then false
  else ready this.

Definition _isTrustedPaymaster (this : RelayServer) (paymaster : string) :
  bool :=
  bool_decide
    (is_Some (trustedPaymastersGasLimits this !! JS.toLocaleLowerCase paymaster)).

Definition _shouldRefreshState (this : RelayServer) (currentBlock : Z) : bool :=
  (refreshStateTimeoutBlocks (config this)
     <=? currentBlock - lastRefreshBlock this)
  || negb (isReady this).

(** The body of the watchdog set by [intervalHandler]. *)
Definition workerTimeout : Callback :=
  λ this, ([(warn, "Relay state: Timed-out")],
           set_lastSuccessfulRounds 0 this).

Section Server.
Context `{Utils}.

Definition getMinGasPrice : M JS.number := read gasPrice.

(** [this.relayHubContract], whose members are read: a [TypeError] while
    it is undefined. *)
Definition the_relayHubContract : M address :=
  hub ← read relayHubContract;
  match hub with
  | Some a => mret a
  | None => throw "TypeError: Cannot read properties of undefined"
  end.

Definition setReadyState (isReady_ : bool) : M unit :=
  this ← read id;
  when (negb (eqb (isReady this) isReady_))
    (if isReady_
     then
       if lastSuccessfulRounds this <? successfulRoundsForReady (config this)
       then
         let roundsUntilReady :=
           successfulRoundsForReady (config this) - lastSuccessfulRounds this in
         out (log warn ("Relayer state: almost READY (in "
                        +:+ pretty roundsUntilReady +:+ " rounds)"))
       else out (log warn "Relayer state: READY")
     else out (log warn "Relayer state: NOT-READY"));;
  assign (set_ready isReady_).

Definition validateInputTypes (req : RelayTransactionRequest) : M unit :=
  if matchesShape req then mret tt
  else throw "ArgumentError: Expected object to match the request shape".

Definition validateInput (req : RelayTransactionRequest) : M unit :=
  let relayData := RelayRequest.relayData (relayRequest req) in
  (* Check that the relayHub is the correct one *)
  hub ← the_relayHubContract;
  (if negb (RelayMetadata.relayHubAddress (metadata req) =? hub)%string
   then throw ("Wrong hub address." +:+ nl
               +:+ "Relay server's hub address: " +:+ hub
               +:+ ", request's hub address: "
               +:+ RelayMetadata.relayHubAddress (metadata req) +:+ nl)
   else mret tt);;
  (* Check the relayWorker *)
  worker ← read workerAddress;
  (if negb (JS.toLowerCase (RelayData.relayWorker relayData)
            =? JS.toLowerCase worker)%string
   then throw ("Wrong worker address: "
               +:+ RelayData.relayWorker relayData +:+ nl)
   else mret tt);;
  (* Check that the gasPrice is initialized & acceptable *)
  gasPrice_ ← read gasPrice;
  if JS.gt gasPrice_ (JS.parseInt (RelayData.gasPrice relayData))
  then throw ("Unacceptable gasPrice: relayServer's gasPrice:"
              +:+ show gasPrice_ +:+ " request's gasPrice: "
              +:+ RelayData.gasPrice relayData)
  else mret tt.

Definition validateFees (req : RelayTransactionRequest) : M unit :=
  let relayData := RelayRequest.relayData (relayRequest req) in
  this ← read id;
  (* if trusted paymaster, we trust it to handle fees *)
  if _isTrustedPaymaster this (RelayData.paymaster relayData) then mret tt
  else
    (* Check that the fee is acceptable *)
    (if JS.lt (JS.parseInt (RelayData.pctRelayFee relayData))
              (Some (pctRelayFee (config this)))
     then throw ("Unacceptable pctRelayFee: "
                 +:+ RelayData.pctRelayFee relayData
                 +:+ " relayServer's pctRelayFee: "
                 +:+ pretty (pctRelayFee (config this)))
     else mret tt);;
    match toBN (RelayData.baseRelayFee relayData) with
    | None => throw "Error: [number-to-bn] invalid number value"
    | Some fee =>
        match toBN (baseRelayFee (config this)) with
        | None => throw "Error: [number-to-bn] invalid number value"
        | Some minFee =>
            if fee <? minFee
            then throw ("Unacceptable baseRelayFee: "
                        +:+ RelayData.baseRelayFee relayData
                        +:+ " relayServer's baseRelayFee: "
                        +:+ baseRelayFee (config this))
            else mret tt
        end
    end.

Definition validateMaxNonce (relayMaxNonce : Z) : M unit :=
  (* Check that max nonce is valid *)
  worker ← read workerAddress;
  nonce ← await (pollNonce worker);
  if relayMaxNonce <? nonce
  then throw ("Unacceptable relayMaxNonce: " +:+ pretty relayMaxNonce
              +:+ ". current nonce: " +:+ pretty nonce)
  else mret tt.

Definition validatePaymasterGasLimits (req : RelayTransactionRequest) :
  M (JS.number * Z) :=
  let relayData := RelayRequest.relayData (relayRequest req) in
  let paymaster := RelayData.paymaster relayData in
  cached ← read (λ this, trustedPaymastersGasLimits this !! paymaster);
  '(gasLimits, acceptanceBudget_) ←
    match cached with
    | None =>
        gasLimits ←
          try_catch
            (await (_createPaymaster paymaster);;
             await (paymaster_getGasLimits paymaster))
            (λ message,
               throw
                 (if JS.includes message
                       "Returned values aren't valid, did it run Out of Gas?"
                  then "not a valid paymaster contract: " +:+ paymaster
                  else if JS.includes message "no code at address"
                  then "'non-existent paymaster contract: " +:+ paymaster
                  else "unknown paymaster error: " +:+ message));
        this ← read id;
        let paymasterAcceptanceBudget :=
          JS.parseInt (acceptanceBudget gasLimits) in
        if JS.gt paymasterAcceptanceBudget
                 (Some (maxAcceptanceBudget (config this)))
        then
          (if negb (_isTrustedPaymaster this paymaster)
           then throw ("paymaster acceptance budget too high. given: "
                       +:+ show paymasterAcceptanceBudget
                       +:+ " max allowed: "
                       +:+ pretty (maxAcceptanceBudget (config this)))
           else mret tt);;
          out (log debug
                 ("Using trusted paymaster's higher than max acceptance budget: "
                  +:+ show paymasterAcceptanceBudget));;
          mret (gasLimits, paymasterAcceptanceBudget)
        else mret (gasLimits, Some (maxAcceptanceBudget (config this)))
    | Some gasLimits =>
        (* its a trusted paymaster. just use its acceptance budget as-is *)
        mret (gasLimits, JS.parseInt (acceptanceBudget gasLimits))
    end;
  the_relayHubContract;;
  hubOverhead ← await hub_gasOverhead;
  let maxPossibleGas :=
    GAS_RESERVE
    + calculateTransactionMaxPossibleGas gasLimits hubOverhead
        (ForwardRequest.gas (RelayRequest.request (relayRequest req))) in
  maxCharge ← await (hub_calculateCharge maxPossibleGas relayData);
  paymasterBalance ← await (hub_balanceOf paymaster);
  (if paymasterBalance <? maxCharge
   then throw ("paymaster balance too low: " +:+ pretty paymasterBalance
               +:+ ", maxCharge: " +:+ pretty maxCharge)
   else mret tt);;
  out (log debug ("paymaster balance: " +:+ pretty paymasterBalance
                  +:+ ", maxCharge: " +:+ pretty maxCharge));;
  out (log debug ("Estimated max charge of relayed tx: " +:+ pretty maxCharge
                  +:+ ", GasLimit of relayed tx: " +:+ pretty maxPossibleGas));;
  mret (acceptanceBudget_, maxPossibleGas).

Definition validateViewCallSucceeds (req : RelayTransactionRequest)
    (acceptanceBudget_ : JS.number) (maxPossibleGas : Z) : M unit :=
  the_relayHubContract;;
  let method :=
    relayCall acceptanceBudget_ (relayRequest req)
      (RelayMetadata.signature (metadata req))
      (RelayMetadata.approvalData (metadata req)) maxPossibleGas in
  worker ← read workerAddress;
  viewRelayCallRet ←
    try_catch
      (await (method_call method worker
                (RelayData.gasPrice (RelayRequest.relayData (relayRequest req)))
                maxPossibleGas))
      (λ message, throw ("relayCall reverted in server: " +:+ message));
  out (log debug ("Result for view-only relay call:" +:+ nl
                  +:+ "paymasterAccepted  | "
                  +:+ (if paymasterAccepted viewRelayCallRet
                       then "true" else "false") +:+ nl
                  +:+ "returnValue        | "
                  +:+ returnValue viewRelayCallRet +:+ nl));;
  if negb (paymasterAccepted viewRelayCallRet)
  then throw ("Paymaster rejected in server: "
              +:+ decodeRevertReason (returnValue viewRelayCallRet)
              +:+ " req=" +:+ JSON_stringify req)
  else mret tt.

Definition getManagerBalance : M Z :=
  manager ← read managerAddress; await (getBalance manager).

Definition getWorkerBalance (workerIndex : Z) : M Z :=
  worker ← read workerAddress; await (getBalance worker).

(** Modelled from the spec: the setter [currentValue] of AmountRequired
    (section 4.7), applied to [this.workerBalanceRequired]: one warn-level
    line on the transition to unsatisfied, one info-level line on the
    return to satisfied. *)
Definition set_workerBalance (v : Z) : M unit :=
  old ← read workerBalanceRequired;
  let new := AmountRequired.set_currentValue old v in
  assign (set_workerBalanceRequired new);;
  if AmountRequired.isSatisfied old && negb (AmountRequired.isSatisfied new)
  then out (log warn (AmountRequired.description new +:+ " requirement is not satisfied"))
  else if negb (AmountRequired.isSatisfied old) && AmountRequired.isSatisfied new
  then out (log info (AmountRequired.description new +:+ " requirement is satisfied"))
  else mret tt.

(** The second half of [replenishServer] (from the second reading of the
    manager's balance to the return), entered with the hashes pushed so
    far: the replenishment of the worker. *)
Definition replenishServer_worker (currentBlock : Z) (managerHubBalance : Z)
    (transactionHashes : list PrefixedHexString) :
  M (list PrefixedHexString) :=
  managerEthBalance ← getManagerBalance;
  mustReplenishWorker ←
    read (λ this, negb (AmountRequired.isSatisfied
                          (workerBalanceRequired this)));
  worker ← read workerAddress;
  isReplenishPendingForWorker ←
    await (isActionPending VALUE_TRANSFER (Some worker));
  if mustReplenishWorker && negb isReplenishPendingForWorker
  then
    this ← read id;
    let refill :=
      workerTargetBalance (config this)
      - AmountRequired.currentValue (workerBalanceRequired this) in
    out (log debug
           ("== replenishServer: mgr balance="
            +:+ pretty managerEthBalance
            +:+ "  manager hub balance=" +:+ pretty managerHubBalance
            +:+ nl +:+ AmountRequired.description
                         (workerBalanceRequired this)
            +:+ nl +:+ " refill=" +:+ pretty refill));;
    if refill <? managerEthBalance - managerMinBalance (config this)
    then
      out (log debug "Replenishing worker balance by manager eth balance");;
      let details :=
        {| SendTransactionDetails.signer := managerAddress this;
           SendTransactionDetails.serverAction := VALUE_TRANSFER;
           SendTransactionDetails.destination := workerAddress this;
           SendTransactionDetails.value := Some refill;
           SendTransactionDetails.creationBlockNumber := currentBlock;
           SendTransactionDetails.gasLimit := mintxgascost;
           SendTransactionDetails.method := None;
           SendTransactionDetails.gasPrice := None |} in
      tx ← await (sendTransaction details);
      mret (transactionHashes ++ [transactionHash_ tx])
    else
      let message :=
        "== replenishServer: can't replenish: mgr balance too low "
        +:+ pretty managerEthBalance +:+ " refill=" +:+ pretty refill in
      out (emit "fundingNeeded" message);;
      out (log error message);;
      mret transactionHashes
  else mret transactionHashes.

Definition replenishServer (workerIndex : Z) (currentBlock : Z) :
  M (list PrefixedHexString) :=
  managerEthBalance ← getManagerBalance;
  the_relayHubContract;;
  manager ← read managerAddress;
  managerHubBalance ← await (hub_balanceOf manager);
  workerBalance ← getWorkerBalance workerIndex;
  set_workerBalance workerBalance;;
  this ← read id;
  if (managerTargetBalance (config this) <=? managerEthBalance)
     && AmountRequired.isSatisfied (workerBalanceRequired this)
  then
    (* all filled, nothing to do *)
    mret []
  else
    let mustWithdrawHubDeposit :=
      (managerEthBalance <? managerTargetBalance (config this))
      && (minHubWithdrawalBalance (config this) <=? managerHubBalance) in
    isWithdrawalPending ← await (isActionPending DEPOSIT_WITHDRAWAL None);
    transactionHashes ←
      (if mustWithdrawHubDeposit && negb isWithdrawalPending
       then
         out (log info ("withdrawing manager hub balance ("
                        +:+ pretty managerHubBalance +:+ ") to manager"));;
         (* Refill manager eth balance from hub balance *)
         this ← read id;
         let method := withdraw managerHubBalance (managerAddress this) in
         gasLimit ← await (attemptEstimateGas "Withdraw" method
                             (managerAddress this));
         hub ← the_relayHubContract;
         this ← read id;
         let details :=
           {| SendTransactionDetails.signer := managerAddress this;
              SendTransactionDetails.serverAction := DEPOSIT_WITHDRAWAL;
              SendTransactionDetails.destination := hub;
              SendTransactionDetails.creationBlockNumber := currentBlock;
              SendTransactionDetails.gasLimit := gasLimit;
              SendTransactionDetails.method := Some method;
              SendTransactionDetails.value := None;
              SendTransactionDetails.gasPrice := None |} in
         tx ← await (sendTransaction details);
         mret [transactionHash_ tx]
       else mret []);
    replenishServer_worker currentBlock managerHubBalance transactionHashes.

Definition createRelayTransaction (req : RelayTransactionRequest) :
  M PrefixedHexString :=
  out (log debug ("dump request params: " +:+ JSON_stringify req));;
  ready_ ← read isReady;
  (if negb ready_ then throw "relay not ready" else mret tt);;
  validateInputTypes req;;
  validateInput req;;
  validateFees req;;
  validateMaxNonce (RelayMetadata.relayMaxNonce (metadata req));;
  (* Call relayCall as a view function to see if we'll get paid for
     relaying this tx *)
  '(acceptanceBudget_, maxPossibleGas) ← validatePaymasterGasLimits req;
  validateViewCallSucceeds req acceptanceBudget_ maxPossibleGas;;
  (* Send relayed transaction *)
  out (log debug ("maxPossibleGas is: " +:+ pretty maxPossibleGas));;
  the_relayHubContract;;
  let method :=
    relayCall acceptanceBudget_ (relayRequest req)
      (RelayMetadata.signature (metadata req))
      (RelayMetadata.approvalData (metadata req)) maxPossibleGas in
  currentBlock ← await getBlockNumber;
  worker ← read workerAddress;
  let details :=
    {| SendTransactionDetails.signer := worker;
       SendTransactionDetails.serverAction := RELAY_CALL;
       SendTransactionDetails.method := Some method;
       SendTransactionDetails.destination :=
         RelayMetadata.relayHubAddress (metadata req);
       SendTransactionDetails.gasLimit := maxPossibleGas;
       SendTransactionDetails.creationBlockNumber := currentBlock;
       SendTransactionDetails.gasPrice :=
         Some (RelayData.gasPrice (RelayRequest.relayData (relayRequest req)));
       SendTransactionDetails.value := None |} in
  tx ← await (sendTransaction details);
  (* after sending a transaction is a good time to check the worker's
     balance, and replenish it. *)
  replenishServer 0 currentBlock;;
  this ← read id;
  when (alerted this)
    (out (log error "Alerted state: slowing down traffic");;
     await (sleep_randomInRange (minAlertedDelayMS (config this))
              (maxAlertedDelayMS (config this))));;
  mret (signedTx tx).

Definition fatal {A : Type} (message : string) : M A :=
  out (log error ("FATAL: " +:+ message));;
  exit 1.

(** initialize data from trusted paymasters. *)
Definition _initTrustedPaymasters (paymasters : list address) : M unit :=
  assign (set_trustedPaymastersGasLimits ∅);;
  for_each paymasters (λ paymasterAddress,
    await (_createPaymaster paymasterAddress);;
    gasLimits ←
      try_catch (await (paymaster_getGasLimits paymasterAddress))
        (λ message,
           throw ("not a valid paymaster address in trustedPaymasters list: "
                  +:+ paymasterAddress +:+ ": " +:+ message));
    assign (λ this,
      set_trustedPaymastersGasLimits
        (<[JS.toLowerCase paymasterAddress := gasLimits]>
           (trustedPaymastersGasLimits this)) this)).

Definition init : M unit :=
  initialized_ ← read initialized;
  (if (initialized_ : bool) then throw "_init was already called" else mret tt);;
  await transactionManager_init;;
  cfg ← read config;
  _initTrustedPaymasters (trustedPaymasters cfg);;
  hub ← await relayHubInstance;
  assign (set_relayHubContract (Some hub));;
  relayHubAddress ← the_relayHubContract;
  code ← await (getCode relayHubAddress);
  (if Z.of_nat (String.length code) <? 10
   then fatal ("No RelayHub deployed at address " +:+ relayHubAddress +:+ ".")
   else mret tt);;
  assign (set_registrationManager true);;
  await registrationManager_init;;
  chainId_ ← await getChainId;
  assign (set_chainId (Some chainId_));;
  networkId_ ← await getNetworkId;
  assign (set_networkId (Some networkId_));;
  this ← read id;
  (if devMode (config this)
      && (JS.lt (chainId this) (Some 1000) || JS.lt (networkId this) (Some 1000))
   then
     out (log error
            "Don't use real network's chainId & networkId while in devMode.");;
     exit (-1)
   else mret tt);;
  latestBlock ← await getBlock_latest;
  this ← read id;
  out (log info ("Current network info:" +:+ nl
                 +:+ "chainId                 | " +:+ show (chainId this) +:+ nl
                 +:+ "networkId               | " +:+ show (networkId this) +:+ nl
                 +:+ "latestBlock             | "
                 +:+ pretty (number latestBlock) +:+ nl
                 +:+ "latestBlock timestamp   | "
                 +:+ pretty (timestamp latestBlock) +:+ nl));;
  assign (set_initialized true);;
  (* Assume started server is not registered until _worker figures stuff
     out: registrationManager.printNotRegisteredMessage() *)
  out (log info "Relay state: not registered").

Definition _refreshGasPrice : M unit :=
  gasPriceString ← await getGasPrice;
  cfg ← read config;
  assign (set_gasPrice
            (JS.floor_mul (JS.parseInt gasPriceString) (gasPriceFactor cfg)));;
  gasPrice_ ← read gasPrice;
  match gasPrice_ with
  | Some 0 => throw "Could not get gasPrice from node"
  | _ => mret tt
  end.

Definition getAllHubEventsSinceLastScan : M (list EventData) :=
  this ← read id;
  let topics := [address2topic (managerAddress this)] in
  await (getPastEventsForHub topics (lastScannedBlock this + 1)
           (Some "latest")).

Definition _queryLatestActiveEvent : M (option EventData) :=
  manager ← read managerAddress;
  events ← await (getPastEventsForHub [address2topic manager] 1 None);
  mret (getLatestEventData events).

Definition _getLatestTxBlockNumber (eventsSinceLastScan : list EventData) :
  M Z :=
  let latestTransactionSinceLastScan :=
    getLatestEventData eventsSinceLastScan in
  match latestTransactionSinceLastScan with
  | Some e => assign (set_lastMinedActiveTransaction (Some e))
  | None => mret tt
  end;;
  last ← read lastMinedActiveTransaction;
  match last with
  | None =>
      queried ← _queryLatestActiveEvent;
      assign (set_lastMinedActiveTransaction queried)
  | Some _ => mret tt
  end;;
  last ← read lastMinedActiveTransaction;
  mret (match last with Some e => blockNumber e | None => -1 end).

Definition _shouldRegisterAgain (currentBlock : Z)
    (hubEventsSinceLastScan : list EventData) : M bool :=
  relayCallPending ← await (isActionPending RELAY_CALL None);
  isPendingActivityTransaction ←
    (if (relayCallPending : bool) then mret true
     else await (isActionPending REGISTER_SERVER None));
  cfg ← read config;
  if (registrationBlockRate cfg =? 0) || isPendingActivityTransaction
  then mret false
  else
    latestTxBlockNumber ← _getLatestTxBlockNumber hubEventsSinceLastScan;
    cfg ← read config;
    mret (registrationBlockRate cfg <=? currentBlock - latestTxBlockNumber).

Definition _handleTransactionRejectedByPaymasterEvent (blockNumber_ : Z) :
  M unit :=
  assign (set_alerted true);;
  assign (set_alertedBlock blockNumber_);;
  out (log error ("Relay entered alerted state. Block number: "
                  +:+ pretty blockNumber_)).

Definition handlePastHubEvents (blockNumber_ : Z)
    (hubEventsSinceLastScan : list EventData) : M unit :=
  for_each hubEventsSinceLastScan (λ event_,
    if (event event_ =? TransactionRejectedByPaymaster)%string
    then
      out (log debug ("handle TransactionRejectedByPaymaster event: "
                      +:+ JSON_stringify event_));;
      _handleTransactionRejectedByPaymasterEvent blockNumber_
    else mret tt).

Definition _boostStuckTransactionsForManager (blockNumber_ : Z) :
  M (option PrefixedHexString) :=
  manager ← read managerAddress;
  await (boostOldestPendingTransactionForSigner manager blockNumber_).

Definition _boostStuckTransactionsForWorker (blockNumber_ : Z)
    (workerIndex : Z) : M (option PrefixedHexString) :=
  signer ← read workerAddress;
  await (boostOldestPendingTransactionForSigner signer blockNumber_).

(** Resend the earliest pending transactions of all signers (manager,
    workers). *)
Definition _boostStuckPendingTransactions (blockNumber_ : Z) :
  M (list PrefixedHexString) :=
  (* repeat separately for each signer (manager, all workers) *)
  signedTx_ ← _boostStuckTransactionsForManager blockNumber_;
  let transactionHashes := option_list signedTx_ in
  signedTx_ ← _boostStuckTransactionsForWorker blockNumber_ 0;
  mret (transactionHashes ++ option_list signedTx_).

Definition _handleChanges (blockNumber_ : Z) : M (list PrefixedHexString) :=
  hubEventsSinceLastScan ← getAllHubEventsSinceLastScan;
  shouldRegisterAgain ←
    _shouldRegisterAgain blockNumber_ hubEventsSinceLastScan;
  lastScanned ← read lastScannedBlock;
  registered ← await (handlePastEvents hubEventsSinceLastScan lastScanned
                        blockNumber_ shouldRegisterAgain);
  let transactionHashes := registered in
  await (removeConfirmedTransactions blockNumber_);;
  _boostStuckPendingTransactions blockNumber_;;
  assign (set_lastScannedBlock blockNumber_);;
  isRegistered_ ← await isRegistered;
  if negb isRegistered_
  then setReadyState false;; mret transactionHashes
  else
    handlePastHubEvents blockNumber_ hubEventsSinceLastScan;;
    let workerIndex := 0 in
    replenished ← replenishServer workerIndex blockNumber_;
    let transactionHashes := transactionHashes ++ replenished in
    workerBalance ← getWorkerBalance workerIndex;
    cfg ← read config;
    if workerBalance <? workerMinBalance cfg
    then setReadyState false;; mret transactionHashes
    else
      setReadyState true;;
      this ← read id;
      when (alerted this
            && (alertedBlock this + alertedBlockDelay (config this)
                <? blockNumber_))
        (out (log warn ("Relay exited alerted state. Alerted block: "
                        +:+ pretty (alertedBlock this)
                        +:+ ". Current block number: "
                        +:+ pretty blockNumber_));;
         assign (set_alerted false));;
      mret transactionHashes.

Definition _worker (blockNumber_ : Z) : M (list PrefixedHexString) :=
  initialized_ ← read initialized;
  when (negb initialized_) init;;
  lastScanned ← read lastScannedBlock;
  (if blockNumber_ <=? lastScanned
   then throw "Attempt to scan older block, aborting"
   else mret tt);;
  this ← read id;
  if negb (_shouldRefreshState this blockNumber_)
  then mret []
  else
    assign (set_lastRefreshBlock blockNumber_);;
    _refreshGasPrice;;
    balanceSatisfied ← await refreshBalance;
    if negb balanceSatisfied
    then setReadyState false;; mret []
    else _handleChanges blockNumber_.

Definition _workerSemaphore (blockNumber_ : Z) : M unit :=
  semaphoreOn ← read _workerSemaphoreOn;
  if (semaphoreOn : bool)
  then out (log warn "Different worker is not finished yet, skipping this block")
  else
    assign (set__workerSemaphoreOn true);;
    finally
      (transactions ← _worker blockNumber_;
       assign (λ this,
         set_lastSuccessfulRounds (JS.incr (lastSuccessfulRounds this)) this);;
       when (negb (Z.of_nat (length transactions) =? 0))
         (out (log debug ("Done handling block #" +:+ pretty blockNumber_
                          +:+ ". Created "
                          +:+ pretty (Z.of_nat (length transactions))
                          +:+ " transactions."))))
      (assign (set__workerSemaphoreOn false)).

Definition intervalHandler : M unit :=
  cfg ← read config;
  when (negb (devMode cfg)) (out (setTimeout workerTimeout (readyTimeout cfg)));;
  finally
    (try_catch
       (block ← await getBlock_latest;
        lastScanned ← read lastScannedBlock;
        if lastScanned <? number block
        then _workerSemaphore (number block)
        else mret tt)
       (λ message,
          out (emit "error" message);;
          out (log error ("error in worker: " +:+ message));;
          assign (set_lastSuccessfulRounds 0)))
    (out clearTimeout).

Definition start : M unit :=
  cfg ← read config;
  out (log debug ("Started polling for new blocks every "
                  +:+ pretty (checkInterval cfg) +:+ "ms"));;
  out (setInterval (checkInterval cfg));;
  assign (set_workerTask true).

Definition stop : M unit :=
  task ← read workerTask;
  (if negb task then throw "Server not started" else mret tt);;
  out clearInterval;;
  out (log info "Successfully stopped polling!!").

End Server.

(** ** Notions the properties are stated with *)




(** The same run with another result. *)
Definition settle {W A B : Type} (o : Outcome W A) (r : result B) :
  Outcome W B :=
  {| trace := trace o; final := final o; outcome := r; world := world o;
     timer := timer o |}.

(** A run continued by the run of [f] on its result, where it resumes. *)
Definition then_run `{Collaborators W} {A B : Type} (o : Outcome W A)
    (f : A → M B) : Outcome W B :=
  match outcome o with
  | Ok a => before (trace o) (run (f a (final o)) (world o) (timer o))
  | Throw m => settle o (Throw m)
  | Exit c => settle o (Exit c)
  end.

Definition catch_run `{Collaborators W} {A : Type} (o : Outcome W A)
    (h : string → M A) : Outcome W A :=
  match outcome o with
  | Throw m => before (trace o) (run (h m (final o)) (world o) (timer o))
  | _ => o
  end.

Definition finally_run `{Collaborators W} {A : Type} (o : Outcome W A)
    (f : M unit) : Outcome W A :=
  match outcome o with
  | Exit c => o
  | r => before (trace o)
           (run (bindP (f (final o)) (λ _ s', Ret s' r)) (world o) (timer o))
  end.

(** The transactions handed to [transactionManager.sendTransaction] in a
    trace, in order. *)
Definition sent_by (st : step) : option SendTransactionDetails.t :=
  match st with
  | Called c _ =>
      match c with
      | sendTransaction details => Some details
      | _ => None
      end
  | _ => None
  end.

Definition sends (l : list step) : list SendTransactionDetails.t :=
  omap sent_by l.

Definition throws {W A : Type} (o : Outcome W A) : Prop :=
  ∃ message, outcome o = Throw message.

Definition is_sendTransaction {X : Type} (c : extcall X) : bool :=
  match c with
  | sendTransaction _ => true
  | _ => false
  end.

(** A call that was refused: it threw, and nothing was handed to
    [sendTransaction]. *)
Definition refused {W A : Type} (o : Outcome W A) : Prop :=
  throws o ∧ sends (trace o) = [].

(** A synchronous check: it leaves the fields alone and either returns or
    throws. *)
Definition check_settles (v : M unit) (s : RelayServer) : Prop :=
  v s = Ret s (Ok tt) ∨ ∃ message, v s = Ret s (Throw message).

(** The events emitted and the lines logged at a level in a trace. *)
Definition emitted_by (st : step) : option (string * string) :=
  match st with
  | Output (emit name arg) => Some (name, arg)
  | _ => None
  end.

Definition emits (l : list step) : list (string * string) := omap emitted_by l.

Definition error_logged_by (st : step) : option string :=
  match st with
  | Output (log error message) => Some message
  | _ => None
  end.

Definition errors_logged (l : list step) : list string :=
  omap error_logged_by l.

(** The timers a run may start with: none, or the watchdog, which is the
    only callback the server ever sets. *)
Definition watchdog_or_none (t : option Callback) : Prop :=
  t = None ∨ t = Some workerTimeout.

(** ** A logic of method calls

    [holds I okStep Q p]: in the call [p], however its awaited calls are
    answered, every step of the trace satisfies [okStep]; the fields
    satisfy [I] whenever [p] is suspended and when it ends, provided they
    do whenever it resumes; and [p] ends in fields and a result that
    satisfy [Q]. *)

Section Holds.
Variable I : RelayServer → Prop.
Variable okStep : step → Prop.

(** A timer callback keeps [I], and its firing and its log lines are
    steps that [okStep] allows. *)
Definition callback_ok (cb : Callback) : Prop :=
  ∀ s, I s →
       I (cb s).2
       ∧ okStep (TimerFired (cb s).2)
       ∧ Forall (λ l, okStep (Output (log l.1 l.2))) (cb s).1.

Definition timer_ok (t : option Callback) : Prop :=
  ∀ cb, t = Some cb → callback_ok cb.

Definition output_ok (o : output) : Prop :=
  okStep (Output o) ∧ ∀ cb delay, o = setTimeout cb delay → callback_ok cb.

Fixpoint holds {A : Type} (Q : RelayServer → result A → Prop)
    (p : Prog A) : Prop :=
  match p with
  | Ret s r => I s ∧ Q s r
  | Out o p' => output_ok o ∧ holds Q p'
  | Await s c k =>
      I s ∧ (∀ r, okStep (Called c r)) ∧ ∀ r s', I s' → holds Q (k r s')
  end.
End Holds.

Definition any_step : step → Prop := λ _, True.

(** The steps of the methods below [intervalHandler]: awaited calls and
    outputs other than [setTimeout]; with no timer pending, none fires. *)
Definition plain_step (st : step) : Prop :=
  match st with
  | Called _ _ => True
  | Output (setTimeout _ _) => False
  | Output _ => True
  | TimerFired _ => False
  end.

(** The plain steps other than a call of [sendTransaction]. *)
Definition quiet_step (st : step) : Prop :=
  match st with
  | Called c _ => is_sendTransaction c = false
  | Output (setTimeout _ _) => False
  | Output _ => True
  | TimerFired _ => False
  end.


(** No timer is set and [sendTransaction] is not called. *)
Definition sends_nothing_sets_no_timer (st : step) : Prop :=
  match st with
  | Output (setTimeout _ _) => False
  | Called c _ => is_sendTransaction c = false
  | _ => True
  end.

(** A method call that, however its awaited calls are answered, neither
    calls [sendTransaction] nor sets a timer nor exits the process. *)
Definition sends_nothing {A : Type} (p : Prog A) : Prop :=
  holds (λ _, True) sends_nothing_sets_no_timer
    (λ _ r, ∀ code, r ≠ Exit code) p.

(** Whenever the watchdog fires it leaves the counter of successful
    rounds at zero. *)
Definition fires_to_zero (st : step) : Prop :=
  match st with
  | TimerFired s => lastSuccessfulRounds s = 0
  | _ => True
  end.

Definition anyhow {A : Type} : RelayServer → result A → Prop := λ _ _, True.

(** The fields that nothing below [_worker] assigns; the watchdog may
    zero the first. *)
Definition worker_frame (s : RelayServer) :
  Z * ServerConfigParams * string * string * bool :=
  (lastSuccessfulRounds s, config s, managerAddress s, workerAddress s,
   _workerSemaphoreOn s).






(** The fields [init] leaves alone that decide whether a block is old. *)
Definition init_frame (s : RelayServer) : Z * Z :=
  (lastScannedBlock s, lastSuccessfulRounds s).

(** ** Rounds

    What happens to the readiness of a server between two observations:
    a tick ends well ([this.lastSuccessfulRounds++] in [_workerSemaphore]),
    a tick fails ([this.lastSuccessfulRounds = 0] in the [catch] of
    [intervalHandler]), the watchdog expires, or [setReadyState] assigns
    [ready]. *)
Inductive RoundEvent :=
| tick_succeeded
| tick_failed
| watchdog_expired
| ready_state_set (isReady_ : bool).

Definition after_event (s : RelayServer) (e : RoundEvent) : RelayServer :=
  match e with
  | tick_succeeded =>
      set_lastSuccessfulRounds (JS.incr (lastSuccessfulRounds s)) s
  | tick_failed => set_lastSuccessfulRounds 0 s
  | watchdog_expired => (workerTimeout s).2
  | ready_state_set b => set_ready b s
  end.

Definition after_events (s : RelayServer) (history : list RoundEvent) :
  RelayServer :=
  fold_left after_event history s.

Definition zeroes_rounds (e : RoundEvent) : bool :=
  match e with
  | tick_failed | watchdog_expired => true
  | _ => false
  end.

(** The successful rounds counted since the counter was last zeroed (or
    since construction). *)
Definition successes_since_zeroed (history : list RoundEvent) : Z :=
  fold_left (λ n e,
               match e with
               | tick_succeeded => n + 1
               | tick_failed | watchdog_expired => 0
               | ready_state_set _ => n
               end) history 0.

Definition was_zeroed (history : list RoundEvent) : bool :=
  existsb zeroes_rounds history.

(** The histories of one tick: the watchdog may expire while the tick
    runs, and the tick, unless it skips the block or finds another worker
    running, ends counted as a success or as a failure. *)
Definition one_tick (history : list RoundEvent) : Prop :=
  ∃ expired result,
    history = expired ++ result
    ∧ (expired = [] ∨ expired = [watchdog_expired])
    ∧ (result = [] ∨ result = [tick_succeeded] ∨ result = [tick_failed]).

(** The counter of successful rounds is as at the start of the tick, or
    zeroed by the watchdog. *)
Definition rounds_kept (v : Z)
    (fr : Z * ServerConfigParams * string * string * bool) : Prop :=
  fr.1.1.1.1 = v ∨ fr.1.1.1.1 = 0.

(** ** Concrete servers, requests and collaborators

    Used to run the definitions on explicit inputs. *)

Definition latestOf (events : list EventData) : option EventData :=
  foldr (λ e acc,
           match acc with
           | Some e' => if blockNumber e' <? blockNumber e then Some e else acc
           | None => Some e
           end) None events.

(** A reading of numerals for the examples: an optional minus sign, then
    decimal digits, or hexadecimal ones after [0x]. *)
Definition readNumeral (s : string) : option Z :=
  let '(sign, s1) :=
    match s with String "-" r => (-1, r) | _ => (1, s) end in
  let '(hex, s2) := JS.stripHexPrefix s1 in
  let radix := if hex then 16 else 10 in
  if JS.allDigits radix s2
  then Some (sign * default 0 (JS.digits radix s2 None))
  else None.

#[local] Instance demoUtils : Utils := {|
  toBN := readNumeral;
  address2topic a := a;
  calculateTransactionMaxPossibleGas gl hubOverhead gas :=
    hubOverhead + default 0 (JS.parseInt gas)
    + default 0 (JS.parseInt (preRelayedCallGasLimit gl))
    + default 0 (JS.parseInt (postRelayedCallGasLimit gl));
  decodeRevertReason s := s;
  getLatestEventData := latestOf;
  matchesShape _ := true;
  JSON_stringify _ _ := "{}";
  mintxgascost := 21000
|}.

Definition demoConfig : ServerConfigParams := {|
  baseRelayFee := "10";
  pctRelayFee := 70;
  gasPriceFactor := 1 # 1;
  registrationBlockRate := 100;
  workerMinBalance := 100;
  workerTargetBalance := 300;
  managerMinBalance := 100;
  managerTargetBalance := 2000;
  minHubWithdrawalBalance := 500;
  checkInterval := 10000;
  readyTimeout := 30000;
  devMode := false;
  maxAcceptanceBudget := 200000;
  alertedBlockDelay := 20;
  minAlertedDelayMS := 0;
  maxAlertedDelayMS := 0;
  trustedPaymasters := [];
  successfulRoundsForReady := 3;
  refreshStateTimeoutBlocks := 5
|}.

(** A server as constructed, and the same after a successful [init] that
    found the hub at [0xhub]. *)
Definition newServer : RelayServer :=
  RelayServer_new demoConfig "0xManager" "0xWorker".

Definition initializedServer : RelayServer :=
  set_initialized true
    (set_registrationManager true
       (set_chainId (Some 1337)
          (set_networkId (Some 1337)
             (set_relayHubContract (Some "0xhub") newServer)))).

Definition demoRequest (gasPrice_ pct base : IntString) (worker hub : address) :
  RelayTransactionRequest :=
  {| relayRequest :=
       {| RelayRequest.request :=
            {| ForwardRequest.from_ := "0xfrom"; ForwardRequest.to_ := "0xto";
               ForwardRequest.data := "0x"; ForwardRequest.value := "0";
               ForwardRequest.nonce := "0"; ForwardRequest.gas := "50000";
               ForwardRequest.validUntil := "0" |};
          RelayRequest.relayData :=
            {| RelayData.gasPrice := gasPrice_;
               RelayData.pctRelayFee := pct;
               RelayData.baseRelayFee := base;
               RelayData.relayWorker := worker;
               RelayData.paymaster := "0xPaymaster";
               RelayData.paymasterData := "0x";
               RelayData.clientId := "1";
               RelayData.forwarder := "0xforwarder" |} |};
     metadata :=
       {| RelayMetadata.approvalData := "0x";
          RelayMetadata.relayHubAddress := hub;
          RelayMetadata.relayMaxNonce := 10;
          RelayMetadata.signature := "0xsig" |} |}.

(** A small executable model of the collaborators: a chain at a given
    block with given balances, a transaction store that remembers what
    was sent, and a clock that counts the calls answered. *)
Record DemoWorld := {
  calls : nat;
  expiresAt : option nat;
  blockNow : Z;
  gasPriceNow : string;
  managerBalanceNow : Z;
  workerBalanceNow : Z;
  managerHubBalanceNow : Z;
  paymasterHubBalanceNow : Z;
  nonceNow : Z;
  balanceSatisfiedNow : bool;
  registeredNow : bool;
  paymasterAcceptsNow : bool;
  hubEventsNow : list EventData;
  pendingNow : list (ServerAction * address)
}.

Definition answered (w : DemoWorld) : DemoWorld :=
  {| calls := S (calls w); expiresAt := expiresAt w; blockNow := blockNow w;
     gasPriceNow := gasPriceNow w; managerBalanceNow := managerBalanceNow w;
     workerBalanceNow := workerBalanceNow w;
     managerHubBalanceNow := managerHubBalanceNow w;
     paymasterHubBalanceNow := paymasterHubBalanceNow w;
     nonceNow := nonceNow w; balanceSatisfiedNow := balanceSatisfiedNow w;
     registeredNow := registeredNow w;
     paymasterAcceptsNow := paymasterAcceptsNow w;
     hubEventsNow := hubEventsNow w; pendingNow := pendingNow w |}.

Definition stored (a : ServerAction) (dest : address) (w : DemoWorld) :
  DemoWorld :=
  {| calls := calls w; expiresAt := expiresAt w; blockNow := blockNow w;
     gasPriceNow := gasPriceNow w; managerBalanceNow := managerBalanceNow w;
     workerBalanceNow := workerBalanceNow w;
     managerHubBalanceNow := managerHubBalanceNow w;
     paymasterHubBalanceNow := paymasterHubBalanceNow w;
     nonceNow := nonceNow w + 1; balanceSatisfiedNow := balanceSatisfiedNow w;
     registeredNow := registeredNow w;
     paymasterAcceptsNow := paymasterAcceptsNow w;
     hubEventsNow := hubEventsNow w;
     pendingNow := (a, dest) :: pendingNow w |}.

Definition same_action (a b : ServerAction) : bool :=
  match a, b with
  | REGISTER_SERVER, REGISTER_SERVER | ADD_WORKER, ADD_WORKER
  | AUTHORIZE_HUB, AUTHORIZE_HUB | STAKE, STAKE | UNSTAKE, UNSTAKE
  | RELAY_CALL, RELAY_CALL | VALUE_TRANSFER, VALUE_TRANSFER
  | DEPOSIT_WITHDRAWAL, DEPOSIT_WITHDRAWAL | SET_OWNER, SET_OWNER => true
  | _, _ => false
  end.

Definition pending_in (w : DemoWorld) (a : ServerAction)
    (dest : option address) : bool :=
  existsb (λ p, same_action a p.1
                && match dest with
                   | Some d => (JS.toLowerCase d =? JS.toLowerCase p.2)%string
                   | None => true
                   end)
          (pendingNow w).

Definition demoRespond (X : Type) (c : extcall X) (w : DemoWorld) :
  reply X * DemoWorld :=
  match c in extcall X return reply X * DemoWorld with
  | getBlock_latest =>
      (Resolved {| number := blockNow w; timestamp := 0 |}, answered w)
  | getBlockNumber => (Resolved (blockNow w), answered w)
  | getBalance a =>
      (Resolved (if (a =? "0xManager")%string then managerBalanceNow w
                 else workerBalanceNow w), answered w)
  | getGasPrice => (Resolved (gasPriceNow w), answered w)
  | getCode _ => (Resolved "0x6080604052", answered w)
  | getChainId => (Resolved 1337, answered w)
  | getNetworkId => (Resolved 1337, answered w)
  | getPastEventsForHub _ _ _ => (Resolved (hubEventsNow w), answered w)
  | relayHubInstance => (Resolved "0xhub", answered w)
  | _createPaymaster _ => (Resolved tt, answered w)
  | paymaster_getGasLimits _ =>
      (Resolved {| acceptanceBudget := "150000";
                   preRelayedCallGasLimit := "100000";
                   postRelayedCallGasLimit := "110000" |}, answered w)
  | hub_gasOverhead => (Resolved 50000, answered w)
  | hub_calculateCharge gas _ => (Resolved gas, answered w)
  | hub_balanceOf a =>
      (Resolved (if (a =? "0xManager")%string then managerHubBalanceNow w
                 else paymasterHubBalanceNow w), answered w)
  | method_call _ _ _ _ =>
      (Resolved {| paymasterAccepted := paymasterAcceptsNow w;
                   returnValue := "0x" |}, answered w)
  | transactionManager_init => (Resolved tt, answered w)
  | pollNonce _ => (Resolved (nonceNow w), answered w)
  | sendTransaction details =>
      (Resolved {| transactionHash_ := "0xhash" +:+ pretty (nonceNow w);
                   signedTx := "0xsigned" +:+ pretty (nonceNow w) |},
       answered (stored (SendTransactionDetails.serverAction details)
                   (SendTransactionDetails.destination details) w))
  | attemptEstimateGas _ _ _ => (Resolved 60000, answered w)
  | removeConfirmedTransactions _ => (Resolved tt, answered w)
  | boostOldestPendingTransactionForSigner _ _ => (Resolved None, answered w)
  | isActionPending a dest => (Resolved (pending_in w a dest), answered w)
  | registrationManager_init => (Resolved tt, answered w)
  | refreshBalance => (Resolved (balanceSatisfiedNow w), answered w)
  | handlePastEvents _ _ _ _ => (Resolved [], answered w)
  | isRegistered => (Resolved (registeredNow w), answered w)
  | sleep_randomInRange _ _ => (Resolved tt, answered w)
  end.

#[local] Instance demoCollaborators : Collaborators DemoWorld := {|
  respond := demoRespond;
  timedOut w :=
    match expiresAt w with
    | Some n => (n <=? calls w)%nat
    | None => false
    end
|}.

(** A chain at block 105 where the relay is registered and funded. *)
Definition calmWorld : DemoWorld := {|
  calls := 0;
  expiresAt := None;
  blockNow := 105;
  gasPriceNow := "20";
  managerBalanceNow := 5000;
  workerBalanceNow := 300;
  managerHubBalanceNow := 0;
  paymasterHubBalanceNow := 1000000000;
  nonceNow := 4;
  balanceSatisfiedNow := true;
  registeredNow := true;
  paymasterAcceptsNow := true;
  hubEventsNow := [];
  pendingNow := []
|}.

(** A server that has initialized and completed rounds: ready. *)
Definition readyServer : RelayServer :=
  set_ready true (set_gasPrice (Some 20) initializedServer).

Definition goodRequest : RelayTransactionRequest :=
  demoRequest "20" "70" "10" "0xworker" "0xhub".

(** A server whose worker holds 50 where at least 100 is required. *)
Definition lowWorkerServer : RelayServer :=
  set_workerBalanceRequired (AmountRequired.mk "Worker Balance" 100 50)
    readyServer.

(** A chain where the manager holds 150 and has 800 deposited in the hub,
    and the worker holds 50. *)
Definition poorManagerWorld : DemoWorld := {|
  calls := 0;
  expiresAt := None;
  blockNow := 105;
  gasPriceNow := "20";
  managerBalanceNow := 150;
  workerBalanceNow := 50;
  managerHubBalanceNow := 800;
  paymasterHubBalanceNow := 1000000000;
  nonceNow := 4;
  balanceSatisfiedNow := true;
  registeredNow := true;
  paymasterAcceptsNow := true;
  hubEventsNow := [];
  pendingNow := []
|}.




(** A ready server that was alerted at block 500 and refreshed its state
    at block 520, and the chain at block 521. *)
Definition alertedServer : RelayServer :=
  set_alerted true
    (set_alertedBlock 500
       (set_lastScannedBlock 520 (set_lastRefreshBlock 520 readyServer))).

Definition worldAt521 : DemoWorld := {|
  calls := 0;
  expiresAt := None;
  blockNow := 521;
  gasPriceNow := "20";
  managerBalanceNow := 5000;
  workerBalanceNow := 300;
  managerHubBalanceNow := 0;
  paymasterHubBalanceNow := 1000000000;
  nonceNow := 4;
  balanceSatisfiedNow := true;
  registeredNow := true;
  paymasterAcceptsNow := true;
  hubEventsNow := [];
  pendingNow := []
|}.

(** The chain at block 105 while the manager's balance is below what the
    registration manager requires, and the same block once funds have
    arrived; the worker holds 50. *)
Definition unfundedWorld : DemoWorld := {|
  calls := 0;
  expiresAt := None;
  blockNow := 105;
  gasPriceNow := "20";
  managerBalanceNow := 40;
  workerBalanceNow := 50;
  managerHubBalanceNow := 0;
  paymasterHubBalanceNow := 1000000000;
  nonceNow := 4;
  balanceSatisfiedNow := false;
  registeredNow := true;
  paymasterAcceptsNow := true;
  hubEventsNow := [];
  pendingNow := []
|}.

Definition fundedWorld : DemoWorld := {|
  calls := 0;
  expiresAt := None;
  blockNow := 105;
  gasPriceNow := "20";
  managerBalanceNow := 5000;
  workerBalanceNow := 50;
  managerHubBalanceNow := 0;
  paymasterHubBalanceNow := 1000000000;
  nonceNow := 4;
  balanceSatisfiedNow := true;
  registeredNow := true;
  paymasterAcceptsNow := true;
  hubEventsNow := [];
  pendingNow := []
|}.

(** The demo chain answering so slowly that [readyTimeout] elapses during
    the first call of a tick. *)
Definition slowWorld : DemoWorld := {|
  calls := 0;
  expiresAt := Some 1%nat;
  blockNow := 105;
  gasPriceNow := "20";
  managerBalanceNow := 5000;
  workerBalanceNow := 300;
  managerHubBalanceNow := 0;
  paymasterHubBalanceNow := 1000000000;
  nonceNow := 4;
  balanceSatisfiedNow := true;
  registeredNow := true;
  paymasterAcceptsNow := true;
  hubEventsNow := [];
  pendingNow := []
|}.

(** ** What a method call ends in

    [ends Q p]: however the awaited calls of [p] are answered, and whether
    or not the watchdog expires while [p] is suspended, [p] ends with steps
    of its own [tr], fields [s] and a result [r] such that [Q tr s r]. *)

(** The fields when a suspended method resumes: as they were, or with the
    counter of successful rounds zeroed by the watchdog. *)
Definition resumed (s s' : RelayServer) : Prop :=
  ∃ rounds,
    s' = set_lastSuccessfulRounds rounds s
    ∧ (rounds = lastSuccessfulRounds s ∨ rounds = 0).

Definition sets_watchdog_only (o : output) : Prop :=
  match o with
  | setTimeout cb _ => cb = workerTimeout
  | _ => True
  end.

Fixpoint ends {A : Type} (Q : list step → RelayServer → result A → Prop)
    (p : Prog A) : Prop :=
  match p with
  | Ret s r => Q [] s r
  | Out o p' => sets_watchdog_only o ∧ ends (λ tr, Q (Output o :: tr)) p'
  | Await s c k =>
      ∀ r s', resumed s s' → ends (λ tr, Q (Called c r :: tr)) (k r s')
  end.

(** The steps of the method itself in a trace: the firings of the
    watchdog, and the warning each logs, are left out. *)
Fixpoint steps_after (fired : bool) (l : list step) : list step :=
  match l with
  | [] => []
  | st :: l' =>
      match st with
      | TimerFired _ => steps_after true l'
      | Output (log warn _) =>
          if fired then steps_after false l' else st :: steps_after false l'
      | _ => st :: steps_after false l'
      end
  end.

Definition own_steps (l : list step) : list step := steps_after false l.

(** The awaited calls in a trace, in order, without their replies. *)
Inductive call :=
| Call {X : Type} (c : extcall X).

Definition called_by (st : step) : option call :=
  match st with
  | Called c _ => Some (Call c)
  | _ => None
  end.

Definition calls_made (l : list step) : list call := omap called_by l.

(** ** What a tick keeps and sends *)

(** The fields that no method below [intervalHandler] assigns, with
    [lastScannedBlock], which [_handleChanges] alone assigns. *)
Definition tick_frame (s : RelayServer) :
  Z * string * string * ServerConfigParams * bool :=
  (lastScannedBlock s, managerAddress s, workerAddress s, config s,
   _workerSemaphoreOn s).

(** The two transactions [replenishServer] builds: the withdrawal of the
    manager's hub deposit and the transfer to the worker, both signed by
    the manager and stamped with the current block. *)
Definition replenishment (currentBlock : Z) (manager worker : address)
    (d : SendTransactionDetails.t) : Prop :=
  SendTransactionDetails.signer d = manager
  ∧ SendTransactionDetails.creationBlockNumber d = currentBlock
  ∧ SendTransactionDetails.gasPrice d = None
  ∧ ((SendTransactionDetails.serverAction d = DEPOSIT_WITHDRAWAL
      ∧ SendTransactionDetails.value d = None
      ∧ ∃ amount,
          SendTransactionDetails.method d = Some (withdraw amount manager))
     ∨ (SendTransactionDetails.serverAction d = VALUE_TRANSFER
        ∧ SendTransactionDetails.destination d = worker
        ∧ SendTransactionDetails.method d = None
        ∧ ∃ refill, SendTransactionDetails.value d = Some refill)).

(** Steps that set no timer and hand to [sendTransaction] only what
    [allowed] holds of. *)
Definition sends_only (allowed : SendTransactionDetails.t → Prop)
    (st : step) : Prop :=
  match st with
  | Called c _ =>
      match c with
      | sendTransaction d => allowed d
      | _ => True
      end
  | Output (setTimeout _ _) => False
  | _ => True
  end.

(** The hashes of the transactions that [sendTransaction] accepted in a
    trace, in order. *)
Definition hash_sent_by (st : step) : option PrefixedHexString :=
  match st with
  | Called c r =>
      match c in extcall X return reply X → option PrefixedHexString with
      | sendTransaction _ =>
          λ r, match r with
               | Resolved tx => Some (transactionHash_ tx)
               | Rejected _ => None
               end
      | _ => λ _, None
      end r
  | _ => None
  end.

Definition sent_hashes (l : list step) : list PrefixedHexString :=
  omap hash_sent_by l.

(** The transaction [createRelayTransaction] builds for a request: the
    hub's [relayCall] on the request, signed by the worker, sent to the
    hub named by the request at the gas price the request offers. *)
Definition relay_call (req : RelayTransactionRequest) (worker : address)
    (d : SendTransactionDetails.t) : Prop :=
  SendTransactionDetails.signer d = worker
  ∧ SendTransactionDetails.serverAction d = RELAY_CALL
  ∧ SendTransactionDetails.destination d
    = RelayMetadata.relayHubAddress (metadata req)
  ∧ SendTransactionDetails.gasPrice d
    = Some (RelayData.gasPrice (RelayRequest.relayData (relayRequest req)))
  ∧ SendTransactionDetails.value d = None
  ∧ ∃ acceptanceBudget_,
      SendTransactionDetails.method d
      = Some (relayCall acceptanceBudget_ (relayRequest req)
                (RelayMetadata.signature (metadata req))
                (RelayMetadata.approvalData (metadata req))
                (SendTransactionDetails.gasLimit d)).

(** The object [pingHandler] returns. *)
Module PingResponse.
Record t := mk {
  relayWorkerAddress : address;
  relayManagerAddress : address;
  relayHubAddress : address;
  minGasPrice : string;
  maxAcceptanceBudget : IntString;
  chainId : string;
  networkId : string;
  ready : bool;
  version : string
}.
End PingResponse.

(** [paymaster?.toLocaleLowerCase()] is undefined without a paymaster,
    and the map has no entry under undefined: its keys are set by
    [_initTrustedPaymasters] alone, to lower-cased addresses. *)
Definition _getPaymasterMaxAcceptanceBudget (this : RelayServer)
    (paymaster : option string) : IntString :=
  let limits :=
    match paymaster with
    | Some p => trustedPaymastersGasLimits this !! JS.toLocaleLowerCase p
    | None => None
    end in
  match limits with
  | Some limits => acceptanceBudget limits
  | None => pretty (maxAcceptanceBudget (config this))
  end.

Section Ping.
(** The constant exported by common/Version. *)
Variable gsnRuntimeVersion : string.

(** [this.chainId.toString()] and [this.networkId.toString()] are a
    [TypeError] while the field is undefined. *)
Definition pingHandler (paymaster : option string) : M PingResponse.t :=
  this ← read id;
  minGasPrice_ ← getMinGasPrice;
  match chainId this with
  | None => throw "TypeError: Cannot read properties of undefined"
  | Some chainId_ =>
      match networkId this with
      | None => throw "TypeError: Cannot read properties of undefined"
      | Some networkId_ =>
          mret {| PingResponse.relayWorkerAddress := workerAddress this;
                  PingResponse.relayManagerAddress := managerAddress this;
                  PingResponse.relayHubAddress :=
                    default "" (relayHubContract this);
                  PingResponse.minGasPrice := show minGasPrice_;
                  PingResponse.maxAcceptanceBudget :=
                    _getPaymasterMaxAcceptanceBudget this paymaster;
                  PingResponse.chainId := pretty chainId_;
                  PingResponse.networkId := pretty networkId_;
                  PingResponse.ready := isReady this;
                  PingResponse.version := gsnRuntimeVersion |}
      end
  end.

End Ping.

(** A server as constructed whose configuration trusts one paymaster. *)
Definition trustingServer : RelayServer :=
  RelayServer_new
    {| baseRelayFee := baseRelayFee demoConfig;
       pctRelayFee := pctRelayFee demoConfig;
       gasPriceFactor := gasPriceFactor demoConfig;
       registrationBlockRate := registrationBlockRate demoConfig;
       workerMinBalance := workerMinBalance demoConfig;
       workerTargetBalance := workerTargetBalance demoConfig;
       managerMinBalance := managerMinBalance demoConfig;
       managerTargetBalance := managerTargetBalance demoConfig;
       minHubWithdrawalBalance := minHubWithdrawalBalance demoConfig;
       checkInterval := checkInterval demoConfig;
       readyTimeout := readyTimeout demoConfig;
       devMode := true;
       maxAcceptanceBudget := maxAcceptanceBudget demoConfig;
       alertedBlockDelay := alertedBlockDelay demoConfig;
       minAlertedDelayMS := minAlertedDelayMS demoConfig;
       maxAlertedDelayMS := maxAlertedDelayMS demoConfig;
       trustedPaymasters := ["0xPayMaster"];
       successfulRoundsForReady := successfulRoundsForReady demoConfig;
       refreshStateTimeoutBlocks := refreshStateTimeoutBlocks demoConfig |}
    "0xManager" "0xWorker".

(** The demo chain seen through a node of a real network: chain and
    network id 1. *)
Record MainnetWorld := { onMainnet : DemoWorld }.

Definition mainnetRespond (X : Type) (c : extcall X) (w : MainnetWorld) :
  reply X * MainnetWorld :=
  match c in extcall X return reply X * MainnetWorld with
  | getChainId => (Resolved 1, w)
  | getNetworkId => (Resolved 1, w)
  | c' =>
      let '(r, w') := demoRespond _ c' (onMainnet w) in
      (r, {| onMainnet := w' |})
  end.

#[local] Instance mainnetCollaborators : Collaborators MainnetWorld := {|
  respond := mainnetRespond;
  timedOut w := timedOut (onMainnet w)
|}.

Definition mainnetWorld : MainnetWorld := {| onMainnet := calmWorld |}.

(** ** Case-insensitive comparison *)






(** ** Input validation *)

Section Validation.
Context `{Utils}.



End Validation.

(** ** Fee validation *)

Section Fees.
Context `{Utils}.


(** The trusted paymasters are the keys of the map of their gas limits,
    looked up in lower case. *)
Lemma _isTrustedPaymaster_dom this paymaster :
  _isTrustedPaymaster this paymaster = true
  ↔ JS.toLowerCase paymaster ∈ dom (trustedPaymastersGasLimits this).
Proof.
  unfold _isTrustedPaymaster, JS.toLocaleLowerCase.
  rewrite bool_decide_eq_true, elem_of_dom. reflexivity.
Qed.


End Fees.


(** ** Runs compose *)

Section Runs.
Context `{Collaborators W}.

Lemma before_before {A} (l1 l2 : list step) (o : Outcome W A) :
  before l1 (before l2 o) = before (l1 ++ l2) o.
Proof. unfold before. simpl. now rewrite app_assoc. Qed.

Lemma before_nil {A} (o : Outcome W A) : before [] o = o.
Proof. now destruct o. Qed.

Lemma before_settle {A B} l (o : Outcome W A) (r : result B) :
  before l (settle o r) = settle (before l o) r.
Proof. reflexivity. Qed.

Lemma then_run_before {A B} l (o : Outcome W A) (f : A → M B) :
  then_run (before l o) f = before l (then_run o f).
Proof.
  unfold then_run. simpl. destruct (outcome o); try reflexivity.
  now rewrite before_before.
Qed.

Lemma run_bindP {A B} (p : Prog A) (f : A → M B) w t :
  run (bindP p f) w t = then_run (run p w t) f.
Proof.
  revert w t. induction p as [s r|o p IH|X s c k IH]; intros w t.
  - destruct r; unfold then_run; simpl; [|reflexivity..].
    now rewrite before_nil.
  - simpl. now rewrite IH, then_run_before.
  - simpl. destruct (respond c w) as [r w'].
    destruct t as [cb|]; [destruct (timedOut w')|];
      now rewrite IH, then_run_before.
Qed.

Lemma run_mbind {A B} (m : M A) (f : A → M B) s w t :
  run ((m ≫= f) s) w t = then_run (run (m s) w t) f.
Proof. apply run_bindP. Qed.

Lemma catch_run_before {A} l (o : Outcome W A) h :
  catch_run (before l o) h = before l (catch_run o h).
Proof.
  unfold catch_run. simpl. destruct (outcome o); try reflexivity.
  now rewrite before_before.
Qed.

Lemma run_catchP {A} (p : Prog A) (h : string → M A) w t :
  run (catchP p h) w t = catch_run (run p w t) h.
Proof.
  revert w t. induction p as [s r|o p IH|X s c k IH]; intros w t.
  - destruct r; unfold catch_run; simpl; try reflexivity.
    now rewrite before_nil.
  - simpl. now rewrite IH, catch_run_before.
  - simpl. destruct (respond c w) as [r w'].
    destruct t as [cb|]; [destruct (timedOut w')|];
      now rewrite IH, catch_run_before.
Qed.

Lemma finally_run_before {A} l (o : Outcome W A) f :
  finally_run (before l o) f = before l (finally_run o f).
Proof.
  unfold finally_run. simpl.
  destruct (outcome o); try reflexivity; now rewrite before_before.
Qed.

Lemma run_finallyP {A} (p : Prog A) (f : M unit) w t :
  run (finallyP p f) w t = finally_run (run p w t) f.
Proof.
  revert w t. induction p as [s r|o p IH|X s c k IH]; intros w t.
  - destruct r; unfold finally_run; simpl; try reflexivity;
      now rewrite before_nil.
  - simpl. now rewrite IH, finally_run_before.
  - simpl. destruct (respond c w) as [r w'].
    destruct t as [cb|]; [destruct (timedOut w')|];
      now rewrite IH, finally_run_before.
Qed.

Lemma sends_app (l1 l2 : list step) : sends (l1 ++ l2) = sends l1 ++ sends l2.
Proof. apply omap_app. Qed.

End Runs.

(** ** The logic of method calls is sound for runs *)

Section HoldsRun.
Context `{Collaborators W}.
Variable I : RelayServer → Prop.
Variable okStep : step → Prop.

Local Abbreviation holds := (holds I okStep).
Local Abbreviation timer_ok := (timer_ok I okStep).

Lemma timer_ok_after o t :
  output_ok I okStep o → timer_ok t → timer_ok (timer_after o t).
Proof.
  intros [_ Ho] Ht. destruct o; simpl; try assumption.
  - intros cb [= <-]. eapply Ho. reflexivity.
  - intros cb [=].
Qed.

Lemma timer_ok_None : timer_ok None.
Proof. intros cb [=]. Qed.

Theorem holds_run {A} (Q : RelayServer → result A → Prop) (p : Prog A) w t :
  holds Q p → timer_ok t →
  I (final (run p w t))
  ∧ Q (final (run p w t)) (outcome (run p w t))
  ∧ Forall okStep (trace (run p w t))
  ∧ timer_ok (timer (run p w t)).
Proof.
  revert w t. induction p as [s r|o p IH|X s c k IH]; intros w t Hp Ht.
  - destruct Hp. simpl. split; [|split; [|split]]; auto.
  - destruct Hp as [Ho Hp].
    destruct (IH w (timer_after o t) Hp (timer_ok_after _ _ Ho Ht))
      as (Hi & Hq & Hs & Ht').
    simpl. split; [|split; [|split]]; try assumption.
    constructor; [exact (proj1 Ho) | exact Hs].
  - destruct Hp as (Hi & Hc & Hk). simpl.
    destruct (respond c w) as [r w'].
    destruct t as [cb|]; [destruct (timedOut w')|].
    + destruct (Ht cb eq_refl s Hi) as (Hi' & Hfire & Hl).
      destruct (IH r (cb s).2 w' None (Hk _ _ Hi') timer_ok_None)
        as (Hf & Hq & Hs & Ht').
      cbn [final outcome timer trace before app].
      split; [|split; [|split]]; try assumption.
      constructor; [apply Hc|]. constructor; [exact Hfire|].
      apply Forall_app. split; [|exact Hs].
      apply Forall_map. exact Hl.
    + destruct (IH r s w' (Some cb) (Hk _ _ Hi) Ht) as (Hf & Hq & Hs & Ht').
      cbn [final outcome timer trace before app].
      split; [|split; [|split]]; try assumption.
      constructor; [apply Hc | assumption].
    + destruct (IH r s w' None (Hk _ _ Hi) Ht) as (Hf & Hq & Hs & Ht').
      cbn [final outcome timer trace before app].
      split; [|split; [|split]]; try assumption.
      constructor; [apply Hc | assumption].
Qed.

Lemma holds_consequence {A} (Q Q' : RelayServer → result A → Prop) p :
  holds Q p → (∀ s r, I s → Q s r → Q' s r) → holds Q' p.
Proof.
  intros Hp Hq. induction p as [s r|o p IH|X s c k IH]; simpl in *.
  - destruct Hp. auto.
  - destruct Hp. auto.
  - destruct Hp as (? & ? & Hk). auto.
Qed.

Lemma holds_bindP {A B} (Q1 : RelayServer → result A → Prop)
    (Q2 : RelayServer → result B → Prop) (p : Prog A) (f : A → M B) :
  holds Q1 p →
  (∀ a s, I s → Q1 s (Ok a) → holds Q2 (f a s)) →
  (∀ s m, I s → Q1 s (Throw m) → Q2 s (Throw m)) →
  (∀ s c, I s → Q1 s (Exit c) → Q2 s (Exit c)) →
  holds Q2 (bindP p f).
Proof.
  intros Hp Hf Ht He. induction p as [s r|o p IH|X s c k IH]; simpl in *.
  - destruct Hp as [Hi Hq]. destruct r; simpl; auto.
  - destruct Hp. auto.
  - destruct Hp as (? & ? & Hk). auto.
Qed.

Lemma holds_catchP {A} (Q1 Q2 : RelayServer → result A → Prop)
    (p : Prog A) (h : string → M A) :
  holds Q1 p →
  (∀ m s, I s → Q1 s (Throw m) → holds Q2 (h m s)) →
  (∀ s a, I s → Q1 s (Ok a) → Q2 s (Ok a)) →
  (∀ s c, I s → Q1 s (Exit c) → Q2 s (Exit c)) →
  holds Q2 (catchP p h).
Proof.
  intros Hp Hh Ho He. induction p as [s r|o p IH|X s c k IH]; simpl in *.
  - destruct Hp as [Hi Hq]. destruct r; simpl; auto.
  - destruct Hp. auto.
  - destruct Hp as (? & ? & Hk). auto.
Qed.

Lemma holds_finallyP {A} (Q1 Q2 : RelayServer → result A → Prop)
    (p : Prog A) (f : M unit) :
  holds Q1 p →
  (∀ s r, I s → Q1 s r → (∀ c, r ≠ Exit c) →
          holds (λ s' r', match r' with
                          | Ok _ => Q2 s' r
                          | Throw _ => True
                          | Exit c => Q2 s' (Exit c)
                          end)
            (f s)) →
  (∀ s m, I s → Q2 s (Throw m)) →
  (∀ s c, I s → Q1 s (Exit c) → Q2 s (Exit c)) →
  holds Q2 (finallyP p f).
Proof.
  intros Hp Hf Ht He. induction p as [s r|o p IH|X s c k IH]; simpl in *.
  - destruct Hp as [Hi Hq].
    assert (Hb : (∀ c, r ≠ Exit c) →
                 holds Q2 (bindP (f s) (λ _ s', Ret s' r))).
    { intros Hr. eapply holds_bindP; [apply (Hf s r Hi Hq Hr)|..].
      - intros [] s' Hi' Hq'. simpl. auto.
      - intros s' m Hi' _. auto.
      - intros s' c Hi' Hq'. exact Hq'. }
    destruct r; simpl; [apply Hb; discriminate..|auto].
  - destruct Hp. auto.
  - destruct Hp as (? & ? & Hk). auto.
Qed.

End HoldsRun.

(** ** Calls that send nothing *)

Section SendsNothing.
Context `{Collaborators W}.

Lemma sends_of_other_calls (l : list step) :
  Forall sends_nothing_sets_no_timer l → sends l = [].
Proof.
  induction 1 as [|st l Hst _ IH]; [reflexivity|].
  destruct st as [X c r| |]; try exact IH.
  destruct c; first [discriminate Hst | exact IH].
Qed.

Lemma timer_ok_sends_nothing (t : option Callback) :
  timer_ok (λ _, True) sends_nothing_sets_no_timer t.
Proof.
  intros cb _ s _. split; [exact Logic.I|]. split; [exact Logic.I|].
  apply Forall_forall. intros; exact Logic.I.
Qed.

Lemma sends_nothing_run {A} (p : Prog A) w t :
  sends_nothing p →
  sends (trace (run p w t)) = [] ∧ ∀ code, outcome (run p w t) ≠ Exit code.
Proof.
  intros Hp.
  destruct (holds_run _ _ _ p w t Hp (timer_ok_sends_nothing t))
    as (_ & Hq & Hs & _).
  split; [now apply sends_of_other_calls | exact Hq].
Qed.

End SendsNothing.

(** ** Walking a method call *)

Section Walk.
Variable I : RelayServer → Prop.
Variable okStep : step → Prop.

Lemma holds_for_each {A} (body : A → M unit) (l : list A) s :
  I s →
  (∀ x s', I s' → holds I okStep anyhow (body x s')) →
  holds I okStep anyhow (for_each l body s).
Proof.
  intros Hi Hb. revert s Hi. induction l as [|x l IH]; intros s Hi.
  - simpl. split; [assumption | exact Logic.I].
  - simpl. eapply holds_bindP; [apply Hb; assumption|..].
    + intros [] s' Hi' _. now apply IH.
    + intros; exact Logic.I.
    + intros; exact Logic.I.
Qed.

Lemma holds_weaken (I' : RelayServer → Prop) (okStep' : step → Prop)
    {A} (Q : RelayServer → result A → Prop) (p : Prog A) :
  (∀ s, I s ↔ I' s) →
  (∀ st, okStep st → okStep' st) →
  holds I okStep Q p → holds I' okStep' Q p.
Proof.
  intros Hi Ho. induction p as [s r|o p IH|X s c k IH]; simpl.
  - intros [? ?]. split; [now apply Hi | assumption].
  - intros [[Hok Hcb] Hp]. split; [|auto].
    split; [auto|]. intros cb d E s0 Hs0.
    destruct (Hcb cb d E s0 (proj2 (Hi s0) Hs0)) as (Hk & Hf & Hl).
    split; [now apply Hi|]. split; [auto|].
    eapply Forall_impl; [exact Hl|]. auto.
  - intros (Hs & Hcall & Hk). split; [now apply Hi|]. split; [auto|].
    intros r s' Hs'. apply IH, Hk. now apply Hi.
Qed.
End Walk.

(** The stuck scrutinee at the head of a call. *)
Ltac stuck_head p :=
  lazymatch p with
  | bindP ?q _ => stuck_head q
  | catchP ?q _ => stuck_head q
  | finallyP ?q _ => stuck_head q
  | (if ?b then _ else _) _ => b
  | (if ?b then _ else _) => b
  | (match ?x with _ => _ end) _ => x
  | (match ?x with _ => _ end) => x
  end.

Ltac holds_side :=
  solve [ assumption | exact Logic.I | reflexivity | discriminate
        | split; [ exact Logic.I | intros ? ? [=] ]
        | intros ?; first [ exact Logic.I | reflexivity ]
        | match goal with
          | Hok : ∀ st, _ → ?ok st |- ?ok _ =>
              apply Hok; first [ exact Logic.I | reflexivity ]
          | Hok : ∀ st, _ → ?ok st |- output_ok _ ?ok _ =>
              split; [ apply Hok; exact Logic.I | intros ? ? [=] ]
          | Hall : ∀ fr, ?P fr |- ?P _ => apply Hall
          end
        | simpl; auto
        | simpl in *; congruence ].

Ltac holds_expose :=
  unfold mbind, M_bind, mret, M_ret, read, assign, out, await, throw, exit,
    when, try_catch, finally;
  cbn [holds bindP catchP finallyP].

Create HintDb holds discriminated.

Ltac holds_walk :=
  repeat (holds_expose;
          lazymatch goal with
          | |- _ ∧ _ => split
          | |- ∀ _, _ => intro
          | |- holds _ _ _ (bindP (for_each _ _ _) _) =>
              eapply holds_bindP;
              [ apply holds_for_each; [ | intros ? ? ? ]
              | intros [] ? ? _ | intros ? ? ? _ | intros ? ? ? _ ]
          | |- holds _ _ _ (for_each _ _ _) =>
              apply holds_for_each; [ | intros ? ? ? ]
          | |- holds _ _ _ (finallyP ?q _) =>
              first
                [ let x := stuck_head q in destruct x eqn:?
                | eapply (holds_finallyP _ _ anyhow);
                  [ | intros ? ? ? _ _ | intros ? ? ? | intros ? ? ? _ ] ]
          | |- holds _ _ _ (catchP ?q _) =>
              first
                [ let x := stuck_head q in destruct x eqn:?
                | eapply (holds_catchP _ _ anyhow);
                  [ | intros ? ? ? _ | intros ? ? ? _ | intros ? ? ? _ ] ]
          | |- holds _ _ _ ?p =>
              first
                [ let x := stuck_head p in destruct x eqn:?
                | eapply holds_bindP;
                  [ solve [eauto with holds nocore]
                  | intros ? ? ? _ | intros ? ? ? _ | intros ? ? ? _ ]
                | eapply holds_consequence;
                  [ solve [eauto with holds nocore] | intros ? ? ? _ ] ]
          | |- _ => holds_side
          end).

(** Below [intervalHandler] every step is plain, and the fields of
    [worker_frame] are assigned by [_workerSemaphore] only. *)
Section Frames.
Context `{Utils}.
Variable P : Z * ServerConfigParams * string * string * bool → Prop.
Variable okStep : step → Prop.
Hypothesis plain_ok : ∀ st, plain_step st → okStep st.

Local Abbreviation framed := (holds (λ s, P (worker_frame s)) okStep anyhow).

Lemma init_framed s : P (worker_frame s) → framed (init s).
Proof.
  intros Hs.
  unfold init, _initTrustedPaymasters, fatal, the_relayHubContract.
  holds_walk.
Qed.

Lemma replenishServer_framed i b s :
  P (worker_frame s) → framed (replenishServer i b s).
Proof.
  intros Hs.
  unfold replenishServer, replenishServer_worker, getManagerBalance,
    getWorkerBalance, set_workerBalance, the_relayHubContract.
  holds_walk.
Qed.

Lemma _shouldRegisterAgain_framed b events s :
  P (worker_frame s) → framed (_shouldRegisterAgain b events s).
Proof.
  intros Hs.
  unfold _shouldRegisterAgain, _getLatestTxBlockNumber, _queryLatestActiveEvent.
  holds_walk.
Qed.

Lemma handlePastHubEvents_framed b events s :
  P (worker_frame s) → framed (handlePastHubEvents b events s).
Proof.
  intros Hs.
  unfold handlePastHubEvents, _handleTransactionRejectedByPaymasterEvent.
  holds_walk.
Qed.

Lemma setReadyState_framed b s :
  P (worker_frame s) → framed (setReadyState b s).
Proof. intros Hs. unfold setReadyState. holds_walk. Qed.

Local Hint Resolve init_framed replenishServer_framed
  _shouldRegisterAgain_framed handlePastHubEvents_framed
  setReadyState_framed : holds.

Lemma _handleChanges_framed b s :
  P (worker_frame s) → framed (_handleChanges b s).
Proof.
  intros Hs.
  unfold _handleChanges, getAllHubEventsSinceLastScan,
    _boostStuckPendingTransactions, _boostStuckTransactionsForManager,
    _boostStuckTransactionsForWorker, getWorkerBalance.
  holds_walk.
Qed.

Local Hint Resolve _handleChanges_framed : holds.

Lemma _worker_framed b s : P (worker_frame s) → framed (_worker b s).
Proof.
  intros Hs. unfold _worker, _refreshGasPrice. holds_walk.
Qed.

Local Hint Resolve _worker_framed : holds.

(** The tick itself assigns the counter and the semaphore: what is kept
    is what holds of every frame. *)
Hypothesis everywhere : ∀ fr, P fr.

Lemma _workerSemaphore_framed b s : framed (_workerSemaphore b s).
Proof. unfold _workerSemaphore. holds_walk. Qed.

Local Hint Resolve _workerSemaphore_framed : holds.

Lemma intervalHandler_framed s :
  (devMode (config s) = false →
   output_ok (λ s, P (worker_frame s)) okStep
     (setTimeout workerTimeout (readyTimeout (config s)))) →
  framed (intervalHandler s).
Proof.
  intros Harm. unfold intervalHandler. holds_walk.
  apply Harm. destruct (devMode (config s)); [discriminate | reflexivity].
Qed.

End Frames.

(** ** Initialization happens once *)

Section Init.
Context `{Utils} `{Collaborators W}.

Lemma timer_ok_any (t : option Callback) :
  timer_ok (λ _, True) any_step t.
Proof.
  intros cb _ s _. split; [exact Logic.I|]. split; [exact Logic.I|].
  apply Forall_forall. intros; exact Logic.I.
Qed.

Lemma init_sets_initialized s :
  holds (λ _, True) any_step
    (λ s' r, r = Ok tt → initialized s' = true) (init s).
Proof.
  unfold init, _initTrustedPaymasters, fatal, the_relayHubContract.
  holds_walk.
Qed.

Lemma init_again s :
  initialized s = true → init s = Ret s (Throw "_init was already called").
Proof.
  intros E. unfold init, mbind, M_bind, read. simpl. now rewrite E.
Qed.

(** C10. After a call of [init] that returned, a second call throws
    '_init was already called' before any initialization step: it awaits
    and outputs nothing and leaves every field as it was. *)
Theorem init_twice_throws (this : RelayServer) (w : W)
    (t : option Callback) :
  let first := run (init this) w t in
  outcome first = Ok tt →
  ∀ (w' : W) (t' : option Callback),
    let second := run (init (final first)) w' t' in
    outcome second = Throw "_init was already called"
    ∧ trace second = []
    ∧ final second = final first
    ∧ world second = w'.
Proof.
  intros first Hok w' t' second.
  destruct (holds_run _ _ _ (init this) w t (init_sets_initialized this)
              (timer_ok_any t)) as (_ & Hq & _).
  subst second. rewrite (init_again (final first) (Hq Hok)).
  repeat split.
Qed.

End Init.

(** A new server initializes against the demo chain; initializing it
    again throws. *)
Lemma init_twice_throws_witness :
  outcome (run (init (final (run (init newServer) calmWorld None)))
             (world (run (init newServer) calmWorld None)) None)
  = Throw "_init was already called".
Proof.
  assert (Hok : outcome (run (init newServer) calmWorld None) = Ok tt)
    by (vm_compute; reflexivity).
  apply (init_twice_throws newServer calmWorld None Hok
           (world (run (init newServer) calmWorld None)) None).
Defined.

(** ** Admission: the path to [sendTransaction] *)

Section Admission.
Context `{Utils}.

Lemma validateMaxNonce_sends_nothing n s :
  sends_nothing (validateMaxNonce n s).
Proof. unfold sends_nothing, validateMaxNonce. holds_walk. Qed.

Lemma validatePaymasterGasLimits_sends_nothing req s :
  sends_nothing (validatePaymasterGasLimits req s).
Proof.
  unfold sends_nothing, validatePaymasterGasLimits, the_relayHubContract.
  holds_walk.
Qed.

Lemma validateViewCallSucceeds_sends_nothing req b g s :
  sends_nothing (validateViewCallSucceeds req b g s).
Proof.
  unfold sends_nothing, validateViewCallSucceeds, the_relayHubContract.
  holds_walk.
Qed.

End Admission.

Section Refusal.
Context `{Utils} `{Collaborators W}.

Lemma run_out_bind {B} (o : output) (f : unit → M B) s w t :
  run ((out o ≫= f) s) w t
  = before [Output o] (run (f tt s) w (timer_after o t)).
Proof. reflexivity. Qed.

Lemma run_read_bind {A B} (g : RelayServer → A) (f : A → M B) s w t :
  run ((read g ≫= f) s) w t = run (f (g s) s) w t.
Proof. reflexivity. Qed.

Lemma run_sync_bind {A B} (m : M A) (f : A → M B) s s' a w t :
  m s = Ret s' (Ok a) → run ((m ≫= f) s) w t = run (f a s') w t.
Proof. intros E. unfold mbind, M_bind. now rewrite E. Qed.

Lemma run_sync_throw {A B} (m : M A) (f : A → M B) s s' e w t :
  m s = Ret s' (Throw e) →
  run ((m ≫= f) s) w t
  = {| trace := []; final := s'; outcome := Throw e; world := w;
       timer := t |}.
Proof. intros E. unfold mbind, M_bind. now rewrite E. Qed.

Lemma refused_before {A} l (o : Outcome W A) :
  sends l = [] → refused o → refused (before l o).
Proof.
  intros El [Ht Es]. split; [exact Ht|].
  simpl. now rewrite sends_app, El, Es.
Qed.

Lemma refused_check {B} (v : M unit) (f : unit → M B) s w t :
  check_settles v s →
  (v s = Ret s (Ok tt) → refused (run (f tt s) w t)) →
  refused (run ((v ≫= f) s) w t).
Proof.
  intros [E|[m E]] Hk.
  - rewrite (run_sync_bind _ _ _ _ _ _ _ E). auto.
  - rewrite (run_sync_throw _ _ _ _ _ _ _ E). split; [now exists m | reflexivity].
Qed.

Lemma refused_failed_check {B} (v : M unit) (f : unit → M B) s w t :
  (∃ message, v s = Ret s (Throw message)) →
  refused (run ((v ≫= f) s) w t).
Proof.
  intros [m E]. rewrite (run_sync_throw _ _ _ _ _ _ _ E).
  split; [now exists m | reflexivity].
Qed.

Lemma refused_bind {A B} (m : M A) (f : A → M B) s w t :
  sends_nothing (m s) →
  (∀ a, outcome (run (m s) w t) = Ok a →
        refused (run (f a (final (run (m s) w t)))
                   (world (run (m s) w t)) (timer (run (m s) w t)))) →
  refused (run ((m ≫= f) s) w t).
Proof.
  intros Hq Hk. rewrite run_mbind. unfold then_run.
  destruct (sends_nothing_run (m s) w t Hq) as [Es Hx].
  destruct (outcome (run (m s) w t)) as [a|e|code] eqn:E.
  - apply refused_before; auto.
  - split; [now exists e | exact Es].
  - now destruct (Hx code).
Qed.

Lemma refused_failed_stage {A B} (m : M A) (f : A → M B) s w t :
  sends_nothing (m s) → throws (run (m s) w t) →
  refused (run ((m ≫= f) s) w t).
Proof.
  intros Hq [e E]. apply refused_bind; [assumption|].
  intros a Ea. congruence.
Qed.

Lemma validateInputTypes_settles req s : check_settles (validateInputTypes req) s.
Proof.
  unfold check_settles, validateInputTypes.
  destruct (matchesShape req); [left | right; eexists]; reflexivity.
Qed.

Lemma validateInput_settles req s : check_settles (validateInput req) s.
Proof.
  unfold check_settles, validateInput, the_relayHubContract, read, throw.
  unfold mbind, M_bind, mret, M_ret. simpl.
  destruct (relayHubContract s); simpl; [|right; eexists; reflexivity].
  destruct (negb _); simpl; [right; eexists; reflexivity|].
  destruct (negb _); simpl; [right; eexists; reflexivity|].
  destruct (JS.gt _ _); [right; eexists | left]; reflexivity.
Qed.

Lemma validateFees_settles req s : check_settles (validateFees req) s.
Proof.
  unfold check_settles, validateFees, read, throw.
  unfold mbind, M_bind, mret, M_ret. simpl.
  destruct (_isTrustedPaymaster _ _); [left; reflexivity|].
  destruct (JS.lt _ _); simpl; [right; eexists; reflexivity|].
  destruct (toBN _); [|right; eexists; reflexivity].
  destruct (toBN _); [|right; eexists; reflexivity].
  destruct (_ <? _); [right; eexists | left]; reflexivity.
Qed.

(** C1. Whenever [isReady()] is false or one of the validations fails
    (input types, hub, worker and gas price, fees, max nonce, paymaster
    gas limits, view call), [createRelayTransaction] throws and its run
    contains no call of [sendTransaction].  The later validations await
    the collaborators: each is taken where the run reaches it. *)
Theorem createRelayTransaction_refuses_without_sending
    (req : RelayTransactionRequest) (this : RelayServer) (w : W)
    (t : option Callback) :
  let o := run (createRelayTransaction req this) w t in
  let nonce_check :=
    run (validateMaxNonce (RelayMetadata.relayMaxNonce (metadata req)) this)
      w t in
  let limits_check :=
    run (validatePaymasterGasLimits req (final nonce_check))
      (world nonce_check) (timer nonce_check) in
  (isReady this = false →
   outcome o = Throw "relay not ready" ∧ sends (trace o) = [])
  ∧ ((∃ message, validateInputTypes req this = Ret this (Throw message)) →
     refused o)
  ∧ ((∃ message, validateInput req this = Ret this (Throw message)) →
     refused o)
  ∧ ((∃ message, validateFees req this = Ret this (Throw message)) →
     refused o)
  ∧ (throws nonce_check → refused o)
  ∧ (throws limits_check → refused o)
  ∧ (∀ budget gas,
       outcome limits_check = Ok (budget, gas) →
       throws (run (validateViewCallSucceeds req budget gas
                      (final limits_check))
                 (world limits_check) (timer limits_check)) →
       refused o).
Proof.
  intros o nonce_check limits_check.
  subst o. unfold createRelayTransaction.
  rewrite run_out_bind, run_read_bind. cbn [timer_after].
  destruct (isReady this) eqn:Eready; simpl negb; cbv iota.
  2: { repeat split; try (intros; apply refused_before; [reflexivity|]);
       try (split; [eexists|]; reflexivity). }
  rewrite (run_sync_bind (mret tt) _ this this tt) by reflexivity.
  split; [discriminate|].
  assert (Hlog : ∀ B (o : Outcome W B),
             refused o
             → refused (before [Output (log debug
                          ("dump request params: " +:+ JSON_stringify req))] o))
    by (intros; now apply refused_before).
  split; [intros Hf; apply Hlog; now apply refused_failed_check|].
  split.
  { intros Hf. apply Hlog.
    apply refused_check; [apply validateInputTypes_settles|intros _].
    now apply refused_failed_check. }
  split.
  { intros Hf. apply Hlog.
    apply refused_check; [apply validateInputTypes_settles|intros _].
    apply refused_check; [apply validateInput_settles|intros _].
    now apply refused_failed_check. }
  split.
  { intros Hf. apply Hlog.
    apply refused_check; [apply validateInputTypes_settles|intros _].
    apply refused_check; [apply validateInput_settles|intros _].
    apply refused_check; [apply validateFees_settles|intros _].
    apply refused_failed_stage;
      [apply validateMaxNonce_sends_nothing | exact Hf]. }
  split.
  { intros Hf. apply Hlog.
    apply refused_check; [apply validateInputTypes_settles|intros _].
    apply refused_check; [apply validateInput_settles|intros _].
    apply refused_check; [apply validateFees_settles|intros _].
    apply refused_bind; [apply validateMaxNonce_sends_nothing|intros [] _].
    apply refused_failed_stage;
      [apply validatePaymasterGasLimits_sends_nothing | exact Hf]. }
  intros budget gas Eok Hf. apply Hlog.
  apply refused_check; [apply validateInputTypes_settles|intros _].
  apply refused_check; [apply validateInput_settles|intros _].
  apply refused_check; [apply validateFees_settles|intros _].
  apply refused_bind; [apply validateMaxNonce_sends_nothing|intros [] _].
  apply refused_bind;
    [apply validatePaymasterGasLimits_sends_nothing|intros [b g] Eok'].
  fold nonce_check in Eok'. fold limits_check in Eok'.
  rewrite Eok in Eok'. injection Eok' as <- <-.
  apply refused_failed_stage;
    [apply validateViewCallSucceeds_sends_nothing | exact Hf].
Qed.

End Refusal.

(** A server that is not ready refuses a well-formed request. *)
Lemma createRelayTransaction_refuses_without_sending_witness :
  outcome (run (createRelayTransaction goodRequest newServer) calmWorld None)
  = Throw "relay not ready"
  ∧ sends (trace (run (createRelayTransaction goodRequest newServer)
                    calmWorld None)) = [].
Proof.
  apply (proj1 (createRelayTransaction_refuses_without_sending
                  goodRequest newServer calmWorld None)).
  reflexivity.
Defined.

(** ** Replenishing the worker *)

Section Replenish.
Context `{Utils} `{Collaborators W}.



End Replenish.


(** The worker step comes second in a pass: the same pass may first
    withdraw the manager's hub deposit, and then find the manager too
    poor to refill the worker. *)
Example replenishServer_withdraws_then_asks_for_funding :
  let o := run (replenishServer 0 105 lowWorkerServer) poorManagerWorld None in
  map SendTransactionDetails.serverAction (sends (trace o))
  = [DEPOSIT_WITHDRAWAL]
  ∧ map fst (emits (trace o)) = ["fundingNeeded"].
Proof. vm_compute. split; reflexivity. Qed.

(** ** The hint to register again *)


Section RegisterAgain.
Context `{Utils} `{Collaborators W}.


End RegisterAgain.



(** ** The alerted state *)

Section Alerted.
Context `{Utils} `{Collaborators W}.






End Alerted.

Section AlertCleared.
Context `{Utils}.
Variable P : Z * ServerConfigParams * string * string * bool → Prop.
Variable okStep : step → Prop.
Hypothesis plain_ok : ∀ st, plain_step st → okStep st.

Local Hint Resolve init_framed replenishServer_framed
  _shouldRegisterAgain_framed handlePastHubEvents_framed
  setReadyState_framed : holds.


End AlertCleared.

Section AlertedTick.
Context `{Utils} `{Collaborators W}.


End AlertedTick.



(** ** A block is scanned once *)

Section ScannedBlock.
Context `{Utils} `{Collaborators W}.

Lemma quiet_sends_nothing st :
  quiet_step st → sends_nothing_sets_no_timer st.
Proof. destruct st as [? ? ?|[]|]; simpl; auto. Qed.

Lemma init_keeps_scanned_block (P : Z * Z → Prop) (okStep : step → Prop) s :
  (∀ st, quiet_step st → okStep st) →
  P (init_frame s) →
  holds (λ s, P (init_frame s)) okStep anyhow (init s).
Proof.
  intros quiet_ok Hs.
  unfold init, _initTrustedPaymasters, fatal, the_relayHubContract.
  holds_walk.
Qed.

Lemma _worker_initialized_older_block b s :
  initialized s = true → b <= lastScannedBlock s →
  _worker b s = Ret s (Throw "Attempt to scan older block, aborting").
Proof.
  intros Ei Hb. unfold _worker, mbind, M_bind, read, when. simpl.
  rewrite Ei. simpl.
  destruct (Z.leb_spec b (lastScannedBlock s)); [reflexivity | lia].
Qed.

Lemma _worker_older_block b s w t :
  watchdog_or_none t → b <= lastScannedBlock s →
  let o := run (_worker b s) w t in
  sends (trace o) = [] ∧ ∀ hashes, outcome o ≠ Ok hashes.
Proof.
  intros Ht Hb o. subst o.
  destruct (initialized s) eqn:Ei.
  { rewrite _worker_initialized_older_block by assumption.
    split; [reflexivity | discriminate]. }
  unfold _worker. rewrite run_read_bind, Ei. cbn [negb when].
  rewrite run_mbind. unfold then_run.
  destruct (holds_run _ _ _ (init s) w t
              (init_keeps_scanned_block
                 (λ fr, fr.1 = lastScannedBlock s)
                 sends_nothing_sets_no_timer s quiet_sends_nothing eq_refl))
    as (Hf & _ & Hs & _).
  { intros cb E s' Hs'. destruct Ht as [-> | ->]; [discriminate|].
    injection E as <-. split; [exact Hs'|]. split; [exact Logic.I|].
    repeat constructor. }
  apply sends_of_other_calls in Hs.
  destruct (outcome (run (init s) w t)) as [[]|m|code];
    [|split; [exact Hs | discriminate]..].
  rewrite run_read_bind. simpl in Hf.
  destruct (Z.leb_spec b (lastScannedBlock (final (run (init s) w t))));
    [|lia].
  split; [|discriminate].
  simpl. now rewrite app_nil_r.
Qed.

Lemma intervalHandler_scanned_block this w t block w' :
  watchdog_or_none t →
  respond getBlock_latest w = (Resolved block, w') →
  number block <= lastScannedBlock this →
  let o := run (intervalHandler this) w t in
  outcome o = Ok tt
  ∧ sends (trace o) = []
  ∧ (final o = this ∨ final o = set_lastSuccessfulRounds 0 this).
Proof.
  intros Ht E Hb o. subst o.
  unfold intervalHandler, finally, try_catch.
  unfold mbind, M_bind, mret, M_ret, read, assign, out, await, when.
  assert (Es : (lastScannedBlock this <? number block) = false) by lia.
  simpl.
  destruct (devMode (config this)), Ht as [-> | ->]; simpl; rewrite E;
    repeat match goal with
           | |- context [timedOut ?w] => destruct (timedOut w)
           end;
    simpl; rewrite Es; simpl; auto.
Qed.

(** C5, as the code has it.  When the observed latest block number does
    not exceed [lastScannedBlock], the tick returns without invoking the
    worker: it sends nothing and leaves the fields as they were (the
    watchdog apart).  A worker invocation for a block number that does
    not exceed [lastScannedBlock] sends nothing and does not return: it
    throws, after initializing if that was still to be done. *)
Theorem scanned_block_is_not_scanned_again
    (this : RelayServer) (w : W) (t : option Callback) :
  watchdog_or_none t →
  (∀ block w',
     respond getBlock_latest w = (Resolved block, w') →
     number block <= lastScannedBlock this →
     let o := run (intervalHandler this) w t in
     outcome o = Ok tt
     ∧ sends (trace o) = []
     ∧ (final o = this ∨ final o = set_lastSuccessfulRounds 0 this))
  ∧ (∀ blockNumber_,
       blockNumber_ <= lastScannedBlock this →
       let o := run (_worker blockNumber_ this) w t in
       sends (trace o) = [] ∧ ∀ hashes, outcome o ≠ Ok hashes).
Proof.
  intros Ht. split.
  - intros block w' E Hb. eapply intervalHandler_scanned_block; eassumption.
  - intros b Hb. now apply _worker_older_block.
Qed.

End ScannedBlock.

(** The claim as stated fails: the first tick on block 105 finds the
    manager short of funds and returns before the block is recorded as
    scanned; the second tick on the same block number, the funds having
    arrived, handles the block and sends a transfer to the worker. *)
Lemma second_tick_on_same_block_sends :
  let first := run (intervalHandler initializedServer) unfundedWorld None in
  let second := run (intervalHandler (final first)) fundedWorld None in
  blockNow unfundedWorld = blockNow fundedWorld
  ∧ outcome first = Ok tt
  ∧ sends (trace first) = []
  ∧ map SendTransactionDetails.serverAction (sends (trace second))
    = [VALUE_TRANSFER].
Proof. vm_compute. repeat split. Qed.

(** A server that has scanned block 520 polls a chain still at 520. *)
Lemma scanned_block_is_not_scanned_again_witness :
  sends (trace (run (_worker 520 alertedServer) worldAt521 None)) = []
  ∧ ∀ hashes,
      outcome (run (_worker 520 alertedServer) worldAt521 None) ≠ Ok hashes.
Proof.
  apply (proj2 (scanned_block_is_not_scanned_again alertedServer worldAt521
                  None (or_introl eq_refl)) 520).
  vm_compute. discriminate.
Defined.


(** ** The watchdog *)

Section Watchdog.
Context `{Utils} `{Collaborators W}.

Lemma plain_fires_to_zero st : plain_step st → fires_to_zero st.
Proof. destruct st as [? ? ?|[]|]; simpl; auto; contradiction. Qed.

Lemma workerTimeout_zeroes_rounds s :
  lastSuccessfulRounds (workerTimeout s).2 = 0.
Proof. reflexivity. Qed.

Lemma watchdog_output_ok delay :
  output_ok (λ s, (λ _, True) (worker_frame s)) fires_to_zero
    (setTimeout workerTimeout delay).
Proof.
  split; [exact Logic.I|].
  intros cb d [= <- _] s _. split; [exact Logic.I|]. split; [reflexivity|].
  repeat constructor.
Qed.

(** C9. With [devMode] set, a tick sets no timer and no watchdog fires
    during it.  Without it, the tick first arms the watchdog with a delay
    of [readyTimeout]; every expiry during the tick leaves
    [lastSuccessfulRounds] at 0, and an expiry while the latest block is
    awaited does fire. *)
Theorem watchdog_armed_unless_devMode (this : RelayServer) (w : W) :
  let o := run (intervalHandler this) w None in
  (devMode (config this) = true → Forall plain_step (trace o))
  ∧ (devMode (config this) = false →
     (∃ rest,
        trace o
        = Output (setTimeout workerTimeout (readyTimeout (config this)))
            :: rest)
     ∧ Forall fires_to_zero (trace o)
     ∧ (∀ r w',
          respond getBlock_latest w = (r, w') → timedOut w' = true →
          In (TimerFired (set_lastSuccessfulRounds 0 this)) (trace o))).
Proof.
  intros o. split; intros Hdev.
  - assert (Hh : holds (λ s, (λ _, True) (worker_frame s)) plain_step anyhow
                   (intervalHandler this)).
    { apply (intervalHandler_framed (λ _, True) plain_step); [auto | auto |].
      intros E. congruence. }
    destruct (holds_run _ _ _ (intervalHandler this) w None Hh
                (timer_ok_None _ _)) as (_ & _ & Hs & _).
    exact Hs.
  - split; [|split].
    + subst o. unfold intervalHandler, mbind, M_bind, read, when, out.
      simpl. rewrite Hdev. simpl. eexists. reflexivity.
    + assert (Hh : holds (λ s, (λ _, True) (worker_frame s)) fires_to_zero
                     anyhow (intervalHandler this)).
      { apply (intervalHandler_framed (λ _, True) fires_to_zero);
          [apply plain_fires_to_zero | auto |].
        intros _. apply watchdog_output_ok. }
      destruct (holds_run _ _ _ (intervalHandler this) w None Hh
                  (timer_ok_None _ _)) as (_ & _ & Hs & _).
      exact Hs.
    + intros r w' E Hx. subst o.
      unfold intervalHandler, mbind, M_bind, read, when, out, await,
        finally, try_catch.
      simpl. rewrite Hdev. simpl. rewrite E, Hx. simpl. right. right. left.
      reflexivity.
Qed.

End Watchdog.

(** On a chain too slow for [readyTimeout] the watchdog fires during the
    tick of a server that is not in [devMode]. *)
Lemma watchdog_armed_unless_devMode_witness :
  In (TimerFired (set_lastSuccessfulRounds 0 readyServer))
     (trace (run (intervalHandler readyServer) slowWorld None)).
Proof.
  assert (Hd : devMode (config readyServer) = false) by reflexivity.
  assert (E : respond getBlock_latest slowWorld
              = (Resolved {| number := 105; timestamp := 0 |},
                 answered slowWorld)) by reflexivity.
  assert (Hx : timedOut (answered slowWorld) = true) by reflexivity.
  exact (proj2 (proj2 (proj2 (watchdog_armed_unless_devMode readyServer
                                slowWorld) Hd)) _ _ E Hx).
Defined.

(** ** Readiness *)

Section Ready.
Context `{Utils} `{Collaborators W}.

(** [setReadyState] logs the transition and assigns [ready]. *)
Lemma setReadyState_run b s w t :
  let o := run (setReadyState b s) w t in
  outcome o = Ok tt ∧ final o = after_event s (ready_state_set b)
  ∧ world o = w ∧ timer o = t.
Proof.
  intros o. subst o. unfold setReadyState, mbind, M_bind, read, when, assign, out.
  simpl.
  destruct (negb _); simpl; [|auto].
  destruct b; [destruct (_ <? _)|]; simpl; auto.
Qed.

Lemma isReady_spec s :
  isReady s
  = ready s
    && (successfulRoundsForReady (config s) <=? lastSuccessfulRounds s).
Proof.
  unfold isReady.
  destruct (Z.ltb_spec (lastSuccessfulRounds s)
              (successfulRoundsForReady (config s)));
    destruct (Z.leb_spec (successfulRoundsForReady (config s))
                (lastSuccessfulRounds s)); try lia;
    now rewrite ?andb_false_r, ?andb_true_r.
Qed.

Lemma after_events_app s l1 l2 :
  after_events s (l1 ++ l2) = after_events (after_events s l1) l2.
Proof. apply fold_left_app. Qed.

Lemma after_event_config s e : config (after_event s e) = config s.
Proof. now destruct e. Qed.

Lemma after_events_config s history :
  config (after_events s history) = config s.
Proof.
  revert s. unfold after_events.
  induction history as [|e l IH]; intros s; [reflexivity|].
  cbn [fold_left]. now rewrite IH, after_event_config.
Qed.

Lemma incr_bounds x : 0 <= x → 0 <= JS.incr x <= x + 1.
Proof. unfold JS.incr. destruct (x <? 2 ^ 53); lia. Qed.

(** Once zeroed, the counter never exceeds the number of successful
    rounds since. *)
Lemma rounds_counted s history :
  was_zeroed history = true →
  0 <= lastSuccessfulRounds (after_events s history)
    <= successes_since_zeroed history.
Proof.
  induction history as [|e l IH] using rev_ind; [discriminate|].
  unfold was_zeroed, successes_since_zeroed in *.
  rewrite existsb_app, after_events_app, fold_left_app. simpl.
  destruct e; simpl; rewrite ?orb_false_r, ?orb_true_r; try lia.
  - intros Hz. specialize (IH Hz).
    pose proof (incr_bounds (lastSuccessfulRounds (after_events s l))). lia.
  - intros Hz. exact (IH Hz).
Qed.

(** Below [_worker] the counter is assigned by the watchdog only. *)
Lemma _worker_keeps_rounds b s w t v :
  watchdog_or_none t →
  lastSuccessfulRounds s = v ∨ lastSuccessfulRounds s = 0 →
  let o := run (_worker b s) w t in
  lastSuccessfulRounds (final o) = v ∨ lastSuccessfulRounds (final o) = 0.
Proof.
  intros Ht Hs o. subst o.
  destruct (holds_run _ _ _ (_worker b s) w t
              (_worker_framed (rounds_kept v) any_step
                 (λ _ _, Logic.I) b s Hs))
    as (Hf & _).
  - intros cb E s' _. destruct Ht as [-> | ->]; [discriminate|].
    injection E as <-. split; [now right|]. split; [exact Logic.I|].
    repeat constructor.
  - exact Hf.
Qed.

Lemma _workerSemaphore_rounds b s w t v :
  watchdog_or_none t →
  lastSuccessfulRounds s = v ∨ lastSuccessfulRounds s = 0 →
  let o := run (_workerSemaphore b s) w t in
  lastSuccessfulRounds (final o) = v ∨ lastSuccessfulRounds (final o) = 0
  ∨ outcome o = Ok tt
    ∧ (lastSuccessfulRounds (final o) = JS.incr v
       ∨ lastSuccessfulRounds (final o) = JS.incr 0).
Proof.
  intros Ht Hs o. subst o. unfold _workerSemaphore.
  rewrite run_read_bind.
  destruct (_workerSemaphoreOn s); [simpl; tauto|].
  unfold finally, mbind, M_bind, mret, M_ret, assign, when, out.
  cbn [bindP]. rewrite run_finallyP, run_bindP.
  pose proof (_worker_keeps_rounds b (set__workerSemaphoreOn true s) w t v
                Ht Hs) as Hw.
  cbv zeta in Hw. unfold then_run, finally_run.
  destruct (outcome (run (_worker b (set__workerSemaphoreOn true s)) w t))
    as [transactions|m|code].
  - destruct (negb _); simpl; destruct Hw as [-> | ->]; auto.
  - simpl. tauto.
  - simpl. tauto.
Qed.

(** One tick acts on the counter of successful rounds as one of the
    histories of [one_tick]. *)
Lemma intervalHandler_one_tick this w t :
  watchdog_or_none t →
  ∃ history,
    one_tick history
    ∧ lastSuccessfulRounds (final (run (intervalHandler this) w t))
      = lastSuccessfulRounds (after_events this history).
Proof.
  intros Ht.
  assert (Hv : ∀ x,
             x = lastSuccessfulRounds this ∨ x = 0
             ∨ x = JS.incr (lastSuccessfulRounds this) ∨ x = JS.incr 0 →
             ∃ history,
               one_tick history
               ∧ x = lastSuccessfulRounds (after_events this history)).
  { intros x [-> | [-> | [-> | ->]]].
    - exists []. split; [exists [], []; auto | reflexivity].
    - exists [watchdog_expired].
      split; [exists [watchdog_expired], []; auto | reflexivity].
    - exists [tick_succeeded].
      split; [exists [], [tick_succeeded]; auto | reflexivity].
    - exists [watchdog_expired; tick_succeeded].
      split; [exists [watchdog_expired], [tick_succeeded]; auto
             | reflexivity]. }
  apply Hv. clear Hv.
  set (v := lastSuccessfulRounds this).
  assert (Hbody : ∀ t', watchdog_or_none t' →
            let o := run (finally
                            (try_catch
                               (block ← await getBlock_latest;
                                lastScanned ← read lastScannedBlock;
                                if lastScanned <? number block
                                then _workerSemaphore (number block)
                                else mret tt)
                               (λ message,
                                  out (emit "error" message);;
                                  out (log error
                                         ("error in worker: " +:+ message));;
                                  assign (set_lastSuccessfulRounds 0)))
                            (out clearTimeout) this) w t' in
            lastSuccessfulRounds (final o) = v
            ∨ lastSuccessfulRounds (final o) = 0
            ∨ lastSuccessfulRounds (final o) = JS.incr v
            ∨ lastSuccessfulRounds (final o) = JS.incr 0).
  { intros t' Ht' o. subst o.
    unfold finally, try_catch. rewrite run_finallyP, run_catchP.
    assert (Hin : ∀ s t'' w'' (blk : Block),
              watchdog_or_none t'' →
              lastSuccessfulRounds s = v ∨ lastSuccessfulRounds s = 0 →
              let o := run ((lastScanned ← read lastScannedBlock;
                             if lastScanned <? number blk
                             then _workerSemaphore (number blk)
                             else mret tt) s) w'' t'' in
              lastSuccessfulRounds (final o) = v
              ∨ lastSuccessfulRounds (final o) = 0
              ∨ outcome o = Ok tt
                ∧ (lastSuccessfulRounds (final o) = JS.incr v
                   ∨ lastSuccessfulRounds (final o) = JS.incr 0)).
    { intros s t'' w'' blk Ht'' Hs o. subst o. rewrite run_read_bind.
      destruct (_ <? _); [now apply _workerSemaphore_rounds|].
      simpl. tauto. }
    match goal with
    | |- context [catch_run ?o _] =>
        assert (Hawait :
                 lastSuccessfulRounds (final o) = v
                 ∨ lastSuccessfulRounds (final o) = 0
                 ∨ outcome o = Ok tt
                   ∧ (lastSuccessfulRounds (final o) = JS.incr v
                      ∨ lastSuccessfulRounds (final o) = JS.incr 0));
          [|revert Hawait; generalize o; intros o' Hawait]
    end.
    { unfold mbind, M_bind, await. cbn [bindP run].
      destruct (respond getBlock_latest w) as [[blk|m] w'];
        (destruct Ht' as [-> | ->]; [|destruct (timedOut w')]);
        cbn [bindP run final outcome before];
        first [ apply (Hin _ _ _ blk); first [now left | now right]
              | simpl; auto ]. }
    unfold finally_run, catch_run.
    destruct (outcome o') as [[]|m|code] eqn:E;
      unfold mbind, M_bind, out, assign; simpl; rewrite ?E; simpl;
      destruct Hawait as [Hv | [Hv | [Eo [Hv | Hv]]]];
      try discriminate Eo; auto. }
  unfold intervalHandler. rewrite run_read_bind.
  destruct (devMode (config this)); cbn [negb when].
  - rewrite (run_sync_bind (mret tt) _ this this tt) by reflexivity.
    now apply Hbody.
  - rewrite run_out_bind. cbn [final before timer_after].
    apply Hbody. now right.
Qed.

(** C2, as the code has it.  At all times [isReady()] returns
    [ready && lastSuccessfulRounds >= successfulRoundsForReady].  The
    counter starts at [Number.MAX_SAFE_INTEGER]: once a failed or timed-out
    round has zeroed it, [isReady()] returns true only after at least
    [successfulRoundsForReady] consecutive successful rounds have been
    counted. *)
Theorem isReady_after_rounds
    (cfg : ServerConfigParams) (manager worker : PrefixedHexString)
    (history : list RoundEvent) :
  let s := after_events (RelayServer_new cfg manager worker) history in
  isReady s
  = ready s && (successfulRoundsForReady cfg <=? lastSuccessfulRounds s)
  ∧ (isReady s = true →
     was_zeroed history = false
     ∨ successfulRoundsForReady cfg <= successes_since_zeroed history).
Proof.
  intros s. split.
  - rewrite isReady_spec. subst s. now rewrite after_events_config.
  - intros Hr. destruct (was_zeroed history) eqn:Hz; [right | now left].
    rewrite isReady_spec in Hr. subst s.
    rewrite after_events_config in Hr. simpl in Hr.
    apply andb_true_iff in Hr as [_ Hr].
    pose proof (rounds_counted (RelayServer_new cfg manager worker) history Hz).
    lia.
Qed.

End Ready.

(** The claim as stated fails: the first tick of a new server against a
    chain where it is registered and funded makes [isReady()] true,
    although three successful rounds are required and one has run. *)
Lemma ready_after_the_first_tick :
  let o := run (intervalHandler newServer) calmWorld None in
  outcome o = Ok tt
  ∧ isReady (final o) = true
  ∧ successfulRoundsForReady (config newServer) = 3.
Proof. vm_compute. repeat split. Qed.

(** After a failed round, three rounds are needed again. *)
Lemma isReady_after_rounds_witness :
  was_zeroed [ready_state_set true; tick_failed; tick_succeeded;
              tick_succeeded; tick_succeeded] = false
  ∨ successfulRoundsForReady demoConfig
    <= successes_since_zeroed
         [ready_state_set true; tick_failed; tick_succeeded; tick_succeeded;
          tick_succeeded].
Proof.
  apply (proj2 (isReady_after_rounds demoConfig "0xManager" "0xWorker"
                  [ready_state_set true; tick_failed; tick_succeeded;
                   tick_succeeded; tick_succeeded])).
  reflexivity.
Defined.

(** ** What a call ends in: soundness and rules *)

Section Ends.
Context `{Collaborators W}.

Lemma resumed_refl s : resumed s s.
Proof.
  exists (lastSuccessfulRounds s). split; [now destruct s | now left].
Qed.

Lemma resumed_watchdog s : resumed s (workerTimeout s).2.
Proof. exists 0. split; [reflexivity | now right]. Qed.

Lemma watchdog_after o t :
  sets_watchdog_only o → watchdog_or_none t →
  watchdog_or_none (timer_after o t).
Proof.
  destruct o; simpl; try (intros _ Ht; exact Ht).
  - intros ->. now right.
  - intros _ _. now left.
Qed.

Lemma own_steps_Output o l : own_steps (Output o :: l) = Output o :: own_steps l.
Proof. now destruct o as [[]| | | | |]. Qed.

Theorem ends_run {A} (Q : list step → RelayServer → result A → Prop)
    (p : Prog A) w t :
  watchdog_or_none t → ends Q p →
  Q (own_steps (trace (run p w t))) (final (run p w t))
    (outcome (run p w t))
  ∧ watchdog_or_none (timer (run p w t)).
Proof.
  revert Q w t. induction p as [s r|o p IH|X s c k IH]; intros Q w t Ht Hp.
  - simpl. split; assumption.
  - destruct Hp as [Ho Hp].
    destruct (IH _ w (timer_after o t) (watchdog_after _ _ Ho Ht) Hp)
      as [Hq Ht'].
    cbn [run before trace final outcome timer app].
    rewrite own_steps_Output. split; assumption.
  - simpl in Hp. simpl. destruct (respond c w) as [r w'].
    destruct Ht as [-> | ->]; [|destruct (timedOut w')].
    + destruct (IH r s _ w' None (or_introl eq_refl)
                  (Hp r s (resumed_refl s))) as [Hq Ht'].
      simpl. split; assumption.
    + destruct (IH r _ _ w' None (or_introl eq_refl)
                  (Hp r _ (resumed_watchdog s))) as [Hq Ht'].
      simpl. split; assumption.
    + destruct (IH r s _ w' (Some workerTimeout) (or_intror eq_refl)
                  (Hp r s (resumed_refl s))) as [Hq Ht'].
      simpl. split; assumption.
Qed.

Lemma ends_consequence {A} (Q Q' : list step → RelayServer → result A → Prop)
    (p : Prog A) :
  ends Q p → (∀ tr s r, Q tr s r → Q' tr s r) → ends Q' p.
Proof.
  revert Q Q'. induction p as [s r|o p IH|X s c k IH]; intros Q Q' Hp Hq;
    simpl in *.
  - auto.
  - destruct Hp as [Ho Hp]. split; [exact Ho|].
    eapply IH; [exact Hp|]. intros; now apply Hq.
  - intros r s' Hs. eapply IH; [exact (Hp r s' Hs)|]. intros; now apply Hq.
Qed.

Lemma ends_bindP {A B} (Q1 : list step → RelayServer → result A → Prop)
    (Q2 : list step → RelayServer → result B → Prop) (p : Prog A)
    (f : A → M B) :
  ends Q1 p →
  (∀ tr a s, Q1 tr s (Ok a) → ends (λ tr2, Q2 (tr ++ tr2)) (f a s)) →
  (∀ tr s m, Q1 tr s (Throw m) → Q2 tr s (Throw m)) →
  (∀ tr s c, Q1 tr s (Exit c) → Q2 tr s (Exit c)) →
  ends Q2 (bindP p f).
Proof.
  revert Q1 Q2. induction p as [s r|o p IH|X s c k IH];
    intros Q1 Q2 Hp Hf Ht He; simpl in *.
  - destruct r; simpl; auto. exact (Hf [] a s Hp).
  - destruct Hp as [Ho Hp]. split; [exact Ho|].
    eapply IH; [exact Hp|..]; intros; cbn beta; auto.
    exact (Hf (Output o :: tr) a s H0).
  - intros r s' Hs. eapply IH; [exact (Hp r s' Hs)|..]; intros; cbn beta; auto.
    exact (Hf (Called c r :: tr) a s0 H0).
Qed.

Lemma ends_catchP {A} (Q1 Q2 : list step → RelayServer → result A → Prop)
    (p : Prog A) (h : string → M A) :
  ends Q1 p →
  (∀ tr m s, Q1 tr s (Throw m) → ends (λ tr2, Q2 (tr ++ tr2)) (h m s)) →
  (∀ tr s a, Q1 tr s (Ok a) → Q2 tr s (Ok a)) →
  (∀ tr s c, Q1 tr s (Exit c) → Q2 tr s (Exit c)) →
  ends Q2 (catchP p h).
Proof.
  revert Q1 Q2. induction p as [s r|o p IH|X s c k IH];
    intros Q1 Q2 Hp Hh Ho He; simpl in *.
  - destruct r; simpl; auto. exact (Hh [] message s Hp).
  - destruct Hp as [Hw Hp]. split; [exact Hw|].
    eapply IH; [exact Hp|..]; intros; cbn beta; auto.
    exact (Hh (Output o :: tr) m s H0).
  - intros r s' Hs. eapply IH; [exact (Hp r s' Hs)|..]; intros; cbn beta; auto.
    exact (Hh (Called c r :: tr) m s0 H0).
Qed.

Lemma ends_finallyP {A} (Q1 Q2 : list step → RelayServer → result A → Prop)
    (p : Prog A) (f : M unit) :
  ends Q1 p →
  (∀ tr s r, Q1 tr s r → (∀ c, r ≠ Exit c) →
             ends (λ tr2 s' r',
                     Q2 (tr ++ tr2) s'
                        match r' with
                        | Ok _ => r
                        | Throw m => Throw m
                        | Exit c => Exit c
                        end)
               (f s)) →
  (∀ tr s c, Q1 tr s (Exit c) → Q2 tr s (Exit c)) →
  ends Q2 (finallyP p f).
Proof.
  revert Q1 Q2. induction p as [s r|o p IH|X s c k IH];
    intros Q1 Q2 Hp Hf He; simpl in *.
  - assert (Hb : (∀ c, r ≠ Exit c) →
                 ends Q2 (bindP (f s) (λ _ s', Ret s' r))).
    { intros Hr. eapply ends_bindP; [exact (Hf [] s r Hp Hr)|..].
      - intros tr [] s'. simpl. now rewrite app_nil_r.
      - intros tr s' m. simpl. auto.
      - intros tr s' c. simpl. auto. }
    destruct r; simpl; [apply Hb; discriminate..|auto].
  - destruct Hp as [Hw Hp]. split; [exact Hw|].
    eapply IH; [exact Hp|..]; intros; cbn beta; auto.
    exact (Hf (Output o :: tr) s r H0 H1).
  - intros r s' Hs. eapply IH; [exact (Hp r s' Hs)|..]; intros; cbn beta; auto.
    exact (Hf (Called c r :: tr) s0 r0 H0 H1).
Qed.

Lemma steps_after_In fired l st : In st (steps_after fired l) → In st l.
Proof.
  revert fired. induction l as [|x l IH]; intros fired; [auto|].
  destruct x as [X c r|o|s0].
  - simpl. intros [->|Hin]; [now left | right; eauto].
  - destruct o as [[]| | | | |]; simpl;
      try (intros [->|Hin]; [now left | right; now eauto]).
    destruct fired.
    + intros Hin. right. eauto.
    + intros [->|Hin]; [now left | right; eauto].
  - simpl. intros Hin. right. eauto.
Qed.

Lemma own_steps_In l st : In st (own_steps l) → In st l.
Proof. apply steps_after_In. Qed.

Lemma steps_after_omap {B} (f : step → option B) fired l :
  (∀ s, f (TimerFired s) = None) →
  (∀ m, f (Output (log warn m)) = None) →
  omap f (steps_after fired l) = omap f l.
Proof.
  intros Hf Hw. revert fired. induction l as [|x l IH]; intros fired;
    [reflexivity|].
  destruct x as [X c r|[[]| | | | |]|]; simpl; rewrite ?Hf, ?IH; try reflexivity.
  destruct fired; simpl; now rewrite Hw, IH.
Qed.

Lemma sends_own_steps l : sends (own_steps l) = sends l.
Proof. now apply steps_after_omap. Qed.

Lemma emits_own_steps l : emits (own_steps l) = emits l.
Proof. now apply steps_after_omap. Qed.

Lemma errors_logged_own_steps l :
  errors_logged (own_steps l) = errors_logged l.
Proof. now apply steps_after_omap. Qed.

Lemma calls_made_own_steps l : calls_made (own_steps l) = calls_made l.
Proof. now apply steps_after_omap. Qed.

End Ends.

(** A call proved to keep [I] and to take steps in [ok] ends in fields
    that satisfy [I] after steps in [ok]. *)
Lemma holds_ends (I : RelayServer → Prop) (ok : step → Prop) {A}
    (Q : RelayServer → result A → Prop) (p : Prog A) :
  (∀ s s', I s → resumed s s' → I s') →
  (∀ cb d, ¬ ok (Output (setTimeout cb d))) →
  holds I ok Q p →
  ends (λ tr s r, I s ∧ Q s r ∧ Forall ok tr) p.
Proof.
  intros Hres Hset.
  induction p as [s r|o p IH|X s c k IH]; simpl.
  - intros [Hi Hq]. auto.
  - intros [[Ho _] Hp]. split.
    + destruct o; simpl; try exact Logic.I. now destruct (Hset callback delay).
    + eapply ends_consequence; [exact (IH Hp)|].
      intros tr s r (? & ? & ?). auto.
  - intros (Hi & Hc & Hk) r s' Hs.
    eapply ends_consequence; [exact (IH r s' (Hk r s' (Hres s s' Hi Hs)))|].
    intros tr s0 r0 (? & ? & ?). auto.
Qed.

Section EndsRules.

Lemma ends_bind_wp {A B} (Q : list step → RelayServer → result B → Prop)
    (p : Prog A) (f : A → M B) :
  ends (λ tr s r,
          match r with
          | Ok a => ends (λ tr2, Q (tr ++ tr2)) (f a s)
          | Throw m => Q tr s (Throw m)
          | Exit c => Q tr s (Exit c)
          end) p →
  ends Q (bindP p f).
Proof.
  intros Hp. eapply ends_bindP; [exact Hp|..]; intros tr; intros; assumption.
Qed.

Lemma ends_catch_wp {A} (Q : list step → RelayServer → result A → Prop)
    (p : Prog A) (h : string → M A) :
  ends (λ tr s r,
          match r with
          | Throw m => ends (λ tr2, Q (tr ++ tr2)) (h m s)
          | Ok a => Q tr s (Ok a)
          | Exit c => Q tr s (Exit c)
          end) p →
  ends Q (catchP p h).
Proof.
  intros Hp. eapply ends_catchP; [exact Hp|..]; intros tr; intros; assumption.
Qed.

Lemma ends_finally_wp {A} (Q : list step → RelayServer → result A → Prop)
    (p : Prog A) (f : M unit) :
  ends (λ tr s r,
          match r with
          | Exit c => Q tr s (Exit c)
          | _ =>
              ends (λ tr2 s' r',
                      Q (tr ++ tr2) s'
                        match r' with
                        | Ok _ => r
                        | Throw m => Throw m
                        | Exit c => Exit c
                        end)
                (f s)
          end) p →
  ends Q (finallyP p f).
Proof.
  intros Hp. eapply ends_finallyP; [exact Hp|..].
  - intros tr s r Hq Hr. destruct r; [exact Hq..|now destruct (Hr code)].
  - intros tr s c Hq. exact Hq.
Qed.

Lemma ends_for_each {A} (Inv : list step → RelayServer → Prop)
    (body : A → M unit) (l : list A) tr0 s :
  Inv tr0 s →
  (∀ x tr s', Inv tr s' →
     ends (λ tr2 s2 r, match r with
                       | Ok _ => Inv (tr ++ tr2) s2
                       | _ => True
                       end) (body x s')) →
  ends (λ tr2 s2 r, match r with
                     | Ok _ => Inv (tr0 ++ tr2) s2
                     | _ => True
                     end) (for_each l body s).
Proof.
  intros Hi Hb. revert tr0 s Hi. induction l as [|x l IH]; intros tr0 s Hi.
  - simpl. now rewrite app_nil_r.
  - simpl. apply ends_bind_wp.
    eapply ends_consequence; [exact (Hb x tr0 s Hi)|].
    intros tr s' [[]|m|c] Hq; try exact Logic.I.
    eapply ends_consequence; [exact (IH _ _ Hq)|].
    intros tr2 s2 [[]|m|c]; try exact (λ _, Logic.I).
    now rewrite app_assoc.
Qed.

End EndsRules.

(** Projections of the fields through assignments. *)
Ltac fields :=
  cbn [lastScannedBlock lastRefreshBlock ready lastSuccessfulRounds
       managerAddress workerAddress gasPrice _workerSemaphoreOn alerted
       alertedBlock initialized workerTask config
       lastMinedActiveTransaction registrationManager chainId networkId
       relayHubContract trustedPaymastersGasLimits workerBalanceRequired
       set_lastScannedBlock set_lastRefreshBlock set_ready
       set_lastSuccessfulRounds set_gasPrice set__workerSemaphoreOn
       set_alerted set_alertedBlock set_initialized set_workerTask
       set_lastMinedActiveTransaction set_registrationManager set_chainId
       set_networkId set_relayHubContract set_trustedPaymastersGasLimits
       set_workerBalanceRequired] in *.

Ltac ends_expose :=
  unfold mbind, M_bind, mret, M_ret, read, assign, out, await, throw, exit,
    when, try_catch, finally;
  cbn [ends bindP catchP finallyP app].

Create HintDb ends discriminated.

(** Follow a call to its ends: answer each awaited call either way, resume
    with the fields as the watchdog may have left them, follow each
    branch; [leaf] is tried on what is left at an end. *)
Ltac ends_walk leaf :=
  repeat (ends_expose;
          lazymatch goal with
          | |- sets_watchdog_only _ ∧ _ =>
              split; [first [exact Logic.I | reflexivity]|]
          | |- ∀ r s', resumed _ s' → _ =>
              intros [?|?] ? (? & -> & ?)
          | |- ends _ (finallyP ?q _) =>
              first [ let x := stuck_head q in destruct x eqn:?
                    | apply ends_finally_wp ]
          | |- ends _ (catchP ?q _) =>
              first [ let x := stuck_head q in destruct x eqn:?
                    | apply ends_catch_wp ]
          | |- ends _ (bindP ?q _) =>
              first [ let x := stuck_head q in destruct x eqn:?
                    | apply ends_bind_wp ]
          | |- ends _ ?p =>
              first [ let x := stuck_head p in destruct x eqn:?
                    | eapply ends_consequence;
                      [ solve [eauto with ends nocore]
                      | intros ? ? [?|?|?] ? ] ]
          | |- _ => leaf
          end).

(** Reading the transactions off a trace, and finding a step in it. *)
Lemma sends_cons st l :
  sends (st :: l)
  = match sent_by st with Some d => d :: sends l | None => sends l end.
Proof. unfold sends. simpl. now destruct (sent_by st). Qed.

Ltac sends_norm :=
  repeat first [ rewrite sends_app | rewrite sends_cons; cbn [sent_by] ];
  change (sends []) with (@nil SendTransactionDetails.t);
  repeat match goal with
         | E : sends _ = [] |- _ => rewrite E; clear E
         end;
  cbn [app]; rewrite ?app_nil_r.

Ltac step_in :=
  repeat first [ left; reflexivity | right | apply in_or_app; right ].

Ltac hyp_in :=
  solve [ repeat first [ assumption
                       | right
                       | apply in_or_app; first [left; assumption | right] ] ].

(** ** The gas limits of a paymaster *)

Section GasLimits.
Context `{Utils} `{Collaborators W}.

(** X1. When [validatePaymasterGasLimits] returns, the acceptance budget
    it returns exceeds [config.maxAcceptanceBudget] only for a paymaster
    found among the trusted ones (under its address as given, or
    lower-cased); for any other paymaster it is exactly
    [config.maxAcceptanceBudget], whatever smaller budget the paymaster
    declares.  The hub was asked the charge for exactly the gas that is
    returned, and the paymaster's hub balance covers that charge. *)
Theorem validatePaymasterGasLimits_budget_and_charge
    (req : RelayTransactionRequest) (this : RelayServer) (w : W)
    (t : option Callback) :
  watchdog_or_none t →
  let relayData := RelayRequest.relayData (relayRequest req) in
  let paymaster := RelayData.paymaster relayData in
  let o := run (validatePaymasterGasLimits req this) w t in
  ∀ budget gas,
    outcome o = Ok (budget, gas) →
    (∀ b, budget = Some b → maxAcceptanceBudget (config this) < b →
          is_Some (trustedPaymastersGasLimits this !! paymaster)
          ∨ _isTrustedPaymaster this paymaster = true)
    ∧ (trustedPaymastersGasLimits this !! paymaster = None →
       _isTrustedPaymaster this paymaster = false →
       budget = Some (maxAcceptanceBudget (config this)))
    ∧ ∃ charge balance,
        In (Called (hub_calculateCharge gas relayData) (Resolved charge))
           (trace o)
        ∧ In (Called (hub_balanceOf paymaster) (Resolved balance)) (trace o)
        ∧ charge <= balance.
Proof.
  intros Ht relayData paymaster o budget gas.
  pose proof (ends_run
    (λ tr s r, ∀ budget gas,
       r = Ok (budget, gas) →
       (∀ b, budget = Some b → maxAcceptanceBudget (config this) < b →
             is_Some (trustedPaymastersGasLimits this !! paymaster)
             ∨ _isTrustedPaymaster this paymaster = true)
       ∧ (trustedPaymastersGasLimits this !! paymaster = None →
          _isTrustedPaymaster this paymaster = false →
          budget = Some (maxAcceptanceBudget (config this)))
       ∧ ∃ charge balance,
           In (Called (hub_calculateCharge gas relayData) (Resolved charge)) tr
           ∧ In (Called (hub_balanceOf paymaster) (Resolved balance)) tr
           ∧ charge <= balance)
    (validatePaymasterGasLimits req this) w t Ht) as Hrun.
  intros Eo. destruct Hrun as [Hq _].
  - unfold validatePaymasterGasLimits, the_relayHubContract.
    fold relayData. fold paymaster.
    ends_walk ltac:(idtac).
    all: intros ? ? [= <- <-].
    all: (split; [|split]);
      [ .. | eexists _, _; split; [simpl; eauto 10|split; [simpl; eauto 10|]];
             match goal with E : (_ <? _) = false |- _ => apply Z.ltb_ge in E; exact E end ].
    all: unfold _isTrustedPaymaster, id in *; fields.
    all: try (intros; left; eexists; reflexivity).
    all: try (intros [=]).
    all: try (intros b [= <-] Hb; lia).
    all: try (intros; reflexivity).
    + intros b _ _. right.
      match goal with E : negb _ = false |- _ =>
        apply negb_false_iff in E; exact E end.
    + intros Hu.
      match goal with E : negb _ = false |- _ =>
        rewrite Hu in E; discriminate E end.
  - destruct (Hq budget gas Eo) as (Hb & Hu & charge & balance & H1 & H2 & Hle).
    split; [exact Hb|]. split; [exact Hu|].
    exists charge, balance. auto using own_steps_In.
Qed.

End GasLimits.

(** An untrusted paymaster that declares a budget of 150000 is given the
    server's 200000. *)
Lemma validatePaymasterGasLimits_budget_and_charge_witness :
  Some 200000 = Some (maxAcceptanceBudget (config readyServer)).
Proof.
  assert (Eo : outcome (run (validatePaymasterGasLimits goodRequest readyServer)
                          calmWorld None)
               = Ok (Some 200000, 410000))
    by (vm_compute; reflexivity).
  apply (proj1 (proj2 (validatePaymasterGasLimits_budget_and_charge
                         goodRequest readyServer calmWorld None
                         (or_introl eq_refl) (Some 200000) 410000 Eo)));
    reflexivity.
Defined.

(** ** What the methods below a tick keep and send *)

Ltac kept_side :=
  solve [ assumption | exact Logic.I | reflexivity | discriminate
        | split; [ exact Logic.I | intros ? ? [=] ]
        | intros ?; first [ exact Logic.I | reflexivity ]
        | match goal with
          | Hq : ∀ st, quiet_step st → ?ok st |- ?ok _ =>
              apply Hq; first [ exact Logic.I | reflexivity ]
          | Hq : ∀ st, quiet_step st → ?ok st |- output_ok _ ?ok _ =>
              split; [ apply Hq; exact Logic.I | intros ? ? [=] ]
          | Hr : ∀ d r, _ → ?ok (Called (sendTransaction d) r)
            |- ?ok (Called (sendTransaction _) _) =>
              apply Hr; unfold replenishment, id; cbn;
              repeat match goal with
                     | Ha : ∀ s, _ → managerAddress s = _ ∧ _,
                       Hp : _ (tick_frame ?s) |- _ =>
                         let Em := fresh in
                         let Ew := fresh in
                         destruct (Ha s Hp) as [Em Ew];
                         rewrite ?Em, ?Ew; clear Hp Em Ew
                     end;
              repeat split;
              first [ solve [left; repeat split; eauto]
                    | solve [right; repeat split; eauto] ]
          | Hs : ∀ s, ?P (tick_frame s) → ?P (tick_frame (set_lastScannedBlock _ s))
            |- ?P _ => apply Hs; assumption
          end
        | simpl; auto
        | simpl in *; congruence ].

Ltac kept_walk :=
  repeat (holds_expose;
          lazymatch goal with
          | |- _ ∧ _ => split
          | |- ∀ _, _ => intro
          | |- holds _ _ _ (bindP (for_each _ _ _) _) =>
              eapply holds_bindP;
              [ apply holds_for_each; [ | intros ? ? ? ]
              | intros [] ? ? _ | intros ? ? ? _ | intros ? ? ? _ ]
          | |- holds _ _ _ (for_each _ _ _) =>
              apply holds_for_each; [ | intros ? ? ? ]
          | |- holds _ _ _ (finallyP ?q _) =>
              first
                [ let x := stuck_head q in destruct x eqn:?
                | eapply (holds_finallyP _ _ anyhow);
                  [ | intros ? ? ? _ _ | intros ? ? ? | intros ? ? ? _ ] ]
          | |- holds _ _ _ (catchP ?q _) =>
              first
                [ let x := stuck_head q in destruct x eqn:?
                | eapply (holds_catchP _ _ anyhow);
                  [ | intros ? ? ? _ | intros ? ? ? _ | intros ? ? ? _ ] ]
          | |- holds _ _ _ ?p =>
              first
                [ let x := stuck_head p in destruct x eqn:?
                | eapply holds_bindP;
                  [ solve [eauto with holds nocore]
                  | intros ? ? ? _ | intros ? ? ? _ | intros ? ? ? _ ]
                | eapply holds_consequence;
                  [ solve [eauto with holds nocore] | intros ? ? ? _ ] ]
          | |- _ => kept_side
          end).

Section Kept.
Context `{Utils}.
Variable P : Z * string * string * ServerConfigParams * bool → Prop.
Variable okStep : step → Prop.
Hypothesis quiet_ok : ∀ st, quiet_step st → okStep st.

Local Abbreviation kept := (holds (λ s, P (tick_frame s)) okStep anyhow).

Lemma init_kept s : P (tick_frame s) → kept (init s).
Proof.
  intros Hs.
  unfold init, _initTrustedPaymasters, fatal, the_relayHubContract.
  kept_walk.
Qed.

Lemma _shouldRegisterAgain_kept b events s :
  P (tick_frame s) → kept (_shouldRegisterAgain b events s).
Proof.
  intros Hs.
  unfold _shouldRegisterAgain, _getLatestTxBlockNumber, _queryLatestActiveEvent.
  kept_walk.
Qed.

Lemma handlePastHubEvents_kept b events s :
  P (tick_frame s) → kept (handlePastHubEvents b events s).
Proof.
  intros Hs.
  unfold handlePastHubEvents, _handleTransactionRejectedByPaymasterEvent.
  kept_walk.
Qed.

Lemma setReadyState_kept b s : P (tick_frame s) → kept (setReadyState b s).
Proof. intros Hs. unfold setReadyState. kept_walk. Qed.

Lemma _refreshGasPrice_kept s : P (tick_frame s) → kept (_refreshGasPrice s).
Proof. intros Hs. unfold _refreshGasPrice. kept_walk. Qed.

Lemma validateMaxNonce_kept n s :
  P (tick_frame s) → kept (validateMaxNonce n s).
Proof. intros Hs. unfold validateMaxNonce. kept_walk. Qed.

Lemma validatePaymasterGasLimits_kept req s :
  P (tick_frame s) → kept (validatePaymasterGasLimits req s).
Proof.
  intros Hs. unfold validatePaymasterGasLimits, the_relayHubContract.
  kept_walk.
Qed.

Lemma validateViewCallSucceeds_kept req budget gas s :
  P (tick_frame s) → kept (validateViewCallSucceeds req budget gas s).
Proof.
  intros Hs. unfold validateViewCallSucceeds, the_relayHubContract.
  kept_walk.
Qed.

Section Replenishing.
Variable currentBlock : Z.
Variables manager worker : address.
Hypothesis addresses :
  ∀ s, P (tick_frame s) → managerAddress s = manager ∧ workerAddress s = worker.
Hypothesis replenish_ok :
  ∀ d r,
    replenishment currentBlock manager worker d →
    okStep (Called (sendTransaction d) r).

Lemma replenishServer_kept i s :
  P (tick_frame s) → kept (replenishServer i currentBlock s).
Proof.
  intros Hs.
  unfold replenishServer, replenishServer_worker, getManagerBalance,
    getWorkerBalance, set_workerBalance, the_relayHubContract.
  kept_walk.
Qed.

Hypothesis scan_ok :
  ∀ s, P (tick_frame s) → P (tick_frame (set_lastScannedBlock currentBlock s)).

Local Hint Resolve init_kept replenishServer_kept _shouldRegisterAgain_kept
  handlePastHubEvents_kept setReadyState_kept _refreshGasPrice_kept : holds.

Lemma _handleChanges_kept s :
  P (tick_frame s) → kept (_handleChanges currentBlock s).
Proof.
  intros Hs.
  unfold _handleChanges, getAllHubEventsSinceLastScan,
    _boostStuckPendingTransactions, _boostStuckTransactionsForManager,
    _boostStuckTransactionsForWorker, getWorkerBalance.
  kept_walk.
Qed.

Local Hint Resolve _handleChanges_kept : holds.

Lemma _worker_kept s : P (tick_frame s) → kept (_worker currentBlock s).
Proof. intros Hs. unfold _worker. kept_walk. Qed.

End Replenishing.
End Kept.

Lemma kept_ends (P : Z * string * string * ServerConfigParams * bool → Prop)
    (ok : step → Prop) {A} (p : Prog A) :
  (∀ cb d, ¬ ok (Output (setTimeout cb d))) →
  holds (λ s, P (tick_frame s)) ok anyhow p →
  ends (λ tr s r, P (tick_frame s) ∧ Forall ok tr) p.
Proof.
  intros Hset Hp.
  eapply ends_consequence.
  - apply (holds_ends (λ s, P (tick_frame s)) ok anyhow p); [|exact Hset|exact Hp].
    intros s s' Hs (z & -> & _). exact Hs.
  - intros tr s r (Hs & _ & Hok). split; assumption.
Qed.

Lemma quiet_sends_only allowed st : quiet_step st → sends_only allowed st.
Proof.
  destruct st as [X c r|o|s]; simpl; auto.
  destruct c; simpl; first [discriminate | auto].
Qed.

Lemma sends_only_sends allowed l :
  Forall (sends_only allowed) l → Forall allowed (sends l).
Proof.
  induction 1 as [|st l Hst _ IH]; [constructor|].
  destruct st as [X c r|o|s]; simpl; try exact IH.
  destruct c; simpl; first [exact IH | constructor; assumption].
Qed.

Lemma sends_only_no_timer allowed cb d :
  ¬ sends_only allowed (Output (setTimeout cb d)).
Proof. intros []. Qed.

(** ** One tick *)

Section Tick.
Context `{Utils} `{Collaborators W}.

(** The frame of a tick on block [b] started with [lastScannedBlock = v]. *)
Local Abbreviation scanning v b this :=
  (λ fr : Z * string * string * ServerConfigParams * bool,
     ∃ l, fr = (l, managerAddress this, workerAddress this, config this,
                _workerSemaphoreOn this)
          ∧ (l = v ∨ l = b)).

Local Abbreviation replenishing b this :=
  (sends_only (replenishment b (managerAddress this) (workerAddress this))).

Lemma scanning_start v b this s :
  tick_frame s = tick_frame this → lastScannedBlock this = v →
  scanning v b this (tick_frame s).
Proof.
  intros -> <-. exists (lastScannedBlock this). split; [reflexivity | now left].
Qed.

Lemma init_ends v b this s :
  scanning v v this (tick_frame s) →
  ends (λ tr s' r,
          scanning v v this (tick_frame s') ∧ Forall (replenishing b this) tr)
    (init s).
Proof.
  intros Hs.
  apply (kept_ends (scanning v v this)); [apply sends_only_no_timer|].
  apply (init_kept (scanning v v this)); [apply quiet_sends_only | exact Hs].
Qed.

Lemma _handleChanges_ends v b this s :
  scanning v b this (tick_frame s) →
  ends (λ tr s' r,
          scanning v b this (tick_frame s') ∧ Forall (replenishing b this) tr)
    (_handleChanges b s).
Proof.
  intros Hs.
  apply (kept_ends (scanning v b this)); [apply sends_only_no_timer|].
  apply (_handleChanges_kept (scanning v b this) _ (quiet_sends_only _) b
           (managerAddress this) (workerAddress this)).
  - intros s0 (l & [= _ -> -> _ _] & _). split; reflexivity.
  - intros d r Hd. exact Hd.
  - intros s0 (l & [= _ Em Ew Ec Es] & _). exists b.
    split; [|now right]. unfold tick_frame. simpl. now rewrite Em, Ew, Ec, Es.
  - exact Hs.
Qed.

Lemma _worker_ends b this :
  ends (λ tr s r,
          (∃ l, tick_frame s
                = (l, managerAddress this, workerAddress this, config this,
                   _workerSemaphoreOn this)
                ∧ (l = lastScannedBlock this
                   ∨ l = b ∧ lastScannedBlock this < b))
          ∧ Forall (replenishing b this) tr)
    (_worker b this).
Proof.
  assert (Hrest : ∀ tr s,
            tick_frame s = tick_frame this →
            Forall (replenishing b this) tr →
            ends (λ tr2 s' (r : result (list PrefixedHexString)),
                    (∃ l, tick_frame s'
                          = (l, managerAddress this, workerAddress this,
                             config this, _workerSemaphoreOn this)
                          ∧ (l = lastScannedBlock this
                             ∨ l = b ∧ lastScannedBlock this < b))
                    ∧ Forall (replenishing b this) (tr ++ tr2))
              ((lastScanned ← read lastScannedBlock;
                (if b <=? lastScanned
                 then throw "Attempt to scan older block, aborting"
                 else mret tt);;
                this ← read id;
                if negb (_shouldRefreshState this b)
                then mret []
                else
                  assign (set_lastRefreshBlock b);;
                  _refreshGasPrice;;
                  balanceSatisfied ← await refreshBalance;
                  if negb balanceSatisfied
                  then setReadyState false;; mret []
                  else _handleChanges b) s)).
  { intros tr s Es Htr.
    assert (El : lastScannedBlock s = lastScannedBlock this)
      by (injection Es; auto).
    unfold _refreshGasPrice, setReadyState.
    ends_walk ltac:(idtac).
    all: try (eapply ends_consequence;
              [ apply (_handleChanges_ends (lastScannedBlock this) b this);
                exists (lastScannedBlock this); split; [|now left];
                unfold tick_frame in *; fields; exact Es
              | intros tr' s' r' [(l' & Es' & Hl') Htr'] ]).
    all: split;
      [ eexists; split;
        [ first [ exact Es' | unfold tick_frame in *; fields; exact Es ]
        | try (left; congruence);
          try (destruct Hl' as [-> | ->]; [now left | right; split; [reflexivity | lia]]) ]
      | rewrite ?Forall_app; repeat split; try assumption;
        repeat constructor; try assumption ]. }
  unfold _worker. unfold mbind at 1, M_bind at 1, read at 1. cbn [bindP].
  unfold mbind at 1, M_bind at 1.
  destruct (initialized this); cbn [negb when].
  - apply (Hrest [] this eq_refl). constructor.
  - apply ends_bind_wp. eapply ends_consequence;
      [apply (init_ends (lastScannedBlock this) b this);
       apply scanning_start; reflexivity|].
    intros tr s [[]|m|c] [(l & Es & Hl) Htr].
    + apply (Hrest tr s); [|exact Htr].
      rewrite Es. destruct Hl as [-> | ->]; reflexivity.
    + split; [exists l; split; [exact Es | left; tauto] | exact Htr].
    + split; [exists l; split; [exact Es | left; tauto] | exact Htr].
Qed.

Lemma _workerSemaphore_ends b this :
  ends (λ tr s r,
          (∃ l, tick_frame s
                = (l, managerAddress this, workerAddress this, config this,
                   match r with
                   | Exit _ => true
                   | _ => _workerSemaphoreOn this
                   end)
                ∧ (l = lastScannedBlock this
                   ∨ l = b ∧ lastScannedBlock this < b))
          ∧ Forall (replenishing b this) tr)
    (_workerSemaphore b this).
Proof.
  unfold _workerSemaphore.
  ends_walk ltac:(idtac).
  - split; [|repeat constructor].
    exists (lastScannedBlock this). split; [|now left].
    unfold tick_frame. now rewrite Heqb0.
  - eapply ends_consequence;
      [apply (_worker_ends b (set__workerSemaphoreOn true this))|].
    intros tr s r [(l & Es & Hl) Htr]. fields.
    destruct r as [hashes|m|c]; ends_walk ltac:(idtac).
    all: split;
      [ exists l; split; [|exact Hl];
        unfold tick_frame in *; fields;
        injection Es as -> -> -> -> ?; congruence
      | rewrite ?Forall_app; repeat split; try assumption;
        repeat constructor ].
Qed.

Lemma intervalHandler_ends this :
  ends (λ tr s r,
          (∀ m, r ≠ Throw m)
          ∧ managerAddress s = managerAddress this
          ∧ workerAddress s = workerAddress this
          ∧ config s = config this
          ∧ ((∀ c, r ≠ Exit c) →
             _workerSemaphoreOn s = _workerSemaphoreOn this)
          ∧ (lastScannedBlock s = lastScannedBlock this
             ∨ ∃ block,
                 In (Called getBlock_latest (Resolved block)) tr
                 ∧ lastScannedBlock s = number block
                 ∧ lastScannedBlock this < number block)
          ∧ ∀ d, In d (sends tr) →
                 ∃ block,
                   In (Called getBlock_latest (Resolved block)) tr
                   ∧ replenishment (number block) (managerAddress this)
                       (workerAddress this) d)
    (intervalHandler this).
Proof.
  unfold intervalHandler.
  ends_walk ltac:(idtac).
  all: try (eapply ends_consequence;
            [ apply _workerSemaphore_ends
            | intros tr s r [(l & Es & Hl) Htr];
              apply sends_only_sends in Htr;
              unfold tick_frame in Es; fields;
              injection Es as El Em Ew Ec Es;
              destruct r as [[]|m|c]; ends_walk ltac:(idtac) ]).
  all: fields;
    repeat match goal with
           | |- _ ∧ _ => split
           | |- sets_watchdog_only _ => exact Logic.I
           | |- ∀ m : string, _ ≠ _ => discriminate
           | |- (∀ c : Z, _ ≠ _) → _ => intros Hc
           end;
    try congruence;
    try (exfalso; eapply Hc; reflexivity);
    try (left; reflexivity).
  all: try (rewrite El;
            destruct Hl as [Hl | [Hl Hlt]];
            [ left; exact Hl
            | right; exists x; split; [simpl; auto | split; assumption] ]).
  all: intros d Hd; unfold sends in *; simpl in Hd;
    rewrite ?omap_app in Hd; simpl in Hd; rewrite ?app_nil_r in Hd;
    first [ now destruct Hd
          | exists x; split; [simpl; auto|];
            exact (proj1 (List.Forall_forall _ _) Htr d Hd) ].
Qed.


(** X3. A tick never moves [lastScannedBlock] backwards: it leaves it as
    it was, or sets it to the number of the latest block it fetched, which
    is then greater. *)
Theorem intervalHandler_scans_forward (this : RelayServer) (w : W)
    (t : option Callback) :
  watchdog_or_none t →
  let o := run (intervalHandler this) w t in
  lastScannedBlock (final o) = lastScannedBlock this
  ∨ ∃ block,
      In (Called getBlock_latest (Resolved block)) (trace o)
      ∧ lastScannedBlock (final o) = number block
      ∧ lastScannedBlock this < number block.
Proof.
  intros Ht o.
  destruct (ends_run _ _ w t Ht (intervalHandler_ends this))
    as [(_ & _ & _ & _ & _ & Hscan & _) _].
  destruct Hscan as [E | (block & Hin & E & Hlt)]; [now left | right].
  exists block. split; [now apply own_steps_In | split; assumption].
Qed.

(** X4. The transactions a tick itself hands to [sendTransaction] are
    replenishments: each is signed by the manager, stamped with the number
    of the latest block the tick fetched, and is either the withdrawal of
    the manager's hub deposit or a transfer to the worker. *)
Theorem intervalHandler_sends_replenishments_only (this : RelayServer)
    (w : W) (t : option Callback) :
  watchdog_or_none t →
  let o := run (intervalHandler this) w t in
  ∀ d, In d (sends (trace o)) →
       ∃ block,
         In (Called getBlock_latest (Resolved block)) (trace o)
         ∧ replenishment (number block) (managerAddress this)
             (workerAddress this) d.
Proof.
  intros Ht o d Hd.
  destruct (ends_run _ _ w t Ht (intervalHandler_ends this))
    as [(_ & _ & _ & _ & _ & _ & Hsends) _].
  rewrite sends_own_steps in Hsends.
  destruct (Hsends d Hd) as (block & Hin & Hrep).
  exists block. split; [now apply own_steps_In | exact Hrep].
Qed.

(** X5. A tick leaves the two addresses and the configuration as they
    were, and, unless the process exits, the semaphore as it found it: a
    worker that started releases it however it ends. *)
Theorem intervalHandler_releases_semaphore (this : RelayServer) (w : W)
    (t : option Callback) :
  watchdog_or_none t →
  let o := run (intervalHandler this) w t in
  managerAddress (final o) = managerAddress this
  ∧ workerAddress (final o) = workerAddress this
  ∧ config (final o) = config this
  ∧ ((∀ code, outcome o ≠ Exit code) →
     _workerSemaphoreOn (final o) = _workerSemaphoreOn this).
Proof.
  intros Ht o.
  destruct (ends_run _ _ w t Ht (intervalHandler_ends this))
    as [(_ & Hm & Hw & Hc & Hs & _) _].
  auto.
Qed.

End Tick.

(** The first tick of a new server on the demo chain. *)
Lemma intervalHandler_scans_forward_witness :
  lastScannedBlock (final (run (intervalHandler newServer) calmWorld None))
  = lastScannedBlock newServer
  ∨ ∃ block,
      In (Called getBlock_latest (Resolved block))
         (trace (run (intervalHandler newServer) calmWorld None))
      ∧ lastScannedBlock
          (final (run (intervalHandler newServer) calmWorld None))
        = number block
      ∧ lastScannedBlock newServer < number block.
Proof.
  exact (intervalHandler_scans_forward newServer calmWorld None
           (or_introl eq_refl)).
Defined.

(** A tick at block 105 that finds the worker at 50 sends it 250 from the
    manager. *)
Lemma intervalHandler_sends_replenishments_only_witness :
  ∃ block,
    In (Called getBlock_latest (Resolved block))
       (trace (run (intervalHandler readyServer) fundedWorld None))
    ∧ replenishment (number block) "0xManager" "0xWorker"
        {| SendTransactionDetails.signer := "0xManager";
           SendTransactionDetails.serverAction := VALUE_TRANSFER;
           SendTransactionDetails.destination := "0xWorker";
           SendTransactionDetails.value := Some 250;
           SendTransactionDetails.creationBlockNumber := 105;
           SendTransactionDetails.gasLimit := 21000;
           SendTransactionDetails.method := None;
           SendTransactionDetails.gasPrice := None |}.
Proof.
  apply (intervalHandler_sends_replenishments_only readyServer fundedWorld
           None (or_introl eq_refl)).
  vm_compute. left. reflexivity.
Defined.

(** The first tick of a new server releases the semaphore it took. *)
Lemma intervalHandler_releases_semaphore_witness :
  _workerSemaphoreOn (final (run (intervalHandler newServer) calmWorld None))
  = false.
Proof.
  apply (intervalHandler_releases_semaphore newServer calmWorld None
           (or_introl eq_refl)).
  intros code. vm_compute. discriminate.
Defined.

(** ** A tick that does not refresh *)

Section SkippedRefresh.
Context `{Utils} `{Collaborators W}.

Lemma _worker_skips_refresh b this :
  initialized this = true →
  lastScannedBlock this < b →
  _shouldRefreshState this b = false →
  _worker b this = Ret this (Ok []).
Proof.
  intros Ei Hb Er. unfold _worker, mbind, M_bind, read, when. simpl.
  rewrite Ei. simpl.
  destruct (Z.leb_spec b (lastScannedBlock this)); [lia|]. simpl.
  unfold id. now rewrite Er.
Qed.

(** X6. A tick on a newer block for an initialized server that is ready
    and refreshed its state less than [refreshStateTimeoutBlocks] blocks
    ago awaits nothing but the latest block: the block is not recorded as
    scanned and no field changes, except that the round is counted as a
    successful one. *)
Theorem intervalHandler_skips_refresh (this : RelayServer) (w w' : W)
    (block : Block) :
  respond getBlock_latest w = (Resolved block, w') →
  timedOut w' = false →
  initialized this = true →
  _workerSemaphoreOn this = false →
  lastScannedBlock this < number block →
  _shouldRefreshState this (number block) = false →
  let o := run (intervalHandler this) w None in
  outcome o = Ok tt
  ∧ calls_made (trace o) = [Call getBlock_latest]
  ∧ final o
    = set_lastSuccessfulRounds (JS.incr (lastSuccessfulRounds this)) this.
Proof.
  intros E Et Ei Es Hb Er o. subst o.
  assert (Hlt : (lastScannedBlock this <? number block) = true) by lia.
  unfold intervalHandler, _workerSemaphore, finally, try_catch.
  unfold mbind, M_bind, mret, M_ret, read, assign, out, await, when.
  simpl. destruct (devMode (config this)); simpl; rewrite E; rewrite ?Et; simpl;
    rewrite Hlt, Es; simpl;
    rewrite (_worker_skips_refresh (number block)
               (set__workerSemaphoreOn true this)) by assumption;
    simpl; (split; [reflexivity|]); (split; [reflexivity|]);
    destruct this; simpl in *; subst; reflexivity.
Qed.

End SkippedRefresh.

(** A server that refreshed at block 520 ticks at block 521. *)
Lemma intervalHandler_skips_refresh_witness :
  outcome (run (intervalHandler alertedServer) worldAt521 None) = Ok tt
  ∧ calls_made (trace (run (intervalHandler alertedServer) worldAt521 None))
    = [Call getBlock_latest]
  ∧ final (run (intervalHandler alertedServer) worldAt521 None)
    = set_lastSuccessfulRounds
        (JS.incr (lastSuccessfulRounds alertedServer)) alertedServer.
Proof.
  apply (intervalHandler_skips_refresh alertedServer worldAt521
           (answered worldAt521) {| number := 521; timestamp := 0 |});
    reflexivity.
Defined.

(** ** A replenishment pass *)

Section ReplenishmentPass.
Context `{Utils} `{Collaborators W}.

Lemma replenishServer_ends i b this :
  ends (λ tr s r,
          (map SendTransactionDetails.serverAction (sends tr) = []
           ∨ map SendTransactionDetails.serverAction (sends tr)
             = [DEPOSIT_WITHDRAWAL]
           ∨ map SendTransactionDetails.serverAction (sends tr)
             = [VALUE_TRANSFER]
           ∨ map SendTransactionDetails.serverAction (sends tr)
             = [DEPOSIT_WITHDRAWAL; VALUE_TRANSFER])
          ∧ Forall (replenishment b (managerAddress this)
                      (workerAddress this)) (sends tr)
          ∧ (∀ d, In d (sends tr) →
                  SendTransactionDetails.serverAction d = DEPOSIT_WITHDRAWAL →
                  relayHubContract this
                  = Some (SendTransactionDetails.destination d)
                  ∧ ∃ managerEthBalance managerHubBalance,
                      In (Called (getBalance (managerAddress this))
                            (Resolved managerEthBalance)) tr
                      ∧ In (Called (hub_balanceOf (managerAddress this))
                              (Resolved managerHubBalance)) tr
                      ∧ In (Called (isActionPending DEPOSIT_WITHDRAWAL None)
                              (Resolved false)) tr
                      ∧ managerEthBalance
                        < managerTargetBalance (config this)
                      ∧ minHubWithdrawalBalance (config this)
                        <= managerHubBalance
                      ∧ SendTransactionDetails.method d
                        = Some (withdraw managerHubBalance
                                  (managerAddress this)))
          ∧ (∀ hashes, r = Ok hashes → hashes = sent_hashes tr))
    (replenishServer i b this).
Proof.
  unfold replenishServer, replenishServer_worker, getManagerBalance,
    getWorkerBalance, set_workerBalance, the_relayHubContract.
  ends_walk ltac:(idtac).
  all: unfold id in *; fields; unfold sends, sent_hashes; simpl.
  all: split; [auto 6|].
  all: split;
    [ repeat (apply Forall_cons; split;
              [ unfold replenishment; simpl; repeat split;
                first [ solve [left; repeat split; eauto]
                      | solve [right; repeat split; eauto] ] | ]);
      apply Forall_nil; exact Logic.I
    | ].
  all: split; [|intros ? [= <-]; reflexivity].
  all: intros d Hd Ha; repeat destruct Hd as [<-|Hd]; try destruct Hd;
    simpl in Ha; try discriminate Ha.
  all: repeat match goal with
              | E : _ && _ = true |- _ => apply andb_true_iff in E as [? ?]
              | E : negb ?b = true |- _ => destruct b; [discriminate E|clear E]
              | E : (_ <? _) = true |- _ => apply Z.ltb_lt in E
              | E : (_ <=? _) = true |- _ => apply Z.leb_le in E
              end.
  all: split; [simpl; congruence|].
  all: eexists _, _; split; [left; reflexivity|];
    repeat split; simpl; eauto 10; lia.
Qed.

Lemma sent_hashes_own_steps l : sent_hashes (own_steps l) = sent_hashes l.
Proof. now apply steps_after_omap. Qed.

(** X7. A replenishment pass hands at most two transactions to
    [sendTransaction]: the withdrawal of the hub deposit, if any, then the
    transfer to the worker, if any; both are signed by the manager and
    stamped with the current block.  When the pass returns, it returns
    the hashes of the transactions that were accepted, in that order. *)
Theorem replenishServer_sends_and_returns (this : RelayServer) (w : W)
    (t : option Callback) (workerIndex currentBlock : Z) :
  watchdog_or_none t →
  let o := run (replenishServer workerIndex currentBlock this) w t in
  (map SendTransactionDetails.serverAction (sends (trace o)) = []
   ∨ map SendTransactionDetails.serverAction (sends (trace o))
     = [DEPOSIT_WITHDRAWAL]
   ∨ map SendTransactionDetails.serverAction (sends (trace o))
     = [VALUE_TRANSFER]
   ∨ map SendTransactionDetails.serverAction (sends (trace o))
     = [DEPOSIT_WITHDRAWAL; VALUE_TRANSFER])
  ∧ Forall (replenishment currentBlock (managerAddress this)
              (workerAddress this)) (sends (trace o))
  ∧ (∀ hashes, outcome o = Ok hashes → hashes = sent_hashes (trace o)).
Proof.
  intros Ht o.
  destruct (ends_run _ _ w t Ht
              (replenishServer_ends workerIndex currentBlock this))
    as [(Hk & Hf & _ & Hh) _].
  rewrite sends_own_steps in Hk, Hf. rewrite sent_hashes_own_steps in Hh.
  auto.
Qed.

(** X8. A replenishment pass sends the withdrawal of the manager's hub
    deposit only when the manager's balance, as answered in this pass, is
    below
    [managerTargetBalance], its hub balance is at least
    [minHubWithdrawalBalance], and the store answered that no withdrawal
    is pending; the withdrawal is sent to the hub and withdraws the whole
    hub balance to the manager. *)
Theorem replenishServer_withdraws_only_when_due (this : RelayServer)
    (w : W) (t : option Callback) (workerIndex currentBlock : Z) :
  watchdog_or_none t →
  let o := run (replenishServer workerIndex currentBlock this) w t in
  ∀ d, In d (sends (trace o)) →
       SendTransactionDetails.serverAction d = DEPOSIT_WITHDRAWAL →
       relayHubContract this = Some (SendTransactionDetails.destination d)
       ∧ ∃ managerEthBalance managerHubBalance,
           In (Called (getBalance (managerAddress this))
                 (Resolved managerEthBalance)) (trace o)
           ∧ In (Called (hub_balanceOf (managerAddress this))
                   (Resolved managerHubBalance)) (trace o)
           ∧ In (Called (isActionPending DEPOSIT_WITHDRAWAL None)
                   (Resolved false)) (trace o)
           ∧ managerEthBalance < managerTargetBalance (config this)
           ∧ minHubWithdrawalBalance (config this) <= managerHubBalance
           ∧ SendTransactionDetails.method d
             = Some (withdraw managerHubBalance (managerAddress this)).
Proof.
  intros Ht o d Hd Ha.
  destruct (ends_run _ _ w t Ht
              (replenishServer_ends workerIndex currentBlock this))
    as [(_ & _ & Hw & _) _].
  rewrite sends_own_steps in Hw.
  destruct (Hw d Hd Ha) as (Hhub & mb & hb & H1 & H2 & H3 & Hrest).
  split; [exact Hhub|]. exists mb, hb.
  repeat split; try (now apply own_steps_In); apply Hrest.
Qed.

End ReplenishmentPass.

(** The pass of the poor manager: the withdrawal is accepted, and its
    hash is what the pass returns. *)
Lemma replenishServer_sends_and_returns_witness :
  ["0xhash4"]
  = sent_hashes (trace (run (replenishServer 0 105 lowWorkerServer)
                          poorManagerWorld None)).
Proof.
  apply (replenishServer_sends_and_returns lowWorkerServer poorManagerWorld
           None 0 105 (or_introl eq_refl)).
  vm_compute. reflexivity.
Defined.

(** With 150 at the manager, where 2000 is the target, and 800 in the
    hub, where 500 suffices, the 800 are withdrawn. *)
Lemma replenishServer_withdraws_only_when_due_witness :
  relayHubContract lowWorkerServer = Some "0xhub"
  ∧ ∃ managerEthBalance managerHubBalance,
      In (Called (getBalance "0xManager") (Resolved managerEthBalance))
         (trace (run (replenishServer 0 105 lowWorkerServer)
                   poorManagerWorld None))
      ∧ In (Called (hub_balanceOf "0xManager") (Resolved managerHubBalance))
           (trace (run (replenishServer 0 105 lowWorkerServer)
                     poorManagerWorld None))
      ∧ In (Called (isActionPending DEPOSIT_WITHDRAWAL None) (Resolved false))
           (trace (run (replenishServer 0 105 lowWorkerServer)
                     poorManagerWorld None))
      ∧ managerEthBalance < 2000
      ∧ 500 <= managerHubBalance
      ∧ Some (withdraw 800 "0xManager")
        = Some (withdraw managerHubBalance "0xManager").
Proof.
  apply (replenishServer_withdraws_only_when_due lowWorkerServer
           poorManagerWorld None 0 105 (or_introl eq_refl)
           {| SendTransactionDetails.signer := "0xManager";
              SendTransactionDetails.serverAction := DEPOSIT_WITHDRAWAL;
              SendTransactionDetails.destination := "0xhub";
              SendTransactionDetails.creationBlockNumber := 105;
              SendTransactionDetails.gasLimit := 60000;
              SendTransactionDetails.method :=
                Some (withdraw 800 "0xManager");
              SendTransactionDetails.value := None;
              SendTransactionDetails.gasPrice := None |}).
  - vm_compute. left. reflexivity.
  - reflexivity.
Defined.


(** ** What a relay request sends *)

Section Relaying.
Context `{Utils} `{Collaborators W}.

Lemma assigns_rounds_only_refl s :
  ∃ z, s = set_lastSuccessfulRounds z s.
Proof. exists (lastSuccessfulRounds s). now destruct s. Qed.

(** The asynchronous validations send nothing and assign no field. *)
Lemma validateMaxNonce_ends n s0 :
  ends (λ tr s r, sends tr = [] ∧ ∃ z, s = set_lastSuccessfulRounds z s0)
    (validateMaxNonce n s0).
Proof.
  unfold validateMaxNonce.
  ends_walk ltac:(idtac).
  all: split;
    [reflexivity | first [eexists; reflexivity | apply assigns_rounds_only_refl]].
Qed.

Lemma validatePaymasterGasLimits_ends req s0 :
  ends (λ tr s r, sends tr = [] ∧ ∃ z, s = set_lastSuccessfulRounds z s0)
    (validatePaymasterGasLimits req s0).
Proof.
  unfold validatePaymasterGasLimits, the_relayHubContract.
  ends_walk ltac:(idtac).
  all: split;
    [reflexivity | first [eexists; reflexivity | apply assigns_rounds_only_refl]].
Qed.

Lemma validateViewCallSucceeds_ends req budget gas s0 :
  ends (λ tr s r, sends tr = [] ∧ ∃ z, s = set_lastSuccessfulRounds z s0)
    (validateViewCallSucceeds req budget gas s0).
Proof.
  unfold validateViewCallSucceeds, the_relayHubContract.
  ends_walk ltac:(idtac).
  all: split;
    [reflexivity | first [eexists; reflexivity | apply assigns_rounds_only_refl]].
Qed.

Lemma createRelayTransaction_ends req this :
  ends (λ tr s r,
          (sends tr = []
           ∨ ∃ relay rest,
               sends tr = relay :: rest
               ∧ relay_call req (workerAddress this) relay
               ∧ relayHubContract this
                 = Some (SendTransactionDetails.destination relay)
               ∧ In (Called getBlockNumber
                       (Resolved
                          (SendTransactionDetails.creationBlockNumber relay)))
                    tr
               ∧ Forall (replenishment
                           (SendTransactionDetails.creationBlockNumber relay)
                           (managerAddress this) (workerAddress this)) rest)
          ∧ (∀ signed, r = Ok signed →
               ∃ d tx,
                 In (Called (sendTransaction d) (Resolved tx)) tr
                 ∧ relay_call req (workerAddress this) d
                 ∧ signedTx tx = signed))
    (createRelayTransaction req this).
Proof.
  unfold createRelayTransaction, validateInputTypes, validateInput,
    validateFees, the_relayHubContract.
  ends_walk ltac:(idtac).
  all: try (eapply ends_consequence;
            [ apply validateMaxNonce_ends
            | intros ? ? [?|?|?] (? & ? & ->); ends_walk ltac:(idtac) ]).
  all: try (eapply ends_consequence;
            [ apply validatePaymasterGasLimits_ends
            | intros ? ? [[? ?]|?|?] (? & ? & ->); ends_walk ltac:(idtac) ]).
  all: try (eapply ends_consequence;
            [ apply validateViewCallSucceeds_ends
            | intros ? ? [?|?|?] (? & ? & ->); ends_walk ltac:(idtac) ]).
  all: try (eapply ends_consequence;
            [ apply replenishServer_ends
            | intros tr' s' r' (_ & Hf & _ & _);
              destruct r' as [hashes|m|c]; ends_walk ltac:(idtac) ]).
  all: unfold id in *; fields; sends_norm.
  all: repeat match goal with
              | E : negb (_ =? _)%string = false |- _ =>
                  apply negb_false_iff, String.eqb_eq in E
              end.
  all: split;
    [ first
        [ left; reflexivity
        | right; eexists _, _; split; [reflexivity|];
          split; [unfold relay_call; cbn; repeat split; eauto|];
          split; [cbn; congruence|];
          split; [cbn [SendTransactionDetails.creationBlockNumber]; step_in
                 | first [exact Hf | apply Forall_nil; exact Logic.I]] ]
    | first
        [ solve [intros ? [=]]
        | intros signed [= <-]; eexists _, _;
          split; [step_in|];
          split; [unfold relay_call; cbn; repeat split; eauto
                 | reflexivity] ] ].
Qed.

(** X9. The first transaction a relay request hands to [sendTransaction],
    if it hands any, is the hub's [relayCall] on that request: signed by
    the worker, sent to the server's hub, at the gas price the request
    offers, with the gas limit passed to [relayCall], and stamped with the
    block number just fetched.  Whatever follows is a replenishment
    signed by the manager and stamped with the same block. *)
Theorem createRelayTransaction_sends_the_relay_call_first
    (req : RelayTransactionRequest) (this : RelayServer) (w : W)
    (t : option Callback) :
  watchdog_or_none t →
  let o := run (createRelayTransaction req this) w t in
  sends (trace o) = []
  ∨ ∃ relay rest,
      sends (trace o) = relay :: rest
      ∧ relay_call req (workerAddress this) relay
      ∧ relayHubContract this
        = Some (SendTransactionDetails.destination relay)
      ∧ In (Called getBlockNumber
              (Resolved (SendTransactionDetails.creationBlockNumber relay)))
           (trace o)
      ∧ Forall (replenishment
                  (SendTransactionDetails.creationBlockNumber relay)
                  (managerAddress this) (workerAddress this)) rest.
Proof.
  intros Ht o.
  destruct (ends_run _ _ w t Ht (createRelayTransaction_ends req this))
    as [(Hs & _) _].
  rewrite sends_own_steps in Hs.
  destruct Hs as [E | (relay & rest & E & Hr & Hh & Hb & Hf)];
    [now left | right].
  exists relay, rest.
  split; [exact E|]. split; [exact Hr|]. split; [exact Hh|].
  split; [now apply own_steps_In | exact Hf].
Qed.

(** X10. [createRelayTransaction] returns only what the transaction
    manager answered to the relay call: when it returns [signedTx], the
    relay call of the request was handed to [sendTransaction], was
    accepted, and [signedTx] is the signed transaction of that answer. *)
Theorem createRelayTransaction_returns_the_signed_relay_call
    (req : RelayTransactionRequest) (this : RelayServer) (w : W)
    (t : option Callback) :
  watchdog_or_none t →
  let o := run (createRelayTransaction req this) w t in
  ∀ signed,
    outcome o = Ok signed →
    ∃ d tx,
      In (Called (sendTransaction d) (Resolved tx)) (trace o)
      ∧ relay_call req (workerAddress this) d
      ∧ signedTx tx = signed.
Proof.
  intros Ht o signed Eo.
  destruct (ends_run _ _ w t Ht (createRelayTransaction_ends req this))
    as [(_ & Hr) _].
  destruct (Hr signed Eo) as (d & tx & Hin & Hd & Es).
  exists d, tx. split; [now apply own_steps_In | split; assumption].
Qed.

End Relaying.

(** The ready demo server relays the good request. *)
Lemma createRelayTransaction_sends_the_relay_call_first_witness :
  sends (trace (run (createRelayTransaction goodRequest readyServer)
                  calmWorld None)) = []
  ∨ ∃ relay rest,
      sends (trace (run (createRelayTransaction goodRequest readyServer)
                      calmWorld None)) = relay :: rest
      ∧ relay_call goodRequest "0xWorker" relay
      ∧ Some "0xhub" = Some (SendTransactionDetails.destination relay)
      ∧ In (Called getBlockNumber
              (Resolved (SendTransactionDetails.creationBlockNumber relay)))
           (trace (run (createRelayTransaction goodRequest readyServer)
                     calmWorld None))
      ∧ Forall (replenishment
                  (SendTransactionDetails.creationBlockNumber relay)
                  "0xManager" "0xWorker") rest.
Proof.
  exact (createRelayTransaction_sends_the_relay_call_first goodRequest
           readyServer calmWorld None (or_introl eq_refl)).
Defined.

Lemma createRelayTransaction_returns_the_signed_relay_call_witness :
  ∃ d tx,
    In (Called (sendTransaction d) (Resolved tx))
       (trace (run (createRelayTransaction goodRequest readyServer)
                 calmWorld None))
    ∧ relay_call goodRequest "0xWorker" d
    ∧ signedTx tx = "0xsigned4".
Proof.
  apply (createRelayTransaction_returns_the_signed_relay_call goodRequest
           readyServer calmWorld None (or_introl eq_refl)).
  vm_compute. reflexivity.
Defined.


(** ** Initialization *)

Section Initializing.
Context `{Utils} `{Collaborators W}.

Lemma rounds_and_limits_twice m1 z1 m2 z2 s :
  set_lastSuccessfulRounds z2
    (set_trustedPaymastersGasLimits m2
       (set_lastSuccessfulRounds z1 (set_trustedPaymastersGasLimits m1 s)))
  = set_lastSuccessfulRounds z2 (set_trustedPaymastersGasLimits m2 s).
Proof. reflexivity. Qed.

(** The loop of [_initTrustedPaymasters]: what it adds to the map it
    starts from. *)
Lemma trust_each_ends (paymasters : list address) s0 :
  ends (λ tr s r,
          (∀ key limits,
             trustedPaymastersGasLimits s !! key = Some limits →
             trustedPaymastersGasLimits s0 !! key = Some limits
             ∨ ∃ p, In p paymasters ∧ JS.toLowerCase p = key
                  ∧ In (Called (paymaster_getGasLimits p) (Resolved limits))
                       tr)
          ∧ (r = Ok tt →
               (∀ p, In p paymasters →
                  is_Some (trustedPaymastersGasLimits s !! JS.toLowerCase p))
               ∧ ∀ key, is_Some (trustedPaymastersGasLimits s0 !! key) →
                        is_Some (trustedPaymastersGasLimits s !! key))
          ∧ sends tr = []
          ∧ (∀ code, r ≠ Exit code)
          ∧ ∃ m z, s = set_lastSuccessfulRounds z
                         (set_trustedPaymastersGasLimits m s0))
    (for_each paymasters (λ paymasterAddress,
       await (_createPaymaster paymasterAddress);;
       gasLimits ←
         try_catch (await (paymaster_getGasLimits paymasterAddress))
           (λ message,
              throw ("not a valid paymaster address in trustedPaymasters list: "
                     +:+ paymasterAddress +:+ ": " +:+ message));
       assign (λ this,
         set_trustedPaymastersGasLimits
           (<[JS.toLowerCase paymasterAddress := gasLimits]>
              (trustedPaymastersGasLimits this)) this)) s0).
Proof.
  revert s0. induction paymasters as [|p l IH]; intros s0.
  - simpl. split; [now left|]. split; [|split; [reflexivity|split; [discriminate|]]].
    + intros _. split; [intros ? []|trivial].
    + exists (trustedPaymastersGasLimits s0), (lastSuccessfulRounds s0).
      now destruct s0.
  - cbn [for_each].
    ends_walk ltac:(idtac).
    all: repeat match goal with
                | Hq : _ ∧ _ |- _ =>
                    destruct Hq as (Ha & Hb & Hs & He & m & z & ->)
                end.
    all: fields.
    all: try solve [exfalso; eapply He; reflexivity].
    all: split; [|split; [solve [intros [=]] || idtac
                         |split; [now sends_norm
                                 |split; [intros ? [=]
                                         |eexists _, _; reflexivity]]]].
    + intros key limits Hk.
      destruct (Ha key limits Hk) as [Hin | (q & Hq & Hkey & Hcall)].
      * apply lookup_insert_Some in Hin.
        destruct Hin as [(<- & <-) | (_ & Hin)]; [right | now left].
        exists p. split; [now left|]. split; [reflexivity|]. step_in.
      * right. exists q. split; [now right|]. split; [exact Hkey|].
        right. right. exact Hcall.
    + intros _. destruct a. destruct (Hb eq_refl) as (Hb1 & Hb2). split.
      * intros q [<- | Hq]; [|now apply Hb1].
        apply Hb2. rewrite lookup_insert_is_Some'. now left.
      * intros key Hk. apply Hb2. rewrite lookup_insert_is_Some'. now right.
    + intros key limits Hk.
      destruct (Ha key limits Hk) as [Hin | (q & Hq & Hkey & Hcall)].
      * apply lookup_insert_Some in Hin.
        destruct Hin as [(<- & <-) | (_ & Hin)]; [right | now left].
        exists p. split; [now left|]. split; [reflexivity|]. step_in.
      * right. exists q. split; [now right|]. split; [exact Hkey|].
        right. right. exact Hcall.
    + intros key limits Hk. now left.
    + intros key limits Hk. now left.
Qed.

Lemma _initTrustedPaymasters_ends (paymasters : list address) s0 :
  ends (λ tr s r,
          (∀ key limits,
             trustedPaymastersGasLimits s !! key = Some limits →
             ∃ p, In p paymasters ∧ JS.toLowerCase p = key
                ∧ In (Called (paymaster_getGasLimits p) (Resolved limits)) tr)
          ∧ (r = Ok tt →
               ∀ p, In p paymasters → _isTrustedPaymaster s p = true)
          ∧ sends tr = []
          ∧ (∀ code, r ≠ Exit code)
          ∧ ∃ m z, s = set_lastSuccessfulRounds z
                         (set_trustedPaymastersGasLimits m s0))
    (_initTrustedPaymasters paymasters s0).
Proof.
  unfold _initTrustedPaymasters. ends_expose.
  eapply ends_consequence; [apply trust_each_ends|].
  intros tr s r (Ha & Hb & Hs & He & m & z & ->). fields.
  split; [|split; [|split; [exact Hs|split; [exact He|]]]].
  - intros key limits Hk. destruct (Ha key limits Hk) as [Hin | Hin].
    + now rewrite lookup_empty in Hin.
    + exact Hin.
  - intros Er p Hp. unfold _isTrustedPaymaster. fields.
    apply bool_decide_eq_true. exact (proj1 (Hb Er) p Hp).
  - now eexists _, _.
Qed.

(** X11. [_initTrustedPaymasters] leaves in the map of trusted
    paymasters only what this call put there: every entry is stored under
    the lower-cased address of a paymaster of the list and holds the gas
    limits that paymaster's [getGasLimits] answered in this call, also
    when the call fails half-way.  When it returns, every paymaster of
    the list is trusted. *)
Theorem _initTrustedPaymasters_trusts_the_listed
    (paymasters : list address) (this : RelayServer) (w : W)
    (t : option Callback) :
  watchdog_or_none t →
  let o := run (_initTrustedPaymasters paymasters this) w t in
  (∀ key limits,
     trustedPaymastersGasLimits (final o) !! key = Some limits →
     ∃ p, In p paymasters ∧ JS.toLowerCase p = key
        ∧ In (Called (paymaster_getGasLimits p) (Resolved limits)) (trace o))
  ∧ (outcome o = Ok tt →
       ∀ p, In p paymasters → _isTrustedPaymaster (final o) p = true).
Proof.
  intros Ht o.
  destruct (ends_run _ _ w t Ht (_initTrustedPaymasters_ends paymasters this))
    as [(Ha & Hb & _) _].
  split; [|exact Hb].
  intros key limits Hk. destruct (Ha key limits Hk) as (p & Hp & Ek & Hin).
  exists p. split; [exact Hp|]. split; [exact Ek|]. now apply own_steps_In.
Qed.

Lemma init_contract_ends this :
  initialized this = false →
  ends (λ tr s r,
          sends tr = []
          ∧ (initialized s = true ↔ r = Ok tt)
          ∧ (r = Ok tt →
               ∃ hub code chain net limits,
                 relayHubContract s = Some hub
                 ∧ chainId s = Some chain
                 ∧ networkId s = Some net
                 ∧ trustedPaymastersGasLimits s = limits
                 ∧ workerAddress s = workerAddress this
                 ∧ managerAddress s = managerAddress this
                 ∧ gasPrice s = gasPrice this
                 ∧ config s = config this
                 ∧ In (Called relayHubInstance (Resolved hub)) tr
                 ∧ In (Called (getCode hub) (Resolved code)) tr
                 ∧ In (Called getChainId (Resolved chain)) tr
                 ∧ In (Called getNetworkId (Resolved net)) tr
                 ∧ (10 <= String.length code)%nat
                 ∧ (devMode (config this) = true →
                      1000 <= chain ∧ 1000 <= net)
                 ∧ (∀ key gasLimits,
                      limits !! key = Some gasLimits →
                      ∃ p, In p (trustedPaymasters (config this))
                         ∧ JS.toLowerCase p = key
                         ∧ In (Called (paymaster_getGasLimits p)
                                 (Resolved gasLimits)) tr)
                 ∧ ∀ p, In p (trustedPaymasters (config this)) →
                        is_Some (limits !! JS.toLowerCase p)))
    (init this).
Proof.
  intros Ei.
  unfold init, the_relayHubContract, fatal.
  ends_walk ltac:(idtac).
  all: try congruence.
  all: fields.
  all: try (eapply ends_consequence;
            [ apply _initTrustedPaymasters_ends
            | intros ? ? [[]|?|?] (Hk & Ht & ? & He & ? & ? & ->);
              ends_walk ltac:(idtac) ]).
  all: unfold id in *; fields; sends_norm.
  all: split; [reflexivity|].
  all: split; [split; intros; first [reflexivity | congruence]|].
  all: try solve [intros [=]].
  intros _. eexists _, _, _, _, _.
  split; [reflexivity|]. split; [reflexivity|]. split; [reflexivity|].
  split; [reflexivity|]. split; [reflexivity|]. split; [reflexivity|].
  split; [reflexivity|]. split; [reflexivity|].
  split; [step_in|]. split; [step_in|]. split; [step_in|]. split; [step_in|].
  split; [apply Z.ltb_ge in Heqb0; lia|].
  split; [|split].
  - intros Ed. rewrite Ed in *. cbn [andb] in *.
    apply orb_false_iff in Heqb1. unfold JS.lt, JS.gt in Heqb1.
    destruct Heqb1 as (Ec & En). apply Z.ltb_ge in Ec, En. now split.
  - intros key gasLimits Hl.
    destruct (Hk key gasLimits Hl) as (p & Hp & Ek & Hin).
    exists p. split; [exact Hp|]. split; [exact Ek|].
    right. apply in_or_app. now left.
  - intros p Hp. specialize (Ht eq_refl p Hp).
    unfold _isTrustedPaymaster in Ht. fields.
    now apply bool_decide_eq_true in Ht.
Qed.

(** X12. [init] marks the server initialized exactly when it returns.
    When it returns, the hub is the one the contract interactor gave and
    has at least ten characters of code, the chain and network ids are the
    ones the node answered (both at least 1000 in dev mode), and every
    paymaster of [config.trustedPaymasters] is trusted.  [init] sends no
    transaction. *)
Theorem init_initializes_exactly_when_it_returns
    (this : RelayServer) (w : W) (t : option Callback) :
  watchdog_or_none t →
  initialized this = false →
  let o := run (init this) w t in
  sends (trace o) = []
  ∧ (initialized (final o) = true ↔ outcome o = Ok tt)
  ∧ (outcome o = Ok tt →
       ∃ hub code chain net,
         relayHubContract (final o) = Some hub
         ∧ chainId (final o) = Some chain
         ∧ networkId (final o) = Some net
         ∧ In (Called relayHubInstance (Resolved hub)) (trace o)
         ∧ In (Called (getCode hub) (Resolved code)) (trace o)
         ∧ In (Called getChainId (Resolved chain)) (trace o)
         ∧ In (Called getNetworkId (Resolved net)) (trace o)
         ∧ (10 <= String.length code)%nat
         ∧ (devMode (config this) = true → 1000 <= chain ∧ 1000 <= net)
         ∧ ∀ p, In p (trustedPaymasters (config this)) →
                _isTrustedPaymaster (final o) p = true).
Proof.
  intros Ht Ei o.
  destruct (ends_run _ _ w t Ht (init_contract_ends this Ei))
    as [(Hs & Hi & Hr) _].
  rewrite sends_own_steps in Hs.
  split; [exact Hs|]. split; [exact Hi|].
  intros Eo.
  destruct (Hr Eo)
    as (hub & code & chain & net & limits & Eh & Ec & En & El & _ & _ & _ & _
        & H1 & H2 & H3 & H4 & Hl & Hd & _ & Hp).
  exists hub, code, chain, net.
  split; [exact Eh|]. split; [exact Ec|]. split; [exact En|].
  split; [now apply own_steps_In|]. split; [now apply own_steps_In|].
  split; [now apply own_steps_In|]. split; [now apply own_steps_In|].
  split; [exact Hl|]. split; [exact Hd|].
  intros p Hin. unfold _isTrustedPaymaster.
  apply bool_decide_eq_true. fold o in El. rewrite El. now apply Hp.
Qed.

(** X13. Once [init] has returned, [pingHandler] answers, for any
    paymaster: with the addresses of the worker and the manager, the hub
    [init] obtained, the chain and network ids the node answered, and as
    acceptance budget either the one a paymaster of
    [config.trustedPaymasters] with the same lower-cased address declared
    during [init], or [config.maxAcceptanceBudget] when the list has no
    such paymaster. *)
Theorem pingHandler_answers_after_init
    (gsnRuntimeVersion : string) (this : RelayServer) (w : W)
    (t : option Callback) :
  watchdog_or_none t →
  initialized this = false →
  let o := run (init this) w t in
  outcome o = Ok tt →
  ∃ hub chain net,
    In (Called relayHubInstance (Resolved hub)) (trace o)
    ∧ In (Called getChainId (Resolved chain)) (trace o)
    ∧ In (Called getNetworkId (Resolved net)) (trace o)
    ∧ ∀ paymaster,
        ∃ budget,
          pingHandler gsnRuntimeVersion paymaster (final o)
          = Ret (final o)
              (Ok {| PingResponse.relayWorkerAddress := workerAddress this;
                     PingResponse.relayManagerAddress := managerAddress this;
                     PingResponse.relayHubAddress := hub;
                     PingResponse.minGasPrice := show (gasPrice this);
                     PingResponse.maxAcceptanceBudget := budget;
                     PingResponse.chainId := pretty chain;
                     PingResponse.networkId := pretty net;
                     PingResponse.ready := isReady (final o);
                     PingResponse.version := gsnRuntimeVersion |})
          ∧ ((∃ p q gasLimits,
                paymaster = Some p
                ∧ In q (trustedPaymasters (config this))
                ∧ JS.toLowerCase q = JS.toLowerCase p
                ∧ In (Called (paymaster_getGasLimits q) (Resolved gasLimits))
                     (trace o)
                ∧ budget = acceptanceBudget gasLimits)
             ∨ ((∀ p, paymaster = Some p →
                   ∀ q, In q (trustedPaymasters (config this)) →
                        JS.toLowerCase q ≠ JS.toLowerCase p)
                ∧ budget = pretty (maxAcceptanceBudget (config this)))).
Proof.
  intros Ht Ei o Eo.
  destruct (ends_run _ _ w t Ht (init_contract_ends this Ei))
    as [(_ & _ & Hr) _].
  destruct (Hr Eo)
    as (hub & code & chain & net & limits & Eh & Ec & En & El & Ew & Em & Eg
        & Ef & H1 & _ & H3 & H4 & _ & _ & Hk & Hp).
  fold o in Eh, Ec, En, El, Ew, Em, Eg, Ef.
  exists hub, chain, net.
  split; [now apply own_steps_In|]. split; [now apply own_steps_In|].
  split; [now apply own_steps_In|].
  intros paymaster.
  exists (_getPaymasterMaxAcceptanceBudget (final o) paymaster).
  split.
  - unfold pingHandler, getMinGasPrice, mbind, M_bind, read, mret, M_ret, id.
    cbn [bindP]. rewrite Ec, En, Eh, Ew, Em, Eg. reflexivity.
  - unfold _getPaymasterMaxAcceptanceBudget. rewrite El, Ef.
    destruct paymaster as [p|].
    + destruct (limits !! JS.toLocaleLowerCase p) as [gasLimits|] eqn:Ep.
      * left. destruct (Hk _ _ Ep) as (q & Hq & Eq & Hin).
        exists p, q, gasLimits. split; [reflexivity|]. split; [exact Hq|].
        split; [exact Eq|]. split; [now apply own_steps_In | reflexivity].
      * right. split; [|reflexivity].
        intros p' [= <-] q Hq Eq. destruct (Hp q Hq) as [x Ex].
        rewrite Eq in Ex. unfold JS.toLocaleLowerCase in Ep. congruence.
    + right. split; [|reflexivity]. intros p [=].
Qed.

Lemma init_exits_ends this :
  initialized this = false →
  ends (λ tr s r,
          ∀ code, r = Exit code →
            initialized s = false
            ∧ ((code = 1
                ∧ ∃ hub deployed,
                    In (Called relayHubInstance (Resolved hub)) tr
                    ∧ In (Called (getCode hub) (Resolved deployed)) tr
                    ∧ (String.length deployed < 10)%nat)
               ∨ (code = -1
                  ∧ devMode (config this) = true
                  ∧ ∃ chain net,
                      In (Called getChainId (Resolved chain)) tr
                      ∧ In (Called getNetworkId (Resolved net)) tr
                      ∧ (chain < 1000 ∨ net < 1000))))
    (init this).
Proof.
  intros Ei.
  unfold init, the_relayHubContract, fatal.
  ends_walk ltac:(idtac).
  all: try congruence.
  all: fields.
  all: try (eapply ends_consequence;
            [ apply _initTrustedPaymasters_ends
            | intros ? ? [[]|?|?] (_ & _ & _ & He & ? & ? & ->);
              ends_walk ltac:(idtac) ]).
  all: unfold id in *; fields.
  all: try solve [intros ? [=]].
  all: try solve [exfalso; eapply He; reflexivity].
  all: intros code [= <-]; (split; [assumption|]).
  - left. split; [reflexivity|]. eexists _, _.
    split; [step_in|]. split; [step_in|].
    apply Z.ltb_lt in Heqb0. lia.
  - right. split; [reflexivity|].
    apply andb_true_iff in Heqb1. destruct Heqb1 as (Ed & Eo).
    split; [exact Ed|]. eexists _, _.
    split; [step_in|]. split; [step_in|].
    apply orb_true_iff in Eo. unfold JS.lt, JS.gt in Eo.
    destruct Eo as [Eo | Eo]; apply Z.ltb_lt in Eo; [now left | now right].
Qed.

(** X14. [init] ends the process in two cases only, and never after
    marking the server initialized: with code 1 when the code at the hub's
    address has fewer than ten characters, and with code -1 when, in dev
    mode, the chain id or the network id the node answered is below
    1000. *)
Theorem init_exits_on_missing_hub_or_real_network
    (this : RelayServer) (w : W) (t : option Callback) :
  watchdog_or_none t →
  initialized this = false →
  let o := run (init this) w t in
  ∀ code,
    outcome o = Exit code →
    initialized (final o) = false
    ∧ ((code = 1
        ∧ ∃ hub deployed,
            In (Called relayHubInstance (Resolved hub)) (trace o)
            ∧ In (Called (getCode hub) (Resolved deployed)) (trace o)
            ∧ (String.length deployed < 10)%nat)
       ∨ (code = -1
          ∧ devMode (config this) = true
          ∧ ∃ chain net,
              In (Called getChainId (Resolved chain)) (trace o)
              ∧ In (Called getNetworkId (Resolved net)) (trace o)
              ∧ (chain < 1000 ∨ net < 1000))).
Proof.
  intros Ht Ei o code Eo.
  destruct (ends_run _ _ w t Ht (init_exits_ends this Ei)) as [Hq _].
  destruct (Hq code Eo)
    as (En & [(Ec & hub & deployed & H1 & H2 & Hl)
             | (Ec & Ed & chain & net & H1 & H2 & Hl)]).
  - split; [exact En|]. left. split; [exact Ec|]. exists hub, deployed.
    split; [now apply own_steps_In|]. split; [now apply own_steps_In|].
    exact Hl.
  - split; [exact En|]. right. split; [exact Ec|]. split; [exact Ed|].
    exists chain, net.
    split; [now apply own_steps_In|]. split; [now apply own_steps_In|].
    exact Hl.
Qed.

End Initializing.

(** A list with one address twice, in two spellings. *)
Lemma _initTrustedPaymasters_trusts_the_listed_witness :
  let o := run (_initTrustedPaymasters ["0xPayMaster"; "0xPAYMASTER"]
                  newServer) calmWorld None in
  (∀ key limits,
     trustedPaymastersGasLimits (final o) !! key = Some limits →
     ∃ p, In p ["0xPayMaster"; "0xPAYMASTER"] ∧ JS.toLowerCase p = key
        ∧ In (Called (paymaster_getGasLimits p) (Resolved limits)) (trace o))
  ∧ (outcome o = Ok tt →
       ∀ p, In p ["0xPayMaster"; "0xPAYMASTER"] →
            _isTrustedPaymaster (final o) p = true).
Proof.
  exact (_initTrustedPaymasters_trusts_the_listed
           ["0xPayMaster"; "0xPAYMASTER"] newServer calmWorld None
           (or_introl eq_refl)).
Defined.

(** The server as constructed initializes on the calm chain. *)
Lemma init_initializes_exactly_when_it_returns_witness :
  let o := run (init newServer) calmWorld None in
  outcome o = Ok tt
  ∧ sends (trace o) = []
  ∧ (initialized (final o) = true ↔ outcome o = Ok tt)
  ∧ (outcome o = Ok tt →
       ∃ hub code chain net,
         relayHubContract (final o) = Some hub
         ∧ chainId (final o) = Some chain
         ∧ networkId (final o) = Some net
         ∧ In (Called relayHubInstance (Resolved hub)) (trace o)
         ∧ In (Called (getCode hub) (Resolved code)) (trace o)
         ∧ In (Called getChainId (Resolved chain)) (trace o)
         ∧ In (Called getNetworkId (Resolved net)) (trace o)
         ∧ (10 <= String.length code)%nat
         ∧ (devMode (config newServer) = true → 1000 <= chain ∧ 1000 <= net)
         ∧ ∀ p, In p (trustedPaymasters (config newServer)) →
                _isTrustedPaymaster (final o) p = true).
Proof.
  split; [vm_compute; reflexivity|].
  exact (init_initializes_exactly_when_it_returns newServer calmWorld None
           (or_introl eq_refl) eq_refl).
Defined.

(** A server that trusts one paymaster is asked about it in another
    spelling. *)
Lemma pingHandler_answers_after_init_witness :
  let o := run (init trustingServer) calmWorld None in
  ∃ hub chain net,
    In (Called relayHubInstance (Resolved hub)) (trace o)
    ∧ In (Called getChainId (Resolved chain)) (trace o)
    ∧ In (Called getNetworkId (Resolved net)) (trace o)
    ∧ ∀ paymaster,
        ∃ budget,
          pingHandler "2.0.3" paymaster (final o)
          = Ret (final o)
              (Ok {| PingResponse.relayWorkerAddress :=
                       workerAddress trustingServer;
                     PingResponse.relayManagerAddress :=
                       managerAddress trustingServer;
                     PingResponse.relayHubAddress := hub;
                     PingResponse.minGasPrice :=
                       show (gasPrice trustingServer);
                     PingResponse.maxAcceptanceBudget := budget;
                     PingResponse.chainId := pretty chain;
                     PingResponse.networkId := pretty net;
                     PingResponse.ready := isReady (final o);
                     PingResponse.version := "2.0.3" |})
          ∧ ((∃ p q gasLimits,
                paymaster = Some p
                ∧ In q (trustedPaymasters (config trustingServer))
                ∧ JS.toLowerCase q = JS.toLowerCase p
                ∧ In (Called (paymaster_getGasLimits q) (Resolved gasLimits))
                     (trace o)
                ∧ budget = acceptanceBudget gasLimits)
             ∨ ((∀ p, paymaster = Some p →
                   ∀ q, In q (trustedPaymasters (config trustingServer)) →
                        JS.toLowerCase q ≠ JS.toLowerCase p)
                ∧ budget
                  = pretty (maxAcceptanceBudget (config trustingServer)))).
Proof.
  apply (pingHandler_answers_after_init "2.0.3" trustingServer calmWorld None
           (or_introl eq_refl) eq_refl).
  vm_compute. reflexivity.
Defined.

(** A dev-mode server on a chain whose id is that of a real network. *)
Lemma init_exits_on_missing_hub_or_real_network_witness :
  let o := run (init trustingServer) mainnetWorld None in
  initialized (final o) = false
  ∧ ((-1 = 1
      ∧ ∃ hub deployed,
          In (Called relayHubInstance (Resolved hub)) (trace o)
          ∧ In (Called (getCode hub) (Resolved deployed)) (trace o)
          ∧ (String.length deployed < 10)%nat)
     ∨ (-1 = -1
        ∧ devMode (config trustingServer) = true
        ∧ ∃ chain net,
            In (Called getChainId (Resolved chain)) (trace o)
            ∧ In (Called getNetworkId (Resolved net)) (trace o)
            ∧ (chain < 1000 ∨ net < 1000))).
Proof.
  apply (init_exits_on_missing_hub_or_real_network trustingServer
           mainnetWorld None (or_introl eq_refl) eq_refl).
  vm_compute. reflexivity.
Defined.

(** ** What a scan reports *)

Section Changes.
Context `{Utils} `{Collaborators W}.

Lemma ends_and {A} (Q1 Q2 : list step → RelayServer → result A → Prop) p :
  ends Q1 p → ends Q2 p → ends (λ tr s r, Q1 tr s r ∧ Q2 tr s r) p.
Proof.
  revert Q1 Q2. induction p as [s r|o p IH|X s c k IH]; intros Q1 Q2; simpl.
  - now split.
  - intros (Ho & H1) (_ & H2). split; [exact Ho|]. now apply IH.
  - intros H1 H2 r s' Hs. apply IH; [now apply H1 | now apply H2].
Qed.

Lemma sent_hashes_app l1 l2 :
  sent_hashes (l1 ++ l2) = sent_hashes l1 ++ sent_hashes l2.
Proof. apply omap_app. Qed.

Lemma sent_hashes_cons st l :
  sent_hashes (st :: l)
  = match hash_sent_by st with
    | Some h => h :: sent_hashes l
    | None => sent_hashes l
    end.
Proof. unfold sent_hashes. simpl. now destruct (hash_sent_by st). Qed.

Ltac hashes_norm :=
  repeat first [ rewrite sent_hashes_app
               | rewrite sent_hashes_cons; cbn [hash_sent_by] ];
  change (sent_hashes []) with (@nil PrefixedHexString);
  repeat match goal with
         | E : sent_hashes _ = [] |- _ => rewrite E; clear E
         end;
  cbn [app]; rewrite ?app_nil_r.

(** What the steps of a scan other than the replenishment leave alone. *)
Local Abbreviation scan_frame s0 s :=
  (lastScannedBlock s = lastScannedBlock s0
   ∧ ready s = ready s0
   ∧ workerAddress s = workerAddress s0
   ∧ config s = config s0).

Local Abbreviation quiet s0 :=
  (λ tr s (r : result _),
     sends tr = [] ∧ sent_hashes tr = [] ∧ scan_frame s0 s).

Lemma _shouldRegisterAgain_quiet b events s0 :
  ends (quiet s0) (_shouldRegisterAgain b events s0).
Proof.
  unfold _shouldRegisterAgain, _getLatestTxBlockNumber,
    _queryLatestActiveEvent.
  ends_walk ltac:(idtac).
  all: fields; split; [reflexivity|]; split; [reflexivity|]; now repeat split.
Qed.

Lemma handlePastHubEvents_quiet b events s0 :
  ends (λ tr s r, quiet s0 tr s r ∧ ∀ code, r ≠ Exit code)
    (handlePastHubEvents b events s0).
Proof.
  unfold handlePastHubEvents, _handleTransactionRejectedByPaymasterEvent.
  revert s0. induction events as [|e l IH]; intros s0.
  - simpl. now repeat split.
  - cbn [for_each]. ends_walk ltac:(idtac).
    all: fields.
    all: repeat match goal with
                | Hq : _ ∧ _ |- _ =>
                    destruct Hq as ((Hs & Hh & El & Er & Ew & Ec) & He)
                end; fields.
    all: split; [|exact He].
    all: split; [now sends_norm|]; split; [now hashes_norm|].
    all: now repeat split.
Qed.

Lemma setReadyState_quiet b s0 :
  ends (λ tr s r,
          sends tr = [] ∧ sent_hashes tr = []
          ∧ r = Ok tt
          ∧ ready s = b
          ∧ lastScannedBlock s = lastScannedBlock s0)
    (setReadyState b s0).
Proof.
  unfold setReadyState.
  ends_walk ltac:(idtac).
  all: fields; now repeat split.
Qed.

Lemma replenishServer_frame i b s0 :
  ends (λ tr s r, scan_frame s0 s) (replenishServer i b s0).
Proof.
  unfold replenishServer, replenishServer_worker, getManagerBalance,
    getWorkerBalance, set_workerBalance, the_relayHubContract.
  ends_walk ltac:(idtac).
  all: unfold id in *; fields; now repeat split.
Qed.

Lemma _handleChanges_reports b this :
  ends (λ tr s r,
          ∀ hashes, r = Ok hashes →
            lastScannedBlock s = b
            ∧ (∃ events hint registered,
                 In (Called (handlePastEvents events (lastScannedBlock this)
                               b hint) (Resolved registered)) tr
                 ∧ hashes = registered ++ sent_hashes tr)
            ∧ ∃ registered_,
                In (Called isRegistered (Resolved registered_)) tr
                ∧ if (registered_ : bool)
                  then ∃ balance,
                         In (Called (getBalance (workerAddress this))
                               (Resolved balance)) tr
                         ∧ ready s
                           = negb (balance
                                   <? workerMinBalance (config this))
                  else ready s = false ∧ sends tr = [])
    (_handleChanges b this).
Proof.
  unfold _handleChanges, getAllHubEventsSinceLastScan,
    _boostStuckPendingTransactions, _boostStuckTransactionsForManager,
    _boostStuckTransactionsForWorker, getWorkerBalance.
  ends_walk ltac:(idtac).
  all: try (eapply ends_consequence;
            [ apply _shouldRegisterAgain_quiet
            | intros ? ? [?|?|?] (? & ? & El & Er & Ew & Ec);
              ends_walk ltac:(idtac) ]).
  all: try (eapply ends_consequence;
            [ apply setReadyState_quiet
            | intros ? ? [?|?|?] (? & ? & Eo & Ey & Eb);
              ends_walk ltac:(idtac) ]).
  all: try (eapply ends_consequence;
            [ apply handlePastHubEvents_quiet
            | intros ? ? [?|?|?] ((? & ? & El' & Er' & Ew' & Ec') & He);
              ends_walk ltac:(idtac) ]).
  all: try (eapply ends_consequence;
            [ apply ends_and;
              [apply replenishServer_ends | apply replenishServer_frame]
            | intros ? ? [?|?|?]
                ((_ & _ & _ & Hh) & El'' & Er'' & Ew'' & Ec'');
              ends_walk ltac:(idtac) ]).
  all: try (eapply ends_consequence;
            [ apply setReadyState_quiet
            | intros ? ? [?|?|?] (? & ? & Eo & Ey & Eb);
              ends_walk ltac:(idtac) ]).
  all: try solve [intros ? [=]].
  all: intros hashes [= <-]; unfold id in *; fields.
  all: repeat match goal with
              | E : negb ?x = _ |- _ =>
                  is_var x; destruct x; simpl in E; try discriminate E;
                  clear E
              end.
  all: repeat match goal with
              | E : ?f ?s = _ |- _ => is_var s; rewrite E in *
              end.
  all: split; [reflexivity|].
  all: split;
    [ eexists _, _, _; split; [step_in|]; hashes_norm;
      first [ reflexivity | now rewrite <- (Hh _ eq_refl) ]
    | eexists; split; [step_in|]; cbv iota ].
  all: first [ split; [reflexivity | now sends_norm]
             | eexists; split; [step_in|];
               match goal with
               | E : (_ <? _) = _ |- _ => rewrite E; reflexivity
               end ].
Qed.

(** X15. When a scan of block [b] returns, the block is recorded as
    scanned, and the hashes returned are those the registration manager
    reported followed by those of the transactions the replenishment
    sent: what the boosting of stuck transactions re-sent is not among
    them.  The ready flag is left false when the registration manager
    answers that the relay is not registered, and then nothing is sent;
    otherwise it is left true exactly when a balance of the worker
    answered during the scan is at least [config.workerMinBalance]. *)
Theorem _handleChanges_reports_and_sets_ready
    (this : RelayServer) (w : W) (t : option Callback) (b : Z) :
  watchdog_or_none t →
  let o := run (_handleChanges b this) w t in
  ∀ hashes,
    outcome o = Ok hashes →
    lastScannedBlock (final o) = b
    ∧ (∃ events hint registered,
         In (Called (handlePastEvents events (lastScannedBlock this) b hint)
               (Resolved registered)) (trace o)
         ∧ hashes = registered ++ sent_hashes (trace o))
    ∧ ∃ registered_,
        In (Called isRegistered (Resolved registered_)) (trace o)
        ∧ if (registered_ : bool)
          then ∃ balance,
                 In (Called (getBalance (workerAddress this))
                       (Resolved balance)) (trace o)
                 ∧ ready (final o)
                   = negb (balance <? workerMinBalance (config this))
          else ready (final o) = false ∧ sends (trace o) = [].
Proof.
  intros Ht o hashes Eo.
  destruct (ends_run _ _ w t Ht (_handleChanges_reports b this)) as [Hq _].
  destruct (Hq hashes Eo)
    as (Eb & (events & hint & registered & Hin & Eh) & isReg & Hr & Hk).
  rewrite sent_hashes_own_steps in Eh.
  split; [exact Eb|]. split.
  - exists events, hint, registered.
    split; [now apply own_steps_In | exact Eh].
  - exists isReg. split; [now apply own_steps_In|].
    destruct isReg.
    + destruct Hk as (balance & Hb & Ey). exists balance.
      split; [now apply own_steps_In | exact Ey].
    + destruct Hk as (Ey & Es). rewrite sends_own_steps in Es. now split.
Qed.

End Changes.

(** The worker is short of funds and the manager withdraws its hub
    deposit: the scan reports the hash of the withdrawal and leaves the
    server not ready. *)
Lemma _handleChanges_reports_and_sets_ready_witness :
  let o := run (_handleChanges 105 lowWorkerServer) poorManagerWorld None in
  lastScannedBlock (final o) = 105
  ∧ (∃ events hint registered,
       In (Called (handlePastEvents events
                     (lastScannedBlock lowWorkerServer) 105 hint)
             (Resolved registered)) (trace o)
       ∧ ["0xhash4"] = registered ++ sent_hashes (trace o))
  ∧ ∃ registered_,
      In (Called isRegistered (Resolved registered_)) (trace o)
      ∧ if (registered_ : bool)
        then ∃ balance,
               In (Called (getBalance (workerAddress lowWorkerServer))
                     (Resolved balance)) (trace o)
               ∧ ready (final o)
                 = negb (balance
                         <? workerMinBalance (config lowWorkerServer))
        else ready (final o) = false ∧ sends (trace o) = [].
Proof.
  apply (_handleChanges_reports_and_sets_ready lowWorkerServer
           poorManagerWorld None 105 (or_introl eq_refl)).
  vm_compute. reflexivity.
Defined.

(** ** What a relayed request has passed *)

Section Passed.
Context `{Utils} `{Collaborators W}.

Lemma validateMaxNonce_passes n s0 :
  ends (λ tr s r,
          r = Ok tt →
          ∃ nonce,
            In (Called (pollNonce (workerAddress s0)) (Resolved nonce)) tr
            ∧ nonce <= n)
    (validateMaxNonce n s0).
Proof.
  unfold validateMaxNonce.
  ends_walk ltac:(idtac).
  all: try solve [intros [=]].
  intros _. eexists. split; [step_in|]. now apply Z.ltb_ge.
Qed.

Lemma validatePaymasterGasLimits_passes req s0 :
  ends (λ tr s r,
          ∀ budget gas, r = Ok (budget, gas) →
          ∃ charge balance,
            In (Called (hub_calculateCharge gas
                          (RelayRequest.relayData (relayRequest req)))
                  (Resolved charge)) tr
            ∧ In (Called (hub_balanceOf
                            (RelayData.paymaster
                               (RelayRequest.relayData (relayRequest req))))
                    (Resolved balance)) tr
            ∧ charge <= balance)
    (validatePaymasterGasLimits req s0).
Proof.
  unfold validatePaymasterGasLimits, the_relayHubContract.
  ends_walk ltac:(idtac).
  all: try solve [intros ? ? [=]].
  all: intros budget gas [= <- <-]; eexists _, _;
    (split; [step_in|]); (split; [step_in|]);
    match goal with
    | E : (_ <? _) = false |- _ <= _ => now apply Z.ltb_ge in E
    end.
Qed.

Lemma validateViewCallSucceeds_passes req budget gas s0 :
  ends (λ tr s r,
          r = Ok tt →
          ∃ ret,
            In (Called (method_call
                          (relayCall budget (relayRequest req)
                             (RelayMetadata.signature (metadata req))
                             (RelayMetadata.approvalData (metadata req)) gas)
                          (workerAddress s0)
                          (RelayData.gasPrice
                             (RelayRequest.relayData (relayRequest req)))
                          gas)
                  (Resolved ret)) tr
            ∧ paymasterAccepted ret = true)
    (validateViewCallSucceeds req budget gas s0).
Proof.
  unfold validateViewCallSucceeds, the_relayHubContract.
  ends_walk ltac:(idtac).
  all: try solve [intros [=]].
  all: intros _; eexists; (split; [step_in|]);
    match goal with
    | E : negb _ = false |- _ => now apply negb_false_iff in E
    end.
Qed.

Lemma createRelayTransaction_checked req this :
  ends (λ tr s r,
          ∀ relay rest, sends tr = relay :: rest →
            isReady this = true
            ∧ (∃ nonce,
                 In (Called (pollNonce (workerAddress this))
                       (Resolved nonce)) tr
                 ∧ nonce <= RelayMetadata.relayMaxNonce (metadata req))
            ∧ (∃ charge balance,
                 In (Called (hub_calculateCharge
                               (SendTransactionDetails.gasLimit relay)
                               (RelayRequest.relayData (relayRequest req)))
                       (Resolved charge)) tr
                 ∧ In (Called (hub_balanceOf
                                 (RelayData.paymaster
                                    (RelayRequest.relayData
                                       (relayRequest req))))
                         (Resolved balance)) tr
                 ∧ charge <= balance)
            ∧ ∃ method ret,
                SendTransactionDetails.method relay = Some method
                ∧ In (Called (method_call method (workerAddress this)
                                (RelayData.gasPrice
                                   (RelayRequest.relayData
                                      (relayRequest req)))
                                (SendTransactionDetails.gasLimit relay))
                        (Resolved ret)) tr
                ∧ paymasterAccepted ret = true)
    (createRelayTransaction req this).
Proof.
  unfold createRelayTransaction, validateInputTypes, validateInput,
    validateFees, the_relayHubContract.
  ends_walk ltac:(idtac).
  all: try (eapply ends_consequence;
            [ apply ends_and;
              [apply validateMaxNonce_ends | apply validateMaxNonce_passes]
            | intros ? ? [?|?|?] ((? & ? & ->) & Hn);
              ends_walk ltac:(idtac) ]).
  all: try (eapply ends_consequence;
            [ apply ends_and;
              [ apply validatePaymasterGasLimits_ends
              | apply validatePaymasterGasLimits_passes ]
            | intros ? ? [[? ?]|?|?] ((? & ? & ->) & Hl);
              ends_walk ltac:(idtac) ]).
  all: try (eapply ends_consequence;
            [ apply ends_and;
              [ apply validateViewCallSucceeds_ends
              | apply validateViewCallSucceeds_passes ]
            | intros ? ? [?|?|?] ((? & ? & ->) & Hv);
              ends_walk ltac:(idtac) ]).
  all: try (eapply ends_consequence;
            [ apply replenishServer_ends
            | intros tr' s' r' _;
              destruct r' as [hashes|m|c]; ends_walk ltac:(idtac) ]).
  all: unfold id in *; fields; sends_norm.
  all: try solve [intros ? ? [=]].
  all: intros relay rest [= <- _];
    cbn [SendTransactionDetails.method SendTransactionDetails.gasLimit].
  all: repeat match goal with a : unit |- _ => destruct a end.
  all: destruct (Hn eq_refl) as (nonce & Hin & Hle);
    destruct (Hl _ _ eq_refl) as (charge & balance & Hc & Hb & Hcb);
    destruct (Hv eq_refl) as (ret & Hr & Ha).
  all: split; [now apply negb_false_iff in Heqb|].
  all: split; [exists nonce; split; [hyp_in | exact Hle]|].
  all: split;
    [exists charge, balance; split; [hyp_in | split; [hyp_in | exact Hcb]]|].
  all: eexists _, ret; split; [reflexivity|]; split; [hyp_in | exact Ha].
Qed.

(** X16. A relay call is handed to [sendTransaction] only for a request
    that passed the checks made on the way, as the collaborators answered
    them in the same run: the server was ready; the worker's nonce was at
    most the request's [relayMaxNonce]; the paymaster's hub balance
    covered the charge the hub computes for the gas limit of the
    transaction; and the very method sent, called as a view from the
    worker at the request's gas price and with the same gas limit, was
    accepted by the paymaster. *)
Theorem createRelayTransaction_sends_what_it_checked
    (req : RelayTransactionRequest) (this : RelayServer) (w : W)
    (t : option Callback) :
  watchdog_or_none t →
  let o := run (createRelayTransaction req this) w t in
  ∀ relay rest,
    sends (trace o) = relay :: rest →
    isReady this = true
    ∧ (∃ nonce,
         In (Called (pollNonce (workerAddress this)) (Resolved nonce))
            (trace o)
         ∧ nonce <= RelayMetadata.relayMaxNonce (metadata req))
    ∧ (∃ charge balance,
         In (Called (hub_calculateCharge
                       (SendTransactionDetails.gasLimit relay)
                       (RelayRequest.relayData (relayRequest req)))
               (Resolved charge)) (trace o)
         ∧ In (Called (hub_balanceOf
                         (RelayData.paymaster
                            (RelayRequest.relayData (relayRequest req))))
                 (Resolved balance)) (trace o)
         ∧ charge <= balance)
    ∧ ∃ method ret,
        SendTransactionDetails.method relay = Some method
        ∧ In (Called (method_call method (workerAddress this)
                        (RelayData.gasPrice
                           (RelayRequest.relayData (relayRequest req)))
                        (SendTransactionDetails.gasLimit relay))
                (Resolved ret)) (trace o)
        ∧ paymasterAccepted ret = true.
Proof.
  intros Ht o relay rest Es.
  destruct (ends_run _ _ w t Ht (createRelayTransaction_checked req this))
    as [Hq _].
  rewrite <- sends_own_steps in Es.
  destruct (Hq relay rest Es)
    as (Ey & (nonce & Hn & Hle) & (charge & balance & Hc & Hb & Hcb)
        & method & ret & Em & Hr & Ha).
  split; [exact Ey|]. split; [|split].
  - exists nonce. split; [now apply own_steps_In | exact Hle].
  - exists charge, balance.
    split; [now apply own_steps_In|].
    split; [now apply own_steps_In | exact Hcb].
  - exists method, ret. split; [exact Em|].
    split; [now apply own_steps_In | exact Ha].
Qed.

End Passed.

(** The ready demo server relays the good request. *)
Lemma createRelayTransaction_sends_what_it_checked_witness :
  let o := run (createRelayTransaction goodRequest readyServer) calmWorld
             None in
  ∃ relay rest,
    sends (trace o) = relay :: rest
    ∧ isReady readyServer = true
    ∧ (∃ nonce,
         In (Called (pollNonce (workerAddress readyServer)) (Resolved nonce))
            (trace o)
         ∧ nonce <= RelayMetadata.relayMaxNonce (metadata goodRequest))
    ∧ (∃ charge balance,
         In (Called (hub_calculateCharge
                       (SendTransactionDetails.gasLimit relay)
                       (RelayRequest.relayData (relayRequest goodRequest)))
               (Resolved charge)) (trace o)
         ∧ In (Called (hub_balanceOf
                         (RelayData.paymaster
                            (RelayRequest.relayData
                               (relayRequest goodRequest))))
                 (Resolved balance)) (trace o)
         ∧ charge <= balance)
    ∧ ∃ method ret,
        SendTransactionDetails.method relay = Some method
        ∧ In (Called (method_call method (workerAddress readyServer)
                        (RelayData.gasPrice
                           (RelayRequest.relayData
                              (relayRequest goodRequest)))
                        (SendTransactionDetails.gasLimit relay))
                (Resolved ret)) (trace o)
        ∧ paymasterAccepted ret = true.
Proof.
  eexists _, _. split; [vm_compute; reflexivity|].
  eapply (createRelayTransaction_sends_what_it_checked goodRequest
           readyServer calmWorld None (or_introl eq_refl)).
  vm_compute. reflexivity.
Defined.

(** ** The gas price after a round *)

Section Refreshing.
Context `{Utils} `{Collaborators W}.

(** A scan assigns neither the gas price nor the block of the last
    refresh. *)
Local Abbreviation price_kept s0 :=
  (λ (tr : list step) s (r : result _),
     gasPrice s = gasPrice s0 ∧ lastRefreshBlock s = lastRefreshBlock s0).









End Refreshing.


(** ** Starting and stopping the polling *)

Section Polling.
Context `{Utils} `{Collaborators W}.

Lemma run_stop s (w : W) t :
  workerTask s = true →
  run (stop s) w t
  = {| trace := [Output clearInterval;
                 Output (log info "Successfully stopped polling!!")];
       final := s; outcome := Ok tt; world := w; timer := t |}.
Proof.
  intros Es. unfold stop, mbind, M_bind, read, out, throw, mret, M_ret.
  cbn [bindP]. rewrite Es. reflexivity.
Qed.

Lemma stop_again (n : nat) s (w : W) t :
  workerTask s = true →
  run (for_each (replicate n tt) (λ _, stop) s) w t
  = {| trace :=
         concat (replicate n
                   [Output clearInterval;
                    Output (log info "Successfully stopped polling!!")]);
       final := s; outcome := Ok tt; world := w; timer := t |}.
Proof.
  intros Es. induction n as [|n IH]; [reflexivity|].
  cbn [replicate for_each concat].
  rewrite run_mbind, run_stop by exact Es.
  unfold then_run. cbn [outcome final world timer trace]. rewrite IH.
  reflexivity.
Qed.

(** X18. [stop] before [start] throws and clears nothing.  After one
    [start], [stop] succeeds as often as it is called: it does not forget
    the interval and clears it again each time. *)
Theorem stop_needs_one_start (this : RelayServer) (w : W)
    (t : option Callback) :
  (workerTask this = false →
   outcome (run (stop this) w t) = Throw "Server not started"
   ∧ trace (run (stop this) w t) = [])
  ∧ ∀ n : nat,
      let o := run ((start;; for_each (replicate n tt) (λ _, stop)) this)
                 w t in
      outcome o = Ok tt
      ∧ trace o
        = Output (log debug ("Started polling for new blocks every "
                             +:+ pretty (checkInterval (config this))
                             +:+ "ms"))
          :: Output (setInterval (checkInterval (config this)))
          :: concat (replicate n
                       [Output clearInterval;
                        Output (log info "Successfully stopped polling!!")]).
Proof.
  split.
  - intros Es. unfold stop, mbind, M_bind, read, throw.
    cbn [bindP]. rewrite Es. split; reflexivity.
  - intros n. rewrite run_mbind.
    unfold then_run, start, mbind, M_bind, read, out, assign.
    cbn [bindP run timer_after before trace outcome final world timer app].
    rewrite stop_again by reflexivity. split; reflexivity.
Qed.

End Polling.
